(** * Substorm detection toolkit: array utilities and SuperMAG download

    A shallow embedding of [utils.py] (splitting, reshaping, confusion
    matrix) and of [data/supermag_download.py] (date ranges, the retry
    loops, the interval and year assembly), with the properties of the
    written specification stated and settled on it.

    Python values that the code only moves around are kept abstract; numpy
    arrays are references into a store of flat row-major buffers, so that
    views, copies and in-place updates are told apart. *)

From Stdlib Require Import String.
From Stdlib Require Import List ZArith QArith Lia Bool Arith Permutation.
From Stdlib Require Import DecimalString.
From Equations Require Import Equations.
Import ListNotations.

Set Implicit Arguments.
Close Scope Q_scope.
Open Scope nat_scope.

(* ================================================================== *)
(** ** Python: outcomes, exceptions, slices *)

Module Py.

Inductive exn : Type :=
| IndexError | ValueError | TypeError | UnboundLocalError
| ZeroDivisionError | RequestException | ParserError
| OverflowError | AttributeError.

Inductive outcome (A : Type) : Type :=
| Returned (a : A)
| Raised (e : exn).
Arguments Raised {A} e.

(** Computations over a state [S] that return or raise. *)
Definition M (S A : Type) : Type := S -> outcome A * S.

Definition ret {S A} (a : A) : M S A := fun s => (Returned a, s).
Definition raise {S A} (e : exn) : M S A := fun s => (Raised e, s).
Definition bind {S A B} (c : M S A) (k : A -> M S B) : M S B :=
  fun s => match c s with
           | (Returned a, s') => k a s'
           | (Raised e, s') => (Raised e, s')
           end.

(** [for x in xs: body(x)], collecting what each iteration produces. *)
Fixpoint for_each {S A B} (body : A -> M S B) (xs : list A) : M S (list B) :=
  match xs with
  | [] => ret []
  | x :: xs' =>
      bind (body x) (fun y =>
      bind (for_each body xs') (fun ys => ret (y :: ys)))
  end.

(** [for x in xs: acc = body(x, acc)] *)
Fixpoint for_fold {S A B} (body : A -> B -> M S B) (xs : list A) (acc : B)
  : M S B :=
  match xs with
  | [] => ret acc
  | x :: xs' => bind (body x acc) (for_fold body xs')
  end.

(** The bound [k] of [a[:k]] and [a[k:]] on a sequence of length [n]:
    negative bounds count from the end, and both are clipped. *)
Definition slice_bound (n : nat) (k : Z) : nat :=
  if (k <? 0)%Z then Z.to_nat (Z.max (Z.of_nat n + k) 0)
  else Nat.min (Z.to_nat k) n.

(** [int(x)] truncates toward zero. *)
Definition int_of (x : Q) : Z := Z.quot (Qnum x) (Z.pos (Qden x)).

End Py.

Import Py.

Declare Scope py_scope.
Delimit Scope py_scope with py.
Notation "x <- c ;; k" := (bind c (fun x => k))
  (at level 61, c at next level, right associativity) : py_scope.
Notation "c ;;; k" := (bind c (fun _ => k))
  (at level 61, right associativity) : py_scope.
Open Scope py_scope.

(* ================================================================== *)
(** ** numpy: arrays as views on a store of buffers *)

Module Numpy.
Section Arrays.

(** Element type of the data arrays; the code never computes on it. *)
Variable A : Type.

Inductive scalar : Type :=
| SInt (z : Z)
| SVal (a : A).

Definition buffer : Type := list scalar.
Definition heap : Type := list buffer.

(** A C-contiguous array: [shape] elements laid out row-major, starting
    at [off] in buffer number [buf]. *)
Record ndarray : Type := mk_ndarray
  { buf : nat; off : nat; shape : list nat }.

Definition prod_dims (s : list nat) : nat := fold_right Nat.mul 1 s.
Definition size (a : ndarray) : nat := prod_dims (shape a).

(** [np.ravel(a)]: the elements in row-major order. *)
Definition ravel (h : heap) (a : ndarray) : option (list scalar) :=
  match nth_error h (buf a) with
  | Some b =>
      if off a + size a <=? length b
      then Some (firstn (size a) (skipn (off a) b))
      else None
  | None => None
  end.

Definition block (w : nat) (xs : list scalar) (j : nat) : list scalar :=
  firstn w (skipn (j * w) xs).

(** The array as the list of its rows (entries along the first axis). *)
Definition rows (h : heap) (a : ndarray) : option (list (list scalar)) :=
  match shape a, ravel h a with
  | n :: rest, Some xs => Some (map (block (prod_dims rest) xs) (seq 0 n))
  | _, _ => None
  end.



(** The store [h'] keeps every buffer of [h] as it is. *)
Definition extends (h h' : heap) : Prop := exists ext, h' = h ++ ext.

(** A computation keeps [h0] when it leaves the buffers of [h0] as they
    are, whatever has been added to the store since. *)
Definition keeps {X} (h0 : heap) (c : M heap X) : Prop :=
  forall h, extends h0 h -> extends h0 (snd (c h)).

Definition alloc (b : buffer) : M heap nat :=
  fun h => (Returned (length h), h ++ [b]).

Definition write (l : nat) (b : buffer) : M heap unit :=
  fun h => (Returned tt, firstn l h ++ b :: skipn (S l) h).

Definition int_scalar (i : nat) : scalar := SInt (Z.of_nat i).

(** [np.arange(n)] *)
Definition np_arange (n : nat) : M heap ndarray :=
  l <- alloc (map int_scalar (seq 0 n)) ;;
  ret (mk_ndarray l 0 [n]).

(** [np.random.shuffle(a)]: permutes the rows of [a] in place.  The
    generator is a parameter: [rng n] is the order it draws for [n]
    rows. *)
Variable rng : nat -> list nat.

Definition np_shuffle (a : ndarray) : M heap unit :=
  fun h =>
    match shape a, nth_error h (buf a), ravel h a with
    | n :: rest, Some b, Some xs =>
        let new := flat_map (block (prod_dims rest) xs) (rng n) in
        write (buf a)
              (firstn (off a) b ++ new ++ skipn (off a + size a) b) h
    | _, _, _ => (Raised TypeError, h)
    end.

(** [a[:k]] and [a[k:]]: views on the same buffer. *)
Definition slice_to (a : ndarray) (k : Z) : outcome ndarray :=
  match shape a with
  | n :: rest => Returned (mk_ndarray (buf a) (off a) (slice_bound n k :: rest))
  | [] => Raised IndexError
  end.

Definition slice_from (a : ndarray) (k : Z) : outcome ndarray :=
  match shape a with
  | n :: rest =>
      let k' := slice_bound n k in
      Returned (mk_ndarray (buf a) (off a + k' * prod_dims rest) ((n - k') :: rest))
  | [] => Raised IndexError
  end.

Definition lift {X} (o : outcome X) : M heap X := fun h => (o, h).

(** Index [z] on an axis of length [n]; negative indices wrap once. *)
Definition resolve_index (n : nat) (s : scalar) : option nat :=
  match s with
  | SInt z =>
      if (0 <=? z)%Z && (z <? Z.of_nat n)%Z then Some (Z.to_nat z)
      else if (- Z.of_nat n <=? z)%Z && (z <? 0)%Z then Some (Z.to_nat (Z.of_nat n + z))
      else None
  | SVal _ => None
  end.

Fixpoint resolve_indices (n : nat) (ss : list scalar) : option (list nat) :=
  match ss with
  | [] => Some []
  | s :: ss' =>
      match resolve_index n s, resolve_indices n ss' with
      | Some j, Some js => Some (j :: js)
      | _, _ => None
      end
  end.

(** [a[idx]] with a 1-d integer array [idx]: a fresh array holding the
    selected rows. *)
Definition np_take (a idx : ndarray) : M heap ndarray :=
  fun h =>
    match shape a, shape idx, ravel h a, ravel h idx with
    | n :: rest, [_], Some xs, Some ss =>
        match resolve_indices n ss with
        | Some js =>
            (l <- alloc (flat_map (block (prod_dims rest) xs) js) ;;
             ret (mk_ndarray l 0 (length js :: rest))) h
        | None => (Raised IndexError, h)
        end
    | _, _, _, _ => (Raised IndexError, h)
    end.

(** [np.reshape(a, newshape)] on a contiguous array: a view. *)
Definition np_reshape (a : ndarray) (newshape : list nat) : outcome ndarray :=
  if prod_dims newshape =? size a
  then Returned (mk_ndarray (buf a) (off a) newshape)
  else Raised ValueError.

End Arrays.

Arguments SInt {A} z.
Arguments int_scalar {A} i.
Arguments SVal {A} a.

End Numpy.

Import Numpy.

(* ================================================================== *)
(** ** utils.py *)

Module Utils.
Section Utils.

Variable A : Type.
Variable rng : nat -> list nat.

Local Abbreviation heap := (Numpy.heap A).

(** Lines 26-28: the two fancy-indexed copies of one array. *)
Definition split_one (idx : ndarray) (split_idx : Z) (data : ndarray)
  : M heap (ndarray * ndarray) :=
  ia <- lift (slice_to idx split_idx) ;;
  a <- np_take data ia ;;
  ib <- lift (slice_from idx split_idx) ;;
  b <- np_take data ib ;;
  ret (a, b).

(** Lines 30-40: the trimming to a multiple of [batch_size]. *)
Definition trim (batch_size : option Z) (split_a split_b : list ndarray)
  : M heap (list ndarray * list ndarray) :=
  match batch_size with
  | None => ret (split_a, split_b)
  | Some bs =>
      if (bs =? 0)%Z then ret (split_a, split_b)
      else
        match split_a, split_b with
        | a0 :: _, b0 :: _ =>
            match shape a0, shape b0 with
            | n_samples_a :: _, n_samples_b :: _ =>
                let remainder_a := (Z.of_nat n_samples_a mod bs)%Z in
                let remainder_b := (Z.of_nat n_samples_b mod bs)%Z in
                sa <- for_each (fun a => lift (slice_to a (- remainder_a))) split_a ;;
                sb <- for_each (fun b => lift (slice_to b (- remainder_b))) split_b ;;
                ret (sa, sb)
            | _, _ => raise IndexError
            end
        | _, _ => ret (split_a, split_b)
        end
  end.

(** Lines 11-42.  [batch_size] is [None] or an integer.  The product
    [(1 - split) * n] is taken exactly; every integer is the [split_idx]
    of some [split], so what is proved for all [split] does not depend on
    how the float product rounds. *)
Definition split_data (list_of_data : list ndarray) (split : Q)
           (random : bool) (batch_size : option Z)
  : M heap (list ndarray * list ndarray) :=
  match list_of_data with
  | [] => raise IndexError
  | d0 :: _ =>
      match shape d0 with
      | [] => raise IndexError
      | n :: _ =>
          let split_idx := int_of ((1 - split) * inject_Z (Z.of_nat n))%Q in
          idx <- np_arange n ;;
          (if random then np_shuffle rng idx else ret tt) ;;;
          ab <- for_each (split_one idx split_idx) list_of_data ;;
          trim batch_size (map fst ab) (map snd ab)
      end
  end.

(** What the two groups [p] of one array [d] hold in a store [hf]: the
    rows of [d] (as in the store [h] of the call) picked by [ga] and by
    [gb]. *)
Definition grouped (h hf : heap) (ga gb : list nat) (d : ndarray)
           (p : ndarray * ndarray) : Prop :=
  exists rs,
    rows h d = Some rs /\
    rows hf (fst p) = Some (map (fun i => nth i rs []) ga) /\
    rows hf (snd p) = Some (map (fun i => nth i rs []) gb).

(** Lines 79-89. *)
Definition rnn_format_x (list_of_x : list ndarray) : M heap (list ndarray) :=
  for_each (fun x =>
    match shape x with
    | [a0; a1; a2; a3] => lift (np_reshape x [a0; a2; a1 * a3])
    | _ => raise ValueError
    end) list_of_x.

(** Lines 162-172. *)
Definition linear_format_x (list_of_x : list ndarray) : M heap (list ndarray) :=
  for_each (fun x =>
    match shape x with
    | [a0; a1; a2; a3] => lift (np_reshape x [a0; a1 * a2 * a3])
    | _ => raise ValueError
    end) list_of_x.

End Utils.
End Utils.

(* ------------------------------------------------------------------ *)
(** *** confusion_mtx *)

Module Metrics.

(** What [np.array] accepts for the labels: a scalar or a nesting of
    sequences; [np.ravel] lists the leaves in order. *)
Inductive array_like : Type :=
| Scalar (z : Z)
| Seq (xs : list array_like).

Fixpoint np_ravel (y : array_like) : list Z :=
  match y with
  | Scalar z => [z]
  | Seq xs => flat_map np_ravel xs
  end.

(** A float as far as the matrix needs it: a finite value, kept as an
    exact rational (rounding is not modelled), or what numpy yields on a
    zero denominator. *)
Inductive fval : Type :=
| Finite (q : Q)
| Inf
| NaN.

Definition np_divide (x s : Z) : fval :=
  if (s =? 0)%Z then (if (x =? 0)%Z then NaN else Inf)
  else Finite (inject_Z x / inject_Z s)%Q.

Definition is_finite (v : fval) : bool :=
  match v with Finite _ => true | _ => false end.

Definition fadd (u v : fval) : fval :=
  match u, v with
  | Finite p, Finite q => Finite (p + q)%Q
  | NaN, _ | _, NaN => NaN
  | _, _ => Inf
  end.

Definition feq (u v : fval) : Prop :=
  match u, v with
  | Finite p, Finite q => (p == q)%Q
  | _, _ => False
  end.

(** Position of a label in [labels] (sklearn's [label_to_ind]). *)
Fixpoint label_to_ind (labels : list Z) (l : Z) : option nat :=
  match labels with
  | [] => None
  | x :: rest =>
      if (x =? l)%Z then Some 0
      else match label_to_ind rest l with
           | Some i => Some (S i)
           | None => None
           end
  end.

Definition zeros (n : nat) : list (list Z) := repeat (repeat 0%Z n) n.

Fixpoint bump_at {X} (f : X -> X) (i : nat) (l : list X) : list X :=
  match i, l with
  | _, [] => []
  | 0, x :: l' => f x :: l'
  | S i', x :: l' => x :: bump_at f i' l'
  end.

(** One sample added to the count matrix; samples with a label outside
    [labels] are left out. *)
Definition count_sample (labels : list Z) (cm : list (list Z)) (tp : Z * Z)
  : list (list Z) :=
  match label_to_ind labels (fst tp), label_to_ind labels (snd tp) with
  | Some i, Some j => bump_at (bump_at Z.succ j) i cm
  | _, _ => cm
  end.

(** [sklearn.metrics.confusion_matrix(y_true, y_pred, labels=labels)]:
    inputs of different lengths, or a [y_true] holding none of the
    labels, are refused. *)
Definition confusion_matrix (y_true y_pred : list Z) (labels : list Z)
  : outcome (list (list Z)) :=
  if negb (List.length y_true =? List.length y_pred) then Raised ValueError
  else if forallb (fun l => negb (existsb (Z.eqb l) y_true)) labels
  then Raised ValueError
  else Returned (fold_left (count_sample labels) (combine y_true y_pred)
                           (zeros (List.length labels))).

Definition zsum (l : list Z) : Z := fold_right Z.add 0%Z l.

(** Lines 58-63. *)
Definition confusion_mtx (y_true y_pred : array_like)
  : outcome (list (list fval)) :=
  let y_true := np_ravel y_true in
  let y_pred := np_ravel y_pred in
  match confusion_matrix y_true y_pred [1; 0]%Z with
  | Returned cm =>
      Returned (map (fun row => map (fun x => np_divide x (zsum row)) row) cm)
  | Raised e => Raised e
  end.

(** The count the specification speaks of: samples whose true label is
    [t] and whose predicted label is [p]. *)
Definition count_in (pairs : list (Z * Z)) (t p : Z) : Z :=
  Z.of_nat (List.length
    (filter (fun tp => (fst tp =? t)%Z && (snd tp =? p)%Z) pairs)).

Definition count_pairs (y_true y_pred : list Z) (t p : Z) : Z :=
  count_in (combine y_true y_pred) t p.

(** The row-normalised matrix in the label order [positive, negative]. *)
Definition normalized_spec (y_true y_pred : list Z) : list (list fval) :=
  let c := count_pairs y_true y_pred in
  [[np_divide (c 1 1) (c 1 1 + c 1 0); np_divide (c 1 0) (c 1 1 + c 1 0)];
   [np_divide (c 0 1) (c 0 1 + c 0 0); np_divide (c 0 0) (c 0 1 + c 0 0)]]%Z.

Definition row_sum (row : list fval) : fval :=
  fold_right fadd (Finite 0) row.

Definition all_finite (m : list (list fval)) : bool :=
  forallb (forallb is_finite) m.


End Metrics.

(* ================================================================== *)
(** ** data/supermag_download.py *)

Module Supermag.

Definition N_INTERVALS : Z := 10.
Definition MAX_TRIES : nat := 5.
Definition SLEEP_TIME : Z := 5.

(** [datetime] and [timedelta] count whole microseconds, a [datetime]
    from the start of day 0 of the proleptic Gregorian calendar
    (0001-01-01 is day 1, as [toordinal] has it). *)
Definition datetime : Type := Z.
Definition timedelta : Type := Z.

(** [datetime.min] and [datetime.max]: the years 1 to 9999. *)
Definition datetime_min : datetime := 86400000000%Z.
Definition datetime_max : datetime := (3652060 * 86400000000 - 1)%Z.

(** [timedelta.min] and [timedelta.max]: 999999999 days either way. *)
Definition timedelta_min : timedelta := (-999999999 * 86400000000)%Z.
Definition timedelta_max : timedelta := (1000000000 * 86400000000 - 1)%Z.

Definition in_datetime (t : Z) : bool :=
  (datetime_min <=? t)%Z && (t <=? datetime_max)%Z.

Definition in_timedelta (d : Z) : bool :=
  (timedelta_min <=? d)%Z && (d <=? timedelta_max)%Z.

(** [timedelta * int] and [datetime + timedelta]: a result out of range
    is refused. *)
Definition timedelta_mul (d : timedelta) (i : Z) : outcome timedelta :=
  if in_timedelta (d * i)%Z then Returned (d * i)%Z else Raised OverflowError.

Definition datetime_add (t : datetime) (d : timedelta) : outcome datetime :=
  if in_datetime (t + d)%Z then Returned (t + d)%Z else Raised OverflowError.

Inductive python : Type := Python2 | Python3.

(** [timedelta / int]: the quotient rounded to the nearest microsecond,
    ties to even (the standard library's [_divide_and_round]). *)
Definition divide_and_round (a b : Z) : Z :=
  let q := (a / b)%Z in
  let r := (2 * (a mod b))%Z in
  let greater_than_half := if (0 <? b)%Z then (b <? r)%Z else (r <? b)%Z in
  if greater_than_half || ((r =? b)%Z && (q mod 2 =? 1)%Z)
  then (q + 1)%Z else q.

(** [range(n)] *)
Definition range (n : Z) : list nat := seq 0 (Z.to_nat n).

(** [timedelta / int] for a divisor that is not zero: the rounded
    quotient in Python 3, the floor quotient in Python 2. *)
Definition timedelta_div (py : python) (a : timedelta) (b : Z) : timedelta :=
  match py with
  | Python3 => divide_and_round a b
  | Python2 => (a / b)%Z
  end.

(** What a loop yields until an iteration raises. *)
Fixpoint collect {X Y} (f : X -> outcome Y) (l : list X) : outcome (list Y) :=
  match l with
  | [] => Returned []
  | x :: l' =>
      match f x with
      | Raised e => Raised e
      | Returned y =>
          match collect f l' with
          | Raised e => Raised e
          | Returned ys => Returned (y :: ys)
          end
      end
  end.

(** [list(date_range(start, end, intv))] for two datetimes. *)
Definition date_range (py : python) (start end_ : datetime) (intv : Z)
  : outcome (list datetime) :=
  if (intv =? 0)%Z then Raised ZeroDivisionError
  else
    let diff := timedelta_div py (end_ - start)%Z intv in
    match collect (fun i => match timedelta_mul diff (Z.of_nat i) with
                            | Returned step => datetime_add start step
                            | Raised e => Raised e
                            end) (range intv) with
    | Returned stamps => Returned (stamps ++ [end_])
    | Raised e => Raised e
    end.

(** A value that is a [datetime]. *)
Definition valid_datetime (t : Z) : Prop :=
  (datetime_min <= t <= datetime_max)%Z.


Inductive endpoint : Type := GET_STATION_LIST | GET_DATA.

(** The parameters of a request that vary: start, "H:M" interval and,
    for the data service, the station. *)
Record params : Type := mk_params
  { start : datetime; interval : Z * Z; stations : option string }.

(** What [requests.get] does: raise, or return a response body. *)
Inductive reply : Type :=
| Fails
| Replies (text : string).

(** Printed lines, by the statement that prints them. *)
Inductive line : Type :=
| CouldntGetData (station : option string) (start : datetime)
| CouldntGetStations (start : datetime)
| TheException
| StationsForInterval (n : nat) (start : datetime)
| Progress (i n : nat) (station : string)
| IntervalOf (i : nat) (n : Z) (start : datetime)
| Saving (fn : string).

(** What [.json()['stations']] can hold when it does not raise, as far as
    the code tells values apart: [None] (a JSON null), a list (taken to
    hold station codes), a string, a number or boolean, an object (given
    by its keys).  Strings are ASCII. *)
Inductive pyvalue : Type :=
| PyNone
| PyList (l : list string)
| PyStr (s : string)
| PyNum
| PyDict (keys : list string).

(** The characters of a string, as iterating over it yields them. *)
Definition chars (s : string) : list string :=
  map (fun c => String c EmptyString) (list_ascii_of_string s).

Section Download.

(** A parsed per-station table, and the two parsers: lines 72-76
    ([pd.read_csv] and the index set-up, which may raise) and line 93
    ([.json()['stations']], [None] when it raises, else the value found
    there, whatever it is). *)
Variable frame : Type.
Variable read_frame : string -> outcome frame.
Variable parse_stations : string -> option pyvalue.

(** An [xr.Dataset] as the code uses it: variables by station name.
    Assigning [None] stores a null variable. *)
Definition Dataset : Type := list (string * option frame).

Variable xr_merge : Dataset -> Dataset -> Dataset.

(** The network: the reply to the [k]-th request issued. *)
Variable net : nat -> endpoint -> params -> reply.

Variable py : python.

Record world : Type := mk_world
  { calls : nat;
    slept : Z;
    stdout : list line;
    files : list (string * Dataset) }.

Definition print (l : line) : M world unit :=
  fun w => (Returned tt,
            mk_world (calls w) (slept w) (stdout w ++ [l]) (files w)).

Definition called (w : world) : world :=
  mk_world (S (calls w)) (slept w) (stdout w) (files w).

Definition sleep (t : Z) (w : world) : world :=
  mk_world (calls w) (slept w + t) (stdout w) (files w).

(** The world after [k] failed attempts, each followed by the sleep. *)
Definition after_failures (k : nat) (w : world) : world :=
  mk_world (calls w + k) (slept w + SLEEP_TIME * Z.of_nat k)
           (stdout w) (files w).

Definition to_netcdf (dataset : Dataset) (fn : string) : M world unit :=
  fun w => (Returned tt,
            mk_world (calls w) (slept w) (stdout w) (files w ++ [(fn, dataset)])).

(** Lines 61-68 and 80-87: the retry loop, yielding the final [tries]
    and the response if one was received. *)
Equations request_loop (url : endpoint) (p : params) (tries : nat) (w : world)
  : (nat * option string) * world by wf (MAX_TRIES - tries) lt :=
request_loop url p tries w with lt_dec tries MAX_TRIES := {
  | left _ with net (calls w) url p := {
      | Replies text => ((tries, Some text), called w)
      | Fails => request_loop url p (S tries) (sleep SLEEP_TIME (called w)) };
  | right _ => ((tries, None), w) }.
Next Obligation.
  unfold MAX_TRIES in *. destruct tries as [|[|[|[|[|?]]]]]; simpl; lia.
Qed.

Definition getDataForStation (data_params : params) : M world (option frame) :=
  fun w =>
    let '((tries, data_rq), w1) := request_loop GET_DATA data_params 0 w in
    if tries =? MAX_TRIES then
      (print (CouldntGetData (stations data_params) (start data_params)) ;;;
       ret None) w1
    else
      match data_rq with
      | Some text =>
          match read_frame text with
          | Returned df => (Returned (Some df), w1)
          | Raised e => (Raised e, w1)
          end
      | None => (Raised UnboundLocalError, w1)
      end.

(** Whether [e] is still bound after the loop: Python 3 unbinds the
    target of [except ... as e] when the handler ends. *)
Definition e_bound (tries : nat) : bool :=
  match py with
  | Python2 => 0 <? tries
  | Python3 => false
  end.

Definition getAvailableStations (station_params : params)
  : M world pyvalue :=
  fun w =>
    let '((tries, station_rq), w1) :=
      request_loop GET_STATION_LIST station_params 0 w in
    if tries =? MAX_TRIES then
      (print (CouldntGetStations (start station_params)) ;;;
       if e_bound tries then print TheException ;;; ret PyNone
       else raise UnboundLocalError) w1
    else
      match station_rq with
      | Some text =>
          match parse_stations text with
          | Some station_list => (Returned station_list, w1)
          | None =>
              (print (CouldntGetStations (start station_params)) ;;;
               print TheException ;;;
               ret PyNone) w1
          end
      | None => (Raised UnboundLocalError, w1)
      end.

(** [data[station] = df] *)
Fixpoint ds_set (data : Dataset) (station : string) (df : option frame)
  : Dataset :=
  match data with
  | [] => [(station, df)]
  | (k, v) :: rest =>
      if String.eqb k station then (k, df) :: rest
      else (k, v) :: ds_set rest station df
  end.

Fixpoint ds_get (data : Dataset) (station : string)
  : option (option frame) :=
  match data with
  | [] => None
  | (k, v) :: rest =>
      if String.eqb k station then Some v else ds_get rest station
  end.

(** [station_list.index(station)] for a station of the list. *)
Fixpoint index_of (station_list : list string) (station : string) : nat :=
  match station_list with
  | [] => 0
  | s :: rest => if String.eqb s station then 0 else S (index_of rest station)
  end.

(** Lines 101-125.  [len] refuses [None] and numbers; a list is
    assembled station by station, and so is a string, character by
    character; an object has no [index]. *)
Definition getDataForInterval (start_date : datetime) (hours minutes : Z)
  : M world Dataset :=
  let data : Dataset := [] in
  station_list <- getAvailableStations
                    (mk_params start_date (hours, minutes) None) ;;
  let assemble (station_list : list string) : M world Dataset :=
      print (StationsForInterval (List.length station_list) start_date) ;;;
      for_fold (fun station data =>
        let data_params := mk_params start_date (hours, minutes) (Some station) in
        print (Progress (index_of station_list station + 1)
                        (List.length station_list) station) ;;;
        df <- getDataForStation data_params ;;
        ret (ds_set data station df)) station_list data in
  match station_list with
  | PyNone | PyNum => raise TypeError
  | PyList station_list => assemble station_list
  | PyStr s => assemble (chars s)
  | PyDict keys =>
      print (StationsForInterval (List.length keys) start_date) ;;;
      match keys with
      | [] => ret data
      | _ :: _ => raise AttributeError
      end
  end.

Definition getitem {X} (l : list X) (i : nat) : M world X :=
  match nth_error l i with
  | Some x => ret x
  | None => raise IndexError
  end.

(** Lines 128-141.  The hours and minutes are taken on whole
    microseconds; the code goes through the float [total_seconds()],
    which gives the same quotients for spans of a fraction of a year. *)
Definition downloadDataToFile (fn : string) (start_date end_date : datetime)
           (nintervals : Z) : M world unit :=
  let dataset : Dataset := [] in
  match date_range py start_date end_date nintervals with
  | Raised e => raise e
  | Returned dates =>
      dataset <- for_fold (fun i dataset =>
        print (IntervalOf (i + 1) nintervals start_date) ;;;
        d1 <- getitem dates (i + 1) ;;
        d0 <- getitem dates i ;;
        let tdelt := (d1 - d0)%Z in
        let hours := (tdelt / 3600000000)%Z in
        let minutes := ((tdelt - 3600000000 * hours) / 60000000)%Z in
        data <- getDataForInterval d0 hours minutes ;;
        ret (xr_merge dataset data)) (range nintervals) dataset ;;
      print (Saving fn) ;;;
      to_netcdf dataset fn
  end.

End Download.
End Supermag.

(* ================================================================== *)
(** ** Effects of a computation on the state *)

Module Effects.

(** Every run of [c] takes a state to one related to it by [R], whether
    it returns or raises. *)
Definition steps {S A} (R : S -> S -> Prop) (c : M S A) : Prop :=
  forall s, R s (snd (c s)).

(** Requests and sleep only accumulate, at most [SLEEP_TIME] seconds of
    sleep per request. *)
Definition paced {frame} (w w' : Supermag.world frame) : Prop :=
  Supermag.calls w <= Supermag.calls w' /\
  (Supermag.slept w <= Supermag.slept w')%Z /\
  (Supermag.slept w' - Supermag.slept w
   <= Supermag.SLEEP_TIME
      * (Z.of_nat (Supermag.calls w') - Z.of_nat (Supermag.calls w)))%Z.

Definition same_files {frame} (w w' : Supermag.world frame) : Prop :=
  Supermag.files w' = Supermag.files w.

(** The names of the variables of a dataset. *)
Definition ds_keys {frame} (data : Supermag.Dataset frame) : list string :=
  map fst data.

(** What the dataset of one interval holds, given the stations of its
    inventory: a variable for each listed station and for no other; a
    null variable for a listed station none of whose requests is
    answered; a table only where a request for that station was answered
    with a body that parses to it. *)
Definition interval_dataset {frame} (read_frame : string -> outcome frame)
           (net : nat -> Supermag.endpoint -> Supermag.params -> Supermag.reply)
           (start_date : Supermag.datetime) (hm : Z * Z)
           (station_list : list string) (data : Supermag.Dataset frame)
  : Prop :=
  (forall st, In st station_list <-> Supermag.ds_get data st <> None) /\
  (forall st, In st station_list ->
     (forall k, net k Supermag.GET_DATA
                    (Supermag.mk_params start_date hm (Some st))
                = Supermag.Fails) ->
     Supermag.ds_get data st = Some None) /\
  (forall st df, Supermag.ds_get data st = Some (Some df) ->
     exists k text,
       net k Supermag.GET_DATA (Supermag.mk_params start_date hm (Some st))
       = Supermag.Replies text /\
       read_frame text = Returned df).

End Effects.

(* ================================================================== *)
(** ** What the trimming of [split_data] keeps *)

Module SplitSpec.

(** Rows left of a group of [m] rows by lines 36-40 for a positive
    [batch_size]: the rows before the trailing remainder, and none when
    the remainder is zero. *)
Definition kept_rows (batch_size : Z) (m : nat) : nat :=
  if (Z.of_nat m mod batch_size =? 0)%Z then 0
  else m - Z.to_nat (Z.of_nat m mod batch_size).

(** The rows of [rs] picked by the indices [js], in the order of [js]. *)
Definition pick {X} (rs : list (list X)) (js : list nat) : list (list X) :=
  map (fun i => nth i rs []) js.

End SplitSpec.

(* ================================================================== *)
(** ** utils.py: the label formats *)

Module Labels.

(** [np.unique]: the distinct values in increasing order. *)
Fixpoint insert_unique (x : Z) (l : list Z) : list Z :=
  match l with
  | [] => [x]
  | y :: l' =>
      if (x <? y)%Z then x :: y :: l'
      else if (x =? y)%Z then y :: l'
      else y :: insert_unique x l'
  end.

Definition np_unique (y : list Z) : list Z := fold_right insert_unique [] y.

(** Position of [x] in [classes] ([np.searchsorted] on a value that is
    there). *)
Fixpoint class_index (classes : list Z) (x : Z) : nat :=
  match classes with
  | [] => 0
  | c :: rest => if (c =? x)%Z then 0 else S (class_index rest x)
  end.

(** [LabelEncoder().fit_transform(y)] on a 1-d or column label array,
    given by its labels in order. *)
Definition label_fit_transform (y : list Z) : list nat :=
  map (class_index (np_unique y)) y.

(** A row with a one in column [j] of [m] and zeros elsewhere. *)
Definition one_hot (m j : nat) : list Z :=
  map (fun c => if c =? j then 1%Z else 0%Z) (seq 0 m).

(** [OneHotEncoder(sparse=False).fit_transform] on a column of integer
    codes: one column per distinct code, in increasing order; an empty
    column is refused. *)
Definition onehot_fit_transform (codes : list nat) : outcome (list (list Z)) :=
  match codes with
  | [] => Raised ValueError
  | _ :: _ =>
      let categories := np_unique (map Z.of_nat codes) in
      Returned (map (fun c => one_hot (List.length categories)
                                      (class_index categories (Z.of_nat c)))
                    codes)
  end.

(** Lines 146-159. *)
Fixpoint rnn_format_y (list_of_y : list (list Z))
  : outcome (list (list (list Z))) :=
  match list_of_y with
  | [] => Returned []
  | y :: rest =>
      let integer_encoded := label_fit_transform y in
      match onehot_fit_transform integer_encoded with
      | Raised e => Raised e
      | Returned onehot =>
          match rnn_format_y rest with
          | Raised e => Raised e
          | Returned y_rnn => Returned (onehot :: y_rnn)
          end
      end
  end.

(** A list in strictly increasing order. *)
Fixpoint increasing (l : list Z) : Prop :=
  match l with
  | [] => True
  | x :: l' => (forall y, In y l' -> (x < y)%Z) /\ increasing l'
  end.

End Labels.

(* ------------------------------------------------------------------ *)
(** ** utils.py: class activation maps, batch by batch *)

Module Cam.
Section Cam.

(** One sample of [X], one sample of [sw], and one map of the result. *)
Variable sample : Type.
Variable weight : Type.
Variable cmap : Type.

(** Lines 68-69 and 74-75: what the network's last convolution gives on
    a batch, weighted, summed and resized to [cbs] maps. *)
Variable resized_cam : list sample -> list weight -> Z -> list cmap.

(** What [np.empty] leaves in row [j]. *)
Variable junk : nat -> cmap.

Variable py : Supermag.python.

(** [d[a:b]] along the first axis. *)
Definition slice {X} (d : list X) (a b : Z) : list X :=
  let lo := slice_bound (List.length d) a in
  let hi := slice_bound (List.length d) b in
  firstn (hi - lo) (skipn lo d).

(** [cams[a:b] = v] along the first axis: [v] has as many rows as the
    slice, or one row that is broadcast. *)
Definition set_slice (a b : Z) (v : list cmap) : M (list cmap) unit :=
  fun cams =>
    let lo := slice_bound (List.length cams) a in
    let hi := slice_bound (List.length cams) b in
    if List.length v =? hi - lo
    then (Returned tt, firstn lo cams ++ v ++ skipn (Nat.max lo hi) cams)
    else
      match v with
      | [r] => (Returned tt,
                firstn lo cams ++ repeat r (hi - lo) ++ skipn (Nat.max lo hi) cams)
      | _ => (Raised ValueError, cams)
      end.

(** [int(np.ceil(n / batch_size))] on integers: the true quotient in
    Python 3 (the float quotient has the same ceiling for sizes below
    2^53), the floor quotient in Python 2. *)
Definition n_batches (n batch_size : Z) : outcome Z :=
  if (batch_size =? 0)%Z then Raised ZeroDivisionError
  else Returned match py with
                | Supermag.Python3 => (- ((- n) / batch_size))%Z
                | Supermag.Python2 => (n / batch_size)%Z
                end.

(** Lines 66-76, for [data = (X, sw)]. *)
Definition batch_cam (X : list sample) (sw : list weight) (batch_size : Z)
  : outcome (list cmap) :=
  let n := Z.of_nat (List.length X) in
  let cams := map junk (seq 0 (List.length X)) in
  match n_batches n batch_size with
  | Raised e => Raised e
  | Returned k =>
      match for_each (fun i : nat =>
              let i := Z.of_nat i in
              let cbs := Z.min batch_size (n - i * batch_size) in
              let x := slice X (i * batch_size) (i * batch_size + cbs) in
              let s := slice sw (i * batch_size) (i * batch_size + cbs) in
              set_slice (i * batch_size) (i * batch_size + cbs)
                        (resized_cam x s cbs))
             (Supermag.range k) cams with
      | (Returned _, cams') => Returned cams'
      | (Raised e, _) => Raised e
      end
  end.

(** The samples of batch [q] in an array [d] of [n] samples cut into
    batches of [b]. *)
Definition batch_of {X} (n b q : nat) (d : list X) : list X :=
  firstn (Nat.min b (n - q * b)) (skipn (q * b) d).

End Cam.
End Cam.

(* ------------------------------------------------------------------ *)
(** ** data/supermag_download.py: the years *)

Module Years.

Definition START_YEAR : Z := 2015.
Definition END_YEAR : Z := 2019.
Definition DOWNLOAD_DIR : string := "data".

(** [range(a, b)] *)
Definition range2 (a b : Z) : list Z :=
  map (fun k => (a + Z.of_nat k)%Z) (seq 0 (Z.to_nat (b - a))).

(** The days before January 1st of [year] (the standard library's
    [_days_before_year]). *)
Definition days_before_year (year : Z) : Z :=
  let y := (year - 1)%Z in
  (y * 365 + y / 4 - y / 100 + y / 400)%Z.

(** [datetime(yr, 1, 1, 0, 0, 0)], for a year from 1 to 9999. *)
Definition new_year (yr : Z) : outcome Supermag.datetime :=
  if (1 <=? yr)%Z && (yr <=? 9999)%Z
  then Returned ((days_before_year yr + 1) * 86400000000)%Z
  else Raised ValueError.

(** ["mag_data_{}".format(yr)] *)
Definition fn_of_year (yr : Z) : string :=
  "mag_data_" ++ NilZero.string_of_int (Z.to_int yr).

Section Years.

Variable frame : Type.
Variable read_frame : string -> outcome frame.
Variable parse_stations : string -> option Supermag.pyvalue.
Variable xr_merge : Supermag.Dataset frame -> Supermag.Dataset frame
                    -> Supermag.Dataset frame.
Variable net : nat -> Supermag.endpoint -> Supermag.params -> Supermag.reply.
Variable py : Supermag.python.

(** What [os.chdir] does in the environment of the call. *)
Variable chdir : string -> outcome unit.

(** Lines 144-150. *)
Definition downloadData : M (Supermag.world frame) unit :=
  (fun w => (chdir DOWNLOAD_DIR, w)) ;;;
  for_fold (fun yr (_ : unit) =>
    match new_year yr, new_year (yr + 1) with
    | Returned start_date, Returned end_date =>
        let fn := fn_of_year yr in
        Supermag.downloadDataToFile read_frame parse_stations xr_merge net py
                                    fn start_date end_date Supermag.N_INTERVALS
    | Raised e, _ => raise e
    | _, Raised e => raise e
    end) (range2 START_YEAR END_YEAR) tt.

End Years.
End Years.

(* ================================================================== *)
(** * Properties *)

Unset Implicit Arguments.

(* ------------------------------------------------------------------ *)
(** ** date_range *)

Module DateRangeFacts.
Import Supermag.
Local Open Scope Z_scope.


Lemma range_length n : List.length (range n) = Z.to_nat n.
Proof. unfold range. apply length_seq. Qed.


Lemma in_datetime_valid t : in_datetime t = true <-> valid_datetime t.
Proof.
  unfold in_datetime, valid_datetime.
  rewrite andb_true_iff, !Z.leb_le. reflexivity.
Qed.


(** One turn of the loop: the product never leaves the range of
    [timedelta] unless the sum leaves that of [datetime]. *)
Lemma stamp_checked start d i :
  valid_datetime start ->
  match timedelta_mul d i with
  | Returned step => datetime_add start step
  | Raised e => Raised e
  end
  = if in_datetime (start + d * i) then Returned (start + d * i)
    else Raised OverflowError.
Proof.
  intros Hs. unfold timedelta_mul, datetime_add.
  destruct (in_timedelta (d * i)) eqn:E; [reflexivity|].
  destruct (in_datetime (start + d * i)) eqn:F; [|reflexivity].
  exfalso. apply in_datetime_valid in F.
  unfold in_timedelta in E. apply andb_false_iff in E.
  unfold valid_datetime, datetime_min, datetime_max,
    timedelta_min, timedelta_max in *.
  rewrite !Z.leb_gt in E. lia.
Qed.



Lemma collect_inv {X Y} (f : X -> outcome Y) (g : X -> Y) (l : list X) ys :
  (forall x y, In x l -> f x = Returned y -> y = g x) ->
  collect f l = Returned ys -> ys = map g l.
Proof.
  revert ys. induction l as [|x l IH]; intros ys H.
  - cbn [collect]. intros [= <-]. reflexivity.
  - cbn [collect]. destruct (f x) as [y|e] eqn:E; [|discriminate].
    destruct (collect f l) as [ys'|e]; [|discriminate].
    intros [= <-]. cbn [map]. f_equal.
    + apply H; [left; reflexivity | exact E].
    + apply IH; [|reflexivity]. intros z y' Hz. apply H. right. exact Hz.
Qed.

Lemma in_range i n : In i (range n) <-> (i < Z.to_nat n)%nat.
Proof. unfold range. rewrite in_seq. lia. Qed.



(** What the list is whenever there is one. *)
Lemma date_range_inv py start end_ intv dates :
  valid_datetime start ->
  date_range py start end_ intv = Returned dates ->
  dates = map (fun i => start + timedelta_div py (end_ - start) intv * Z.of_nat i)
              (range intv) ++ [end_].
Proof.
  intros Hs. unfold date_range.
  destruct (intv =? 0); [discriminate|]. cbv zeta.
  destruct (collect _ (range intv)) as [stamps|e] eqn:E; [|discriminate].
  intros [= <-]. f_equal.
  apply (collect_inv _
           (fun i => start + timedelta_div py (end_ - start) intv * Z.of_nat i))
    in E; [exact E|].
  intros i y _. rewrite stamp_checked by exact Hs.
  destruct (in_datetime _); [|discriminate]. intros [= <-]. reflexivity.
Qed.

Lemma date_range_length py start end_ intv dates :
  date_range py start end_ intv = Returned dates ->
  List.length dates = (Z.to_nat intv + 1)%nat.
Proof.
  unfold date_range.
  destruct (intv =? 0); [discriminate|]. cbv zeta.
  destruct (collect _ (range intv)) as [stamps|e] eqn:E; [|discriminate].
  intros [= <-]. rewrite length_app. cbn [List.length]. f_equal.
  rewrite <- (range_length intv).
  revert stamps E. induction (range intv) as [|x l IH]; intros stamps.
  - cbn [collect]. intros [= <-]. reflexivity.
  - cbn [collect].
    destruct (match timedelta_mul _ _ with Returned _ => _ | Raised _ => _ end);
      [|discriminate].
    destruct (collect _ l) as [ys|e]; [|discriminate].
    intros [= <-]. cbn [List.length]. f_equal. apply IH. reflexivity.
Qed.

(** Without iterations nothing is checked. *)
Lemma date_range_negative py start end_ intv :
  intv < 0 -> date_range py start end_ intv = Returned [end_].
Proof.
  intros H. unfold date_range.
  destruct (intv =? 0) eqn:E; [apply Z.eqb_eq in E; lia|]. cbv zeta.
  unfold range. replace (Z.to_nat intv) with 0%nat by lia. reflexivity.
Qed.



End DateRangeFacts.




(* ------------------------------------------------------------------ *)
(** ** confusion_mtx *)

Module MetricsFacts.
Import Metrics.
Local Open Scope Z_scope.

Lemma count_in_cons tp pairs t p :
  count_in (tp :: pairs) t p =
  (if (fst tp =? t) && (snd tp =? p) then 1 else 0) + count_in pairs t p.
Proof.
  unfold count_in. cbn [filter].
  destruct ((fst tp =? t) && (snd tp =? p)); cbn [List.length]; lia.
Qed.



Lemma matrix_ext (a b c d a' b' c' d' : Z) :
  a = a' -> b = b' -> c = c' -> d = d' ->
  [[a; b]; [c; d]] = [[a'; b']; [c'; d']].
Proof. intros; subst; reflexivity. Qed.

(** The accumulation over the samples, cell by cell. *)
Lemma fold_count_sample pairs : forall a b c d,
  fold_left (count_sample [1; 0]) pairs [[a; b]; [c; d]] =
  [[a + count_in pairs 1 1; b + count_in pairs 1 0];
   [c + count_in pairs 0 1; d + count_in pairs 0 0]].
Proof.
  induction pairs as [|[t p] pairs IH]; intros a b c d.
  - cbn [fold_left]. apply matrix_ext; unfold count_in; cbn; lia.
  - cbn [fold_left]. rewrite !count_in_cons. cbn [fst snd].
    unfold count_sample. cbn [fst snd label_to_ind].
    rewrite (Z.eqb_sym 1 t), (Z.eqb_sym 0 t), (Z.eqb_sym 1 p), (Z.eqb_sym 0 p).
    destruct (Z.eqb_spec t 1), (Z.eqb_spec t 0), (Z.eqb_spec p 1),
      (Z.eqb_spec p 0); try lia; cbn [bump_at andb];
      rewrite IH; apply matrix_ext; lia.
Qed.

Lemma existsb_In l (y : list Z) : existsb (Z.eqb l) y = true <-> In l y.
Proof.
  rewrite existsb_exists. split.
  - intros (x & Hx & E). apply Z.eqb_eq in E. subst. exact Hx.
  - intros H. exists l. split; [exact H | apply Z.eqb_refl].
Qed.

(** [confusion_mtx] in closed form. *)
Lemma confusion_mtx_eq y_true y_pred :
  confusion_mtx y_true y_pred =
  let yt := np_ravel y_true in
  let yp := np_ravel y_pred in
  if negb (List.length yt =? List.length yp)%nat then Raised ValueError
  else if negb (existsb (Z.eqb 1) yt) && negb (existsb (Z.eqb 0) yt)
  then Raised ValueError
  else Returned (normalized_spec yt yp).
Proof.
  unfold confusion_mtx, confusion_matrix. cbv zeta.
  destruct (negb (List.length (np_ravel y_true) =? List.length (np_ravel y_pred))%nat);
    [reflexivity|].
  cbn [forallb]. rewrite andb_true_r.
  destruct (negb (existsb (Z.eqb 1) (np_ravel y_true)) &&
            negb (existsb (Z.eqb 0) (np_ravel y_true))); [reflexivity|].
  change (zeros (List.length [1; 0])) with [[0; 0]; [0; 0]].
  rewrite fold_count_sample. unfold normalized_spec, count_pairs.
  cbn [map zsum fold_right]. rewrite !Z.add_0_l, !Z.add_0_r. reflexivity.
Qed.






End MetricsFacts.

(** C7: [confusion_mtx] returns the 2x2 matrix of the counts over the
    flattened labels in the label order [1, 0], each row divided by its
    sum; on y_true=[1,1,0,0], y_pred=[1,0,0,1] both rows sum to 1. *)
Theorem confusion_mtx_row_normalized (y_true y_pred : Metrics.array_like)
  (Hlen : List.length (Metrics.np_ravel y_true)
          = List.length (Metrics.np_ravel y_pred))
  (Hlab : In 1%Z (Metrics.np_ravel y_true) \/ In 0%Z (Metrics.np_ravel y_true)) :
  Metrics.confusion_mtx y_true y_pred
  = Returned (Metrics.normalized_spec (Metrics.np_ravel y_true)
                                      (Metrics.np_ravel y_pred)) /\
  exists m,
    Metrics.confusion_mtx
      (Metrics.Seq (map Metrics.Scalar [1; 1; 0; 0]%Z))
      (Metrics.Seq (map Metrics.Scalar [1; 0; 0; 1]%Z)) = Returned m /\
    List.length m = 2 /\
    Forall (fun row => List.length row = 2 /\
                       Metrics.feq (Metrics.row_sum row) (Metrics.Finite 1)) m.
Proof.
  split.
  - rewrite MetricsFacts.confusion_mtx_eq. cbv zeta.
    rewrite Hlen, Nat.eqb_refl. cbn [negb].
    destruct Hlab as [H|H]; apply MetricsFacts.existsb_In in H; rewrite H;
      cbn [negb andb]; rewrite ?andb_false_r; reflexivity.
  - eexists. split; [vm_compute; reflexivity|]. split; [reflexivity|].
    repeat constructor.
Qed.

Lemma confusion_mtx_row_normalized_witness :
  Metrics.confusion_mtx
    (Metrics.Seq [Metrics.Scalar 1; Metrics.Scalar 0; Metrics.Scalar 1])
    (Metrics.Seq [Metrics.Scalar 1; Metrics.Scalar 1; Metrics.Scalar 0])
  = Returned [[Metrics.Finite (1 # 2); Metrics.Finite (1 # 2)];
              [Metrics.Finite 1; Metrics.Finite 0]].
Proof.
  destruct (@confusion_mtx_row_normalized
              (Metrics.Seq [Metrics.Scalar 1; Metrics.Scalar 0; Metrics.Scalar 1])
              (Metrics.Seq [Metrics.Scalar 1; Metrics.Scalar 1; Metrics.Scalar 0])
              eq_refl (or_introl (or_introl eq_refl))) as [H _].
  rewrite H. vm_compute. reflexivity.
Defined.

(** C10, as stated, fails: a y_true holding a 1 and a 0 does not keep the
    denominators from zero.  The only sample with true label 0 is
    predicted 2, which is outside the labels [1, 0] and is not counted,
    so the second row is 0/0. *)
Lemma confusion_mtx_nan_with_both_labels :
  let y_true := Metrics.Seq [Metrics.Scalar 1; Metrics.Scalar 0] in
  let y_pred := Metrics.Seq [Metrics.Scalar 1; Metrics.Scalar 2] in
  In 1%Z (Metrics.np_ravel y_true) /\ In 0%Z (Metrics.np_ravel y_true) /\
  Metrics.confusion_mtx y_true y_pred
  = Returned [[Metrics.Finite 1; Metrics.Finite 0];
              [Metrics.NaN; Metrics.NaN]] /\
  (forall m, Metrics.confusion_mtx y_true y_pred = Returned m ->
             Metrics.all_finite m = false).
Proof.
  intros y_true y_pred.
  split; [left; reflexivity|]. split; [right; left; reflexivity|].
  split; [vm_compute; reflexivity|].
  intros m Hm. vm_compute in Hm. injection Hm as <-. reflexivity.
Qed.



(* ------------------------------------------------------------------ *)
(** ** The retry loop and the fetchers *)

Module LoopFacts.
Import Supermag.

Section Loop.

Variable frame : Type.
Variable read_frame : string -> outcome frame.
Variable parse_stations : string -> option pyvalue.
Variable net : nat -> endpoint -> params -> reply.

Implicit Type w : world frame.

Lemma loop_exit url p tries w :
  ~ tries < MAX_TRIES -> request_loop net url p tries w = ((tries, None), w).
Proof.
  intros H. rewrite request_loop_equation_1.
  destruct (lt_dec tries MAX_TRIES); [contradiction | reflexivity].
Qed.

Lemma loop_reply url p tries w text :
  tries < MAX_TRIES -> net (calls w) url p = Replies text ->
  request_loop net url p tries w = ((tries, Some text), called w).
Proof.
  intros H E. rewrite request_loop_equation_1.
  destruct (lt_dec tries MAX_TRIES); [|contradiction].
  cbn. rewrite E. reflexivity.
Qed.

Lemma loop_fails url p tries w :
  tries < MAX_TRIES -> net (calls w) url p = Fails ->
  request_loop net url p tries w =
  request_loop net url p (S tries) (sleep SLEEP_TIME (called w)).
Proof.
  intros H E. rewrite request_loop_equation_1.
  destruct (lt_dec tries MAX_TRIES); [|contradiction].
  cbn. rewrite E. reflexivity.
Qed.

Lemma after_failures_0 w : after_failures 0 w = w.
Proof.
  destruct w. unfold after_failures. cbn [calls slept stdout files].
  f_equal; unfold SLEEP_TIME; lia.
Qed.

Lemma after_failures_S k w :
  after_failures (S k) w = after_failures k (sleep SLEEP_TIME (called w)).
Proof.
  unfold after_failures, sleep, called. cbn [calls slept stdout files].
  f_equal; unfold SLEEP_TIME; lia.
Qed.

(** [k] failures in a row move the loop [k] iterations on. *)
Lemma loop_failures url p : forall k tries w,
  tries + k <= MAX_TRIES ->
  (forall i, i < k -> net (calls w + i) url p = Fails) ->
  request_loop net url p tries w =
  request_loop net url p (tries + k) (after_failures k w).
Proof.
  induction k as [|k IH]; intros tries w Hle Hf.
  - rewrite Nat.add_0_r, after_failures_0. reflexivity.
  - rewrite loop_fails.
    + rewrite after_failures_S, <- Nat.add_succ_comm. apply IH; [lia|].
      intros i Hi. cbn [calls sleep called].
      replace (S (calls w) + i) with (calls w + S i) by lia.
      apply Hf. lia.
    + lia.
    + rewrite <- (Nat.add_0_r (calls w)). apply Hf. lia.
Qed.

(** The loop always ends, with a response and fewer than [MAX_TRIES]
    failures or with none and exactly [MAX_TRIES]; it prints nothing,
    writes no file and issues at most [MAX_TRIES - tries] requests. *)
Lemma loop_total url p : forall n tries w,
  n = MAX_TRIES - tries -> tries <= MAX_TRIES ->
  exists tries' rq w',
    request_loop net url p tries w = ((tries', rq), w') /\
    stdout w' = stdout w /\ files w' = files w /\
    calls w' <= calls w + n /\
    ((tries' = MAX_TRIES /\ rq = None) \/
     (tries' < MAX_TRIES /\ exists k text,
         rq = Some text /\ net k url p = Replies text)).
Proof.
  induction n as [|n IH]; intros tries w Hn Hle.
  - exists tries, None, w. rewrite loop_exit by lia.
    repeat split; try lia. left. split; [lia | reflexivity].
  - destruct (net (calls w) url p) as [|text] eqn:E.
    + rewrite loop_fails by (assumption || lia).
      destruct (IH (S tries) (sleep SLEEP_TIME (called w)))
        as (t' & rq & w' & H & Ho & Hf & Hc & Hr); try lia.
      exists t', rq, w'. cbn [calls stdout files sleep called] in *.
      repeat split; try assumption; lia.
    + exists tries, (Some text), (called w). rewrite loop_reply with (text := text) by (assumption || lia).
      cbn [calls stdout files called]. repeat split; try lia.
      right. split; [lia|]. exists (calls w), text. split; [reflexivity | exact E].
Qed.

(** Four failures, then a response: the parsed table, nothing printed. *)
Lemma getDataForStation_fifth_attempt p w text df :
  (forall i, i < 4 -> net (calls w + i) GET_DATA p = Fails) ->
  net (calls w + 4) GET_DATA p = Replies text ->
  read_frame text = Returned df ->
  getDataForStation read_frame net p w =
  (Returned (Some df),
   mk_world (calls w + 5) (slept w + 20) (stdout w) (files w)).
Proof.
  intros Hf Hr Hp. unfold getDataForStation.
  rewrite (@loop_failures GET_DATA p 4 0 w) by (unfold MAX_TRIES; lia || assumption).
  rewrite loop_reply with (text := text) by (unfold MAX_TRIES; cbn; lia || assumption).
  cbn. rewrite Hp. unfold called, after_failures. cbn.
  repeat f_equal; lia.
Qed.

(** Five failures: a line is printed and [None] returned. *)
Lemma getDataForStation_exhausted p w :
  (forall i, i < 5 -> net (calls w + i) GET_DATA p = Fails) ->
  getDataForStation read_frame net p w =
  (Returned None,
   mk_world (calls w + 5) (slept w + 25)
            (stdout w ++ [CouldntGetData (stations p) (start p)]) (files w)).
Proof.
  intros Hf. unfold getDataForStation.
  rewrite (@loop_failures GET_DATA p 5 0 w) by (unfold MAX_TRIES; lia || assumption).
  rewrite loop_exit by (unfold MAX_TRIES; cbn; lia).
  reflexivity.
Qed.

Lemma getDataForStation_calls p w :
  calls (snd (getDataForStation read_frame net p w)) <= calls w + MAX_TRIES.
Proof.
  unfold getDataForStation.
  destruct (@loop_total GET_DATA p MAX_TRIES 0 w eq_refl)
    as (t' & rq & w' & H & _ & _ & Hc & Hr); [unfold MAX_TRIES; lia|].
  rewrite H. destruct Hr as [[-> ->]|[Hlt (k & text & -> & _)]].
  - cbn. exact Hc.
  - destruct (Nat.eqb_spec t' MAX_TRIES); [lia|].
    destruct (read_frame text); cbn; exact Hc.
Qed.

(** Five failed inventory requests: the missing-stations line is
    printed; then Python 2 prints the exception and returns [None],
    Python 3 finds [e] unbound. *)
Lemma getAvailableStations_exhausted py p w :
  (forall i, i < 5 -> net (calls w + i) GET_STATION_LIST p = Fails) ->
  getAvailableStations parse_stations net py p w =
  match py with
  | Python2 =>
      (Returned PyNone,
       mk_world (calls w + 5) (slept w + 25)
                (stdout w ++ [CouldntGetStations (start p)] ++ [TheException])
                (files w))
  | Python3 =>
      (Raised UnboundLocalError,
       mk_world (calls w + 5) (slept w + 25)
                (stdout w ++ [CouldntGetStations (start p)]) (files w))
  end.
Proof.
  intros Hf. unfold getAvailableStations.
  rewrite (@loop_failures GET_STATION_LIST p 5 0 w)
    by (unfold MAX_TRIES; lia || assumption).
  rewrite loop_exit by (unfold MAX_TRIES; cbn; lia).
  destruct py; cbn; rewrite <- ?app_assoc; reflexivity.
Qed.

(** Hence the interval assembly raises. *)
Lemma getDataForInterval_inventory_exhausted py start_date hours minutes w :
  (forall i, i < 5 ->
     net (calls w + i) GET_STATION_LIST
         (mk_params start_date (hours, minutes) None) = Fails) ->
  fst (getDataForInterval read_frame parse_stations net py
                          start_date hours minutes w) =
  Raised (match py with
          | Python2 => TypeError
          | Python3 => UnboundLocalError
          end).
Proof.
  intros Hf. unfold getDataForInterval, bind.
  rewrite getAvailableStations_exhausted by exact Hf.
  destruct py; reflexivity.
Qed.

End Loop.
End LoopFacts.

(** C4, as stated, fails in its last clause: after five failed attempts
    the fetch returns the null value [None]; nothing is raised and the
    result carries no failure type. *)
Lemma fetch_exhausted_returns_untyped_none :
  let r := Supermag.getDataForStation
             (fun text : string => Returned text)
             (fun _ _ _ => Supermag.Fails)
             (Supermag.mk_params 0%Z (36%Z, 30%Z) (Some "ABK"%string))
             (Supermag.mk_world 0 0%Z [] []) in
  fst r = Returned None /\
  (forall e, fst r <> Raised e) /\
  Supermag.stdout (snd r)
  = [Supermag.CouldntGetData (Some "ABK"%string) 0%Z].
Proof.
  vm_compute. repeat split. intros e H. discriminate H.
Qed.

(** C4 (amended): the fetch issues at most 5 requests and sleeps 5
    seconds after each failure; four failures followed by a response
    return the parsed table with nothing printed; five failures print one
    line and return [None], raising nothing. *)
Theorem fetch_retry_policy (frame : Type)
  (read_frame : string -> outcome frame)
  (net : nat -> Supermag.endpoint -> Supermag.params -> Supermag.reply)
  (p : Supermag.params) (w : Supermag.world frame) :
  Supermag.calls (snd (Supermag.getDataForStation read_frame net p w))
    <= Supermag.calls w + 5 /\
  (forall text df,
     (forall i, i < 4 ->
        net (Supermag.calls w + i) Supermag.GET_DATA p = Supermag.Fails) ->
     net (Supermag.calls w + 4) Supermag.GET_DATA p = Supermag.Replies text ->
     read_frame text = Returned df ->
     Supermag.getDataForStation read_frame net p w =
     (Returned (Some df),
      Supermag.mk_world (Supermag.calls w + 5) (Supermag.slept w + 20)
                        (Supermag.stdout w) (Supermag.files w))) /\
  ((forall i, i < 5 ->
      net (Supermag.calls w + i) Supermag.GET_DATA p = Supermag.Fails) ->
   Supermag.getDataForStation read_frame net p w =
   (Returned None,
    Supermag.mk_world (Supermag.calls w + 5) (Supermag.slept w + 25)
      (Supermag.stdout w
       ++ [Supermag.CouldntGetData (Supermag.stations p) (Supermag.start p)])
      (Supermag.files w))).
Proof.
  split; [apply LoopFacts.getDataForStation_calls|]. split.
  - intros text df. apply LoopFacts.getDataForStation_fifth_attempt.
  - apply LoopFacts.getDataForStation_exhausted.
Qed.

Lemma fetch_retry_policy_witness :
  Supermag.getDataForStation
    (fun text : string => Returned (String.length text))
    (fun k _ _ => if k <? 4 then Supermag.Fails else Supermag.Replies "a,b"%string)
    (Supermag.mk_params 0%Z (36%Z, 30%Z) (Some "ABK"%string))
    (Supermag.mk_world 0 0%Z [] [])
  = (Returned (Some 3), Supermag.mk_world 5 20%Z [] []).
Proof.
  refine (proj1 (proj2 (@fetch_retry_policy nat _ _ _ _)) "a,b"%string 3 _ _ _).
  - intros i Hi. cbn [Supermag.calls Nat.add].
    destruct (Nat.ltb_spec i 4); [reflexivity | lia].
  - reflexivity.
  - reflexivity.
Defined.

(** C5 (evaluation at the failing input): when all five inventory
    requests fail, the assembly of the interval raises: [len(None)] under
    Python 2, the unbound [e] under Python 3. *)
Theorem interval_raises_when_inventory_exhausted (py : Supermag.python) :
  fst (Supermag.getDataForInterval
         (fun text : string => Returned text)
         (fun _ => Some (Supermag.PyList ["ABK"%string]))
         (fun _ _ _ => Supermag.Fails) py 0%Z 36%Z 30%Z
         (Supermag.mk_world 0 0%Z [] []))
  = Raised (match py with
            | Supermag.Python2 => TypeError
            | Supermag.Python3 => UnboundLocalError
            end).
Proof. destruct py; vm_compute; reflexivity. Qed.

(* ------------------------------------------------------------------ *)
(** ** Arrays: blocks, views and the store *)

Module ArrayFacts.
Section Facts.

Variable A : Type.
Implicit Type h : heap A.
Implicit Type xs : list (scalar A).

Lemma extends_refl h : extends h h.
Proof. exists []. symmetry. apply app_nil_r. Qed.

Lemma extends_trans h1 h2 h3 : extends h1 h2 -> extends h2 h3 -> extends h1 h3.
Proof.
intros [e1 ->] [e2 ->]. exists (e1 ++ e2). symmetry. apply app_assoc.
Qed.

Lemma ravel_extends h h' a xs :
  extends h h' -> ravel h a = Some xs -> ravel h' a = Some xs.
Proof.
intros [ext ->]. unfold ravel.
destruct (nth_error h (buf a)) as [b|] eqn:E; [|discriminate].
rewrite nth_error_app1 by (apply nth_error_Some; congruence).
rewrite E. trivial.
Qed.

Lemma rows_extends h h' a rs :
  extends h h' -> rows h a = Some rs -> rows h' a = Some rs.
Proof.
intros Hext. unfold rows.
destruct (shape a) as [|n rest]; [discriminate|].
destruct (ravel h a) as [xs|] eqn:E; [|discriminate].
rewrite (ravel_extends h h' a xs Hext E). trivial.
Qed.

Lemma ravel_length h a xs : ravel h a = Some xs -> List.length xs = size a.
Proof.
unfold ravel. destruct (nth_error h (buf a)) as [b|]; [|discriminate].
destruct (Nat.leb_spec (off a + size a) (List.length b)); [|discriminate].
intros [= <-]. rewrite length_firstn, length_skipn. lia.
Qed.

(** Blocks of a concatenation of equally long pieces. *)
Lemma block_concat w : forall (ls : list (list (scalar A))) i,
  Forall (fun l => List.length l = w) ls -> i < List.length ls ->
  block w (concat ls) i = nth i ls [].
Proof.
unfold block. induction ls as [|l ls IH]; intros i Hall Hi; [cbn in Hi; lia|].
inversion Hall as [|? ? Hl Hls]; subst. destruct i as [|i]; cbn [nth concat].
- cbn [Nat.mul skipn]. rewrite firstn_app, Nat.sub_diag, firstn_all.
  cbn [firstn]. apply app_nil_r.
- replace (S i * List.length l) with (i * List.length l + List.length l) by lia.
  rewrite <- skipn_skipn, skipn_app, Nat.sub_diag, skipn_all.
  cbn [skipn app]. apply IH; [assumption | cbn in Hi; lia].
Qed.

Lemma block_length w xs j :
  (j + 1) * w <= List.length xs -> List.length (block w xs j) = w.
Proof.
intros H. unfold block. rewrite length_firstn, length_skipn. nia.
Qed.

Lemma flat_map_blocks_length w xs n (js : list nat) :
  List.length xs = n * w -> Forall (fun j => j < n) js ->
  List.length (flat_map (block w xs) js) = List.length js * w.
Proof.
intros Hlen Hjs. induction Hjs as [|j js Hj _ IH]; [reflexivity|].
cbn [flat_map List.length]. rewrite length_app, IH, block_length by nia. lia.
Qed.

(** The rows of a fresh array built from selected blocks. *)
Lemma rows_of_selection w xs n (js : list nat) :
  List.length xs = n * w -> Forall (fun j => j < n) js ->
  map (block w (flat_map (block w xs) js)) (seq 0 (List.length js)) =
  map (block w xs) js.
Proof.
intros Hlen Hjs. rewrite flat_map_concat_map.
apply nth_ext with (d := []) (d' := []).
- rewrite !length_map, length_seq. reflexivity.
- rewrite length_map, length_seq. intros i Hi.
  rewrite (nth_indep _ [] (block w (concat (map (block w xs) js)) 0))
    by (rewrite length_map, length_seq; exact Hi).
  rewrite map_nth, seq_nth by exact Hi. cbn [Nat.add].
  apply block_concat; [|rewrite length_map; exact Hi].
  apply Forall_map. eapply Forall_impl; [|exact Hjs].
  intros j Hj. cbv beta in Hj. apply block_length. rewrite Hlen.
  apply Nat.mul_le_mono_r. lia.
Qed.

Lemma ravel_fresh h (b : list (scalar A)) (s : list nat) :
  prod_dims s = List.length b ->
  ravel (h ++ [b]) (mk_ndarray (List.length h) 0 s) = Some b.
Proof.
intros Hs. unfold ravel, size. cbn [buf off shape].
rewrite nth_error_app2, Nat.sub_diag by lia. cbn [nth_error].
rewrite Hs, Nat.add_0_l, Nat.leb_refl. cbn [skipn].
rewrite firstn_all. reflexivity.
Qed.

Lemma resolve_indices_ints n (js : list nat) :
  Forall (fun j => j < n) js ->
  resolve_indices n (map (@int_scalar A) js) = Some js.
Proof.
induction 1 as [|j js Hj _ IH]; [reflexivity|].
cbn [map resolve_indices]. rewrite IH. unfold int_scalar at 1, resolve_index.
destruct (Z.leb_spec 0 (Z.of_nat j)); [|lia].
destruct (Z.ltb_spec (Z.of_nat j) (Z.of_nat n)); [|lia].
cbn [andb]. rewrite Nat2Z.id. reflexivity.
Qed.

(** [a[idx]] for in-range indices [js]: a fresh buffer holding the
    selected rows; the store only grows. *)
Lemma np_take_selection h a idx n rest m xs (js : list nat) :
  shape a = n :: rest -> ravel h a = Some xs ->
  shape idx = [m] -> ravel h idx = Some (map (@int_scalar A) js) ->
  Forall (fun j => j < n) js ->
  np_take a idx h =
  (Returned (mk_ndarray (List.length h) 0 (List.length js :: rest)),
   h ++ [flat_map (block (prod_dims rest) xs) js]).
Proof.
intros Ha Hxs Hi Hjs Hin. unfold np_take.
rewrite Ha, Hi, Hxs, Hjs, (resolve_indices_ints n js Hin). reflexivity.
Qed.

Lemma np_take_extends a idx h : extends h (snd (np_take a idx h)).
Proof.
unfold np_take.
destruct (shape a) as [|n rest]; [apply extends_refl|].
destruct (shape idx) as [|m [|? ?]]; try apply extends_refl.
destruct (ravel h a); [|apply extends_refl].
destruct (ravel h idx) as [ss|]; [|apply extends_refl].
destruct (resolve_indices n ss); [|apply extends_refl].
cbn. eexists. reflexivity.
Qed.

Lemma rows_of_taken h h' xs n rest (js : list nat) :
  List.length xs = n * prod_dims rest -> Forall (fun j => j < n) js ->
  extends (h ++ [flat_map (block (prod_dims rest) xs) js]) h' ->
  rows h' (mk_ndarray (List.length h) 0 (List.length js :: rest)) =
  Some (map (block (prod_dims rest) xs) js).
Proof.
intros Hlen Hjs Hext. unfold rows. cbn [shape].
rewrite (ravel_extends _ h' _ _ Hext
           (ravel_fresh h _ (List.length js :: rest)
              (eq_sym (flat_map_blocks_length _ xs n js Hlen Hjs)))).
rewrite (rows_of_selection _ xs n js Hlen Hjs). reflexivity.
Qed.

(** A write at or beyond the end of [h0] leaves [h0] as it is. *)
Lemma write_beyond h0 ext l (b : list (scalar A)) :
  List.length h0 <= l -> extends h0 (snd (write l b (h0 ++ ext))).
Proof.
intros Hl. unfold write. cbn [snd].
rewrite firstn_app, firstn_all2 by lia.
rewrite <- app_assoc. eexists. reflexivity.
Qed.

Lemma np_shuffle_beyond rng h0 ext a :
  List.length h0 <= buf a -> extends h0 (snd (np_shuffle rng a (h0 ++ ext))).
Proof.
intros Hl. unfold np_shuffle.
destruct (shape a); [exists ext; reflexivity|].
destruct (nth_error (h0 ++ ext) (buf a)); [|exists ext; reflexivity].
destruct (ravel (h0 ++ ext) a); [|exists ext; reflexivity].
apply write_beyond. exact Hl.
Qed.

Lemma keeps_ret {X} h0 (x : X) : keeps h0 (ret x).
Proof. intros h H. exact H. Qed.

Lemma keeps_raise {X} h0 e : keeps h0 (@raise (heap A) X e).
Proof. intros h H. exact H. Qed.

Lemma keeps_lift {X} h0 (o : outcome X) : keeps h0 (lift o).
Proof. intros h H. exact H. Qed.

Lemma keeps_bind {X Y} h0 (c : M (heap A) X) (k : X -> M (heap A) Y) :
  keeps h0 c -> (forall x, keeps h0 (k x)) -> keeps h0 (bind c k).
Proof.
intros Hc Hk h H. unfold bind. specialize (Hc h H).
destruct (c h) as [[x|e] h1]; cbn [snd] in *; [|exact Hc].
apply Hk. exact Hc.
Qed.

Lemma keeps_arange {Y} h0 n (k : ndarray -> M (heap A) Y) :
  (forall idx, List.length h0 <= buf idx -> keeps h0 (k idx)) ->
  keeps h0 (bind (np_arange n) k).
Proof.
intros Hk h H. unfold bind at 1, np_arange, bind at 1, alloc, ret.
apply Hk.
- destruct H as [ext ->]. cbn [buf]. rewrite length_app. lia.
- eapply extends_trans; [exact H|]. eexists. reflexivity.
Qed.

Lemma keeps_take h0 a idx : keeps h0 (np_take a idx).
Proof.
intros h H. eapply extends_trans; [exact H | apply np_take_extends].
Qed.

Lemma keeps_shuffle rng h0 a :
  List.length h0 <= buf a -> keeps h0 (np_shuffle rng a).
Proof.
intros Hl h [ext ->]. apply np_shuffle_beyond. exact Hl.
Qed.

Lemma keeps_for_each {X Y} h0 (body : X -> M (heap A) Y) (l : list X) :
  (forall x, keeps h0 (body x)) -> keeps h0 (for_each body l).
Proof.
intros Hbody. induction l as [|x l IH]; [apply keeps_ret|].
cbn [for_each]. apply keeps_bind; [apply Hbody|]. intros y.
apply keeps_bind; [exact IH|]. intros ys. apply keeps_ret.
Qed.

Lemma keeps_split_one h0 idx k d : keeps h0 (Utils.split_one idx k d).
Proof.
unfold Utils.split_one.
apply keeps_bind; [apply keeps_lift|]. intros ia.
apply keeps_bind; [apply keeps_take|]. intros a.
apply keeps_bind; [apply keeps_lift|]. intros ib.
apply keeps_bind; [apply keeps_take|]. intros b. apply keeps_ret.
Qed.

Lemma keeps_trim h0 batch_size split_a split_b :
  keeps h0 (Utils.trim batch_size split_a split_b).
Proof.
unfold Utils.trim. destruct batch_size as [bs|]; [|apply keeps_ret].
destruct (bs =? 0)%Z; [apply keeps_ret|].
destruct split_a as [|a0 sa]; [apply keeps_ret|].
destruct split_b as [|b0 sb]; [apply keeps_ret|].
destruct (shape a0); [apply keeps_raise|].
destruct (shape b0); [apply keeps_raise|].
apply keeps_bind; [apply keeps_for_each; intros; apply keeps_lift|]. intros ra.
apply keeps_bind; [apply keeps_for_each; intros; apply keeps_lift|]. intros rb.
apply keeps_ret.
Qed.

(** [split_data] only adds buffers to the store: the one buffer it
    updates in place is the index array it has just created. *)
Lemma keeps_split_data rng h0 list_of_data split random batch_size :
  keeps h0 (Utils.split_data rng list_of_data split random batch_size).
Proof.
unfold Utils.split_data.
destruct list_of_data as [|d0 ds]; [apply keeps_raise|].
destruct (shape d0) as [|n rest]; [apply keeps_raise|].
apply keeps_arange. intros idx Hidx.
apply keeps_bind.
- destruct random; [apply keeps_shuffle; exact Hidx | apply keeps_ret].
- intros _. apply keeps_bind.
  + apply keeps_for_each. intros d. apply keeps_split_one.
  + intros ab. apply keeps_trim.
Qed.

Lemma for_each_same_heap {X Y} (body : X -> M (heap A) Y) :
  (forall x h, snd (body x h) = h) ->
  forall (l : list X) h, snd (for_each body l h) = h.
Proof.
intros Hbody. induction l as [|x l IH]; intros h; [reflexivity|].
cbn [for_each]. unfold bind. specialize (Hbody x h).
destruct (body x h) as [[y|e] h1]; cbn [snd] in *; [|exact Hbody].
subst h1. specialize (IH h).
destruct (for_each body l h) as [[ys|e] h2]; exact IH.
Qed.

Lemma rnn_format_x_same_heap list_of_x h :
  snd (Utils.rnn_format_x list_of_x h) = h.
Proof.
unfold Utils.rnn_format_x. apply for_each_same_heap. intros x h0.
destruct (shape x) as [|a0 [|a1 [|a2 [|a3 [|? ?]]]]]; reflexivity.
Qed.

Lemma linear_format_x_same_heap list_of_x h :
  snd (Utils.linear_format_x list_of_x h) = h.
Proof.
unfold Utils.linear_format_x. apply for_each_same_heap. intros x h0.
destruct (shape x) as [|a0 [|a1 [|a2 [|a3 [|? ?]]]]]; reflexivity.
Qed.

(** The reshape of [rnn_format_x] and its inverse. *)
Lemma reshape_rnn h x a0 a1 a2 a3 :
  shape x = [a0; a1; a2; a3] ->
  exists y,
    np_reshape x [a0; a2; a1 * a3] = Returned y /\
    shape y = [a0; a2; a1 * a3] /\
    ravel h y = ravel h x /\
    np_reshape y [a0; a1; a2; a3] = Returned x.
Proof.
intros Hs.
assert (Hp : prod_dims [a0; a2; a1 * a3] = prod_dims [a0; a1; a2; a3])
  by (cbn; ring).
exists (mk_ndarray (buf x) (off x) [a0; a2; a1 * a3]).
unfold np_reshape, size. rewrite Hs, Hp, Nat.eqb_refl. cbn [shape buf off].
rewrite Hp, Nat.eqb_refl. repeat split.
- unfold ravel, size. cbn [shape buf off]. rewrite Hs, Hp. reflexivity.
- destruct x as [b o sh]. cbn in Hs. subst sh. reflexivity.
Qed.

End Facts.
End ArrayFacts.

(** C9: [split_data], [rnn_format_x] and [linear_format_x] leave every
    array that exists before the call with the contents it had; for
    [split_data] the store only grows by fresh buffers. *)
Theorem inputs_not_mutated (A : Type) (rng : nat -> list nat) (h : heap A)
  (list_of_data : list ndarray) (split : Q) (random : bool)
  (batch_size : option Z)
  (x : ndarray) (xs : list (scalar A)) (Hx : ravel h x = Some xs) :
  extends h (snd (Utils.split_data rng list_of_data split random batch_size h)) /\
  ravel (snd (Utils.split_data rng list_of_data split random batch_size h)) x
  = Some xs /\
  ravel (snd (Utils.rnn_format_x list_of_data h)) x = Some xs /\
  ravel (snd (Utils.linear_format_x list_of_data h)) x = Some xs.
Proof.
assert (He : extends h (snd (Utils.split_data rng list_of_data split random
                                              batch_size h)))
  by (apply ArrayFacts.keeps_split_data, ArrayFacts.extends_refl).
split; [exact He|]. split; [|split].
- exact (ArrayFacts.ravel_extends A _ _ x xs He Hx).
- rewrite ArrayFacts.rnn_format_x_same_heap. exact Hx.
- rewrite ArrayFacts.linear_format_x_same_heap. exact Hx.
Qed.

Lemma inputs_not_mutated_witness :
  let h : heap Z := [map SVal [10; 11; 12; 13; 14; 15; 16; 17]%Z] in
  let x := mk_ndarray 0 0 [4; 2] in
  ravel (snd (Utils.split_data (fun n => rev (seq 0 n)) [x] (1 # 4) true
                               (Some 2%Z) h)) x
  = Some (map SVal [10; 11; 12; 13; 14; 15; 16; 17]%Z).
Proof.
intros h x.
exact (proj1 (proj2 (inputs_not_mutated Z (fun n => rev (seq 0 n)) h [x]
                       (1 # 4) true (Some 2%Z) x _ eq_refl))).
Defined.

(** The trimming slice of lines 39-40 on a group whose row count is a
    multiple of [batch_size]: [a[:-0]] keeps no row. *)
Lemma trim_slice_exact_multiple (a : ndarray) (n : nat) (rest : list nat)
  (batch_size : Z) :
  shape a = n :: rest -> (Z.of_nat n mod batch_size = 0)%Z ->
  slice_to a (- (Z.of_nat n mod batch_size))
  = Returned (mk_ndarray (buf a) (off a) (0 :: rest)).
Proof.
intros Hs Hm. unfold slice_to. rewrite Hs, Hm. reflexivity.
Qed.

(** C2 (evaluation at the failing input): four samples split in halves
    give two groups of two rows; with batch_size = 2 both remainders are
    zero and the slice [:-0] leaves both groups with no row at all. *)
Theorem split_data_trim_empties_exact_multiple :
  let h : heap Z := [map SVal [10; 11; 12; 13; 14; 15; 16; 17]%Z] in
  let x := mk_ndarray 0 0 [4; 2] in
  (exists a b h',
      Utils.split_data (fun n => seq 0 n) [x] (1 # 2) false None h
      = (Returned ([a], [b]), h') /\
      shape a = [2; 2] /\ shape b = [2; 2]) /\
  (exists a b h',
      Utils.split_data (fun n => seq 0 n) [x] (1 # 2) false (Some 2%Z) h
      = (Returned ([a], [b]), h') /\
      shape a = [0; 2] /\ shape b = [0; 2] /\
      rows h' a = Some [] /\ rows h' b = Some []).
Proof.
intros h x. split.
- do 3 eexists. split; [vm_compute; reflexivity|]. split; reflexivity.
- do 3 eexists. split; [vm_compute; reflexivity|]. repeat split; reflexivity.
Qed.




(* ------------------------------------------------------------------ *)
(** ** split_data: the shared index array and the two groups *)

Module SplitFacts.
Section Split.

Variable A : Type.
Implicit Type h : heap A.

Lemma firstn_1_skipn {X} (d : X) : forall (l : list X) j,
  j < List.length l -> firstn 1 (skipn j l) = [nth j l d].
Proof.
induction l as [|x l IH]; intros j Hj; [cbn in Hj; lia|].
destruct j as [|j]; [reflexivity|]. cbn [skipn nth].
apply IH. cbn in Hj. lia.
Qed.

Lemma block_one_ints n j :
  j < n -> block 1 (map (@int_scalar A) (seq 0 n)) j = [int_scalar j].
Proof.
intros Hj. unfold block. rewrite Nat.mul_1_r.
rewrite (firstn_1_skipn (int_scalar 0)) by (rewrite length_map, length_seq; exact Hj).
rewrite map_nth, seq_nth by exact Hj. reflexivity.
Qed.

Lemma shuffled_ints n (js : list nat) :
  Forall (fun j => j < n) js ->
  flat_map (block 1 (map (@int_scalar A) (seq 0 n))) js = map int_scalar js.
Proof.
induction 1 as [|j js Hj _ IH]; [reflexivity|].
cbn [flat_map map]. rewrite IH, (block_one_ints n j Hj). reflexivity.
Qed.

Lemma perm_in_range n (perm : list nat) :
  Permutation perm (seq 0 n) -> Forall (fun j => j < n) perm.
Proof.
intros Hp. apply Forall_forall. intros j Hj.
apply (Permutation_in _ Hp) in Hj. apply in_seq in Hj. lia.
Qed.

(** Shuffling the index array just created rewrites that buffer only. *)
Lemma shuffle_fresh_arange rng h n :
  Forall (fun j => j < n) (rng n) ->
  np_shuffle rng (mk_ndarray (List.length h) 0 [n])
             (h ++ [map int_scalar (seq 0 n)])
  = (Returned tt, h ++ [map int_scalar (rng n)]).
Proof.
intros Hr. unfold np_shuffle. cbn [shape buf off].
rewrite nth_error_app2, Nat.sub_diag by lia. cbn [nth_error].
rewrite ArrayFacts.ravel_fresh
  by (cbn; rewrite length_map, length_seq; lia).
unfold write, size. cbn [shape prod_dims fold_right firstn app].
rewrite (shuffled_ints n (rng n) Hr).
rewrite skipn_all2 by (rewrite length_map, length_seq; lia).
rewrite app_nil_r, firstn_app, Nat.sub_diag, firstn_all. cbn [firstn].
rewrite skipn_all2 by (rewrite length_app; cbn; lia).
rewrite app_nil_r. reflexivity.
Qed.

End Split.

Section Groups.

Variable A : Type.
Variable h : heap A.
Variable n : nat.
Variable perm : list nat.
Variable k : Z.
Hypothesis Hperm : Forall (fun j => j < n) perm.
Hypothesis Hlen : List.length perm = n.

Let idx : ndarray := mk_ndarray (List.length h) 0 [n].
Let h1 : heap A := h ++ [map int_scalar perm].
Let k' : nat := slice_bound n k.

Lemma slice_bound_le : slice_bound n k <= n.
Proof. unfold slice_bound. destruct (Z.ltb_spec k 0); lia. Qed.

Lemma perm_parts :
  Forall (fun j => j < n) (firstn k' perm) /\
  Forall (fun j => j < n) (skipn k' perm).
Proof.
apply Forall_app. rewrite firstn_skipn. exact Hperm.
Qed.

Lemma ravel_idx_prefix hs :
  extends h1 hs ->
  ravel hs (mk_ndarray (List.length h) 0 [k'])
  = Some (map int_scalar (firstn k' perm)).
Proof.
intros Hext. apply (ArrayFacts.ravel_extends A h1 hs _ _ Hext).
unfold ravel, size, h1. cbn [buf off shape prod_dims fold_right].
rewrite nth_error_app2, Nat.sub_diag by lia. cbn [nth_error].
pose proof slice_bound_le. fold k' in H.
rewrite length_map, Hlen, Nat.add_0_l, Nat.mul_1_r.
destruct (Nat.leb_spec k' n); [|lia].
cbn [skipn]. rewrite firstn_map. reflexivity.
Qed.

Lemma ravel_idx_suffix hs :
  extends h1 hs ->
  ravel hs (mk_ndarray (List.length h) (0 + k' * prod_dims []) [n - k'])
  = Some (map int_scalar (skipn k' perm)).
Proof.
intros Hext. apply (ArrayFacts.ravel_extends A h1 hs _ _ Hext).
unfold ravel, size, h1. cbn [buf off shape prod_dims fold_right].
rewrite nth_error_app2, Nat.sub_diag by lia. cbn [nth_error].
pose proof slice_bound_le. fold k' in H.
rewrite length_map, Hlen, Nat.add_0_l, !Nat.mul_1_r.
destruct (Nat.leb_spec (k' + (n - k')) n); [|lia].
rewrite firstn_all2 by (rewrite length_skipn, length_map; lia).
rewrite skipn_map. reflexivity.
Qed.

(** Lines 27-28 for one array: two fresh arrays holding the rows picked
    by the two parts of the index array. *)
Lemma split_one_groups hs d rest xs :
  extends h1 hs -> shape d = n :: rest -> ravel h d = Some xs ->
  exists a b hs',
    Utils.split_one idx k d hs = (Returned (a, b), hs') /\
    extends hs hs' /\
    forall hf, extends hs' hf ->
      rows hf a = Some (map (block (prod_dims rest) xs) (firstn k' perm)) /\
      rows hf b = Some (map (block (prod_dims rest) xs) (skipn k' perm)).
Proof.
intros Hext Hs Hxs. destruct perm_parts as [Hpa Hpb].
assert (Hh : extends h hs).
{ eapply ArrayFacts.extends_trans; [|exact Hext]. eexists. reflexivity. }
assert (Hsz : List.length xs = n * prod_dims rest).
{ rewrite (ArrayFacts.ravel_length A h d xs Hxs). unfold size. rewrite Hs.
  reflexivity. }
set (ba := flat_map (block (prod_dims rest) xs) (firstn k' perm)).
set (bb := flat_map (block (prod_dims rest) xs) (skipn k' perm)).
assert (Hext2 : extends h1 (hs ++ [ba])).
{ eapply ArrayFacts.extends_trans; [exact Hext|]. eexists. reflexivity. }
assert (Hh2 : extends h (hs ++ [ba])).
{ eapply ArrayFacts.extends_trans; [exact Hh|]. eexists. reflexivity. }
exists (mk_ndarray (List.length hs) 0 (List.length (firstn k' perm) :: rest)),
       (mk_ndarray (List.length (hs ++ [ba])) 0
                   (List.length (skipn k' perm) :: rest)),
       ((hs ++ [ba]) ++ [bb]).
split; [|split].
- unfold Utils.split_one, bind, lift, slice_to, slice_from, idx.
  cbn [shape buf off]. fold k'.
  rewrite (ArrayFacts.np_take_selection A hs d
             (mk_ndarray (List.length h) 0 [k']) n rest k' xs (firstn k' perm)
             Hs (ArrayFacts.ravel_extends A h hs d xs Hh Hxs) eq_refl
             (ravel_idx_prefix hs Hext) Hpa).
  cbv beta iota. fold ba.
  rewrite (ArrayFacts.np_take_selection A (hs ++ [ba]) d
             (mk_ndarray (List.length h) (0 + k' * prod_dims []) [n - k'])
             n rest (n - k') xs
             (skipn k' perm)
             Hs (ArrayFacts.ravel_extends A h _ d xs Hh2 Hxs) eq_refl
             (ravel_idx_suffix (hs ++ [ba]) Hext2) Hpb).
  cbv beta iota. reflexivity.
- rewrite <- app_assoc. eexists. reflexivity.
- intros hf Hf. split.
  + apply (ArrayFacts.rows_of_taken A hs hf xs n rest _ Hsz Hpa).
    eapply ArrayFacts.extends_trans; [|exact Hf]. eexists. reflexivity.
  + apply (ArrayFacts.rows_of_taken A (hs ++ [ba]) hf xs n rest _ Hsz Hpb).
    exact Hf.
Qed.

Lemma rows_inv (g : heap A) d rs :
  rows g d = Some rs ->
  exists m rest xs,
    shape d = m :: rest /\ ravel g d = Some xs /\
    rs = map (block (prod_dims rest) xs) (seq 0 m).
Proof.
unfold rows. destruct (shape d) as [|m rest]; [discriminate|].
destruct (ravel g d) as [xs|]; [|discriminate].
intros [= <-]. exists m, rest, xs. repeat split.
Qed.

Lemma select_rows w (xs : list (scalar A)) (js : list nat) :
  Forall (fun j => j < n) js ->
  map (block w xs) js
  = map (fun i => nth i (map (block w xs) (seq 0 n)) []) js.
Proof.
intros Hjs. apply map_ext_in. intros j Hj.
rewrite Forall_forall in Hjs. specialize (Hjs j Hj).
rewrite (nth_indep _ [] (block w xs 0)) by (rewrite length_map, length_seq; exact Hjs).
rewrite map_nth, seq_nth by exact Hjs. reflexivity.
Qed.

(** Lines 26-28: every array of the list is split by the same index
    array. *)
Lemma split_loop : forall ds hs,
  extends h1 hs ->
  Forall (fun d => exists rs, rows h d = Some rs /\ List.length rs = n) ds ->
  exists ab hs',
    for_each (Utils.split_one idx k) ds hs = (Returned ab, hs') /\
    extends hs hs' /\
    forall hf, extends hs' hf ->
      Forall2 (Utils.grouped h hf (firstn k' perm) (skipn k' perm)) ds ab.
Proof.
induction ds as [|d ds IH]; intros hs Hext Hall.
- exists [], hs. split; [reflexivity|]. split; [apply ArrayFacts.extends_refl|].
  intros hf _. constructor.
- destruct (Forall_inv Hall) as (rs & Hrs & Hn).
  pose proof (Forall_inv_tail Hall) as Hall'.
  destruct (rows_inv h d rs Hrs) as (m & rest & xs & Hs & Hxs & Hrs').
  assert (Hm : m = n)
    by (rewrite Hrs', length_map, length_seq in Hn; exact Hn).
  rewrite Hm in Hs, Hrs'. clear Hm.
  destruct (split_one_groups hs d rest xs Hext Hs Hxs)
    as (a & b & hs1 & Hone & Hext1 & Hrows).
  destruct (IH hs1 (ArrayFacts.extends_trans A _ _ _ Hext Hext1) Hall')
    as (ab & hs2 & Hloop & Hext2 & Hrest).
  exists ((a, b) :: ab), hs2. split; [|split].
  + cbn [for_each]. unfold bind. rewrite Hone, Hloop. reflexivity.
  + eapply ArrayFacts.extends_trans; eassumption.
  + intros hf Hf. constructor; [|apply Hrest; exact Hf].
    destruct (Hrows hf (ArrayFacts.extends_trans A _ _ _ Hext2 Hf)) as [Ha Hb].
    destruct perm_parts as [Hpa Hpb].
    exists rs. cbn [fst snd]. split; [exact Hrs|].
    rewrite Hrs', <- !select_rows by assumption.
    split; assumption.
Qed.

End Groups.

Lemma NoDup_app_disjoint {X} (l l' : list X) (x : X) :
  NoDup (l ++ l') -> In x l -> ~ In x l'.
Proof.
induction l as [|y l IH]; intros Hnd Hin; [destruct Hin|].
cbn in Hnd. inversion Hnd as [|? ? Hy Hnd']; subst.
destruct Hin as [->|Hin]; [|apply IH; assumption].
intros Hx. apply Hy. apply in_or_app. right. exact Hx.
Qed.

Lemma Forall2_fst {X Y Z} (P : X -> Y -> Prop) (l : list X) (ab : list (Y * Z)) :
  Forall2 (fun x p => P x (fst p)) l ab -> Forall2 P l (map fst ab).
Proof. induction 1; constructor; assumption. Qed.

Lemma Forall2_snd {X Y Z} (P : X -> Z -> Prop) (l : list X) (ab : list (Y * Z)) :
  Forall2 (fun x p => P x (snd p)) l ab -> Forall2 P l (map snd ab).
Proof. induction 1; constructor; assumption. Qed.

End SplitFacts.

(** C3: before any trimming, [split_data] draws one index order [perm]
    (the identity, or the generator's permutation when [random] is set),
    cuts it once into [ga ++ gb], and gives every array of the list the
    rows picked by [ga] in the first output and those picked by [gb] in
    the second: the group sizes sum to n and every row index is in exactly
    one group, the same for all arrays. *)
Theorem split_data_partition (A : Type) (rng : nat -> list nat) (h : heap A)
  (list_of_data : list ndarray) (split : Q) (random : bool) (n : nat)
  (Hrng : Permutation (rng n) (seq 0 n))
  (Hne : list_of_data <> [])
  (Hrows : Forall (fun d => exists rs, rows h d = Some rs /\ List.length rs = n)
                  list_of_data) :
  exists perm ga gb split_a split_b h',
    Utils.split_data rng list_of_data split random None h
    = (Returned (split_a, split_b), h') /\
    perm = (if random then rng n else seq 0 n) /\
    perm = ga ++ gb /\
    Permutation perm (seq 0 n) /\
    List.length ga + List.length gb = n /\
    (forall i, i < n -> (In i ga /\ ~ In i gb) \/ (In i gb /\ ~ In i ga)) /\
    Forall2 (fun d a => exists rs, rows h d = Some rs /\
                          rows h' a = Some (map (fun i => nth i rs []) ga))
            list_of_data split_a /\
    Forall2 (fun d b => exists rs, rows h d = Some rs /\
                          rows h' b = Some (map (fun i => nth i rs []) gb))
            list_of_data split_b.
Proof.
destruct list_of_data as [|d0 ds]; [congruence|].
destruct (Forall_inv Hrows) as (rs0 & Hrs0 & Hn0).
destruct (SplitFacts.rows_inv A h d0 rs0 Hrs0) as (m & rest & xs & Hs & _ & Hrs0').
assert (Hm : m = n) by (rewrite Hrs0', length_map, length_seq in Hn0; exact Hn0).
rewrite Hm in Hs. clear Hm Hrs0' Hn0 Hrs0 rs0 xs m.
set (perm := if random then rng n else seq 0 n).
assert (Hp : Permutation perm (seq 0 n))
  by (unfold perm; destruct random; [exact Hrng | reflexivity]).
pose proof (SplitFacts.perm_in_range n perm Hp) as Hr.
assert (Hl : List.length perm = n)
  by (rewrite (Permutation_length Hp); apply length_seq).
set (k := int_of ((1 - split) * inject_Z (Z.of_nat n))).
destruct (SplitFacts.split_loop A h n perm k Hr Hl (d0 :: ds)
            (h ++ [map int_scalar perm])
            (ArrayFacts.extends_refl A _) Hrows)
  as (ab & h' & Hloop & Hext & Hg).
specialize (Hg h' (ArrayFacts.extends_refl A _)).
set (k' := slice_bound n k) in *.
exists perm, (firstn k' perm), (skipn k' perm), (map fst ab), (map snd ab), h'.
split; [|split; [reflexivity|split; [symmetry; apply firstn_skipn|]]].
- unfold Utils.split_data. rewrite Hs. fold k.
  unfold np_arange, alloc. unfold bind at 1. unfold bind at 1.
  unfold ret at 1. cbv beta iota. unfold bind at 1.
  assert (Hsh : (if random
                 then np_shuffle rng (mk_ndarray (List.length h) 0 [n])
                 else ret tt)
                  (@app (buffer A) h
                        (@cons (buffer A) (map int_scalar (seq 0 n)) nil))
                = (Returned tt, h ++ [map int_scalar perm])).
  { unfold perm. destruct random; [|reflexivity].
    apply SplitFacts.shuffle_fresh_arange. exact Hr. }
  rewrite Hsh. unfold bind. rewrite Hloop. reflexivity.
- split; [exact Hp|]. split.
  + rewrite <- length_app, firstn_skipn. exact Hl.
  + split; [|split].
    * intros i Hi.
      assert (Hin : In i (firstn k' perm ++ skipn k' perm)).
      { rewrite firstn_skipn. apply (Permutation_in _ (Permutation_sym Hp)).
        apply in_seq. lia. }
      assert (Hnd : NoDup (firstn k' perm ++ skipn k' perm)).
      { rewrite firstn_skipn.
        apply (Permutation_NoDup (Permutation_sym Hp)), seq_NoDup. }
      apply in_app_or in Hin. destruct Hin as [Hin|Hin].
      -- left. split; [exact Hin|].
         exact (SplitFacts.NoDup_app_disjoint _ _ i Hnd Hin).
      -- right. split; [exact Hin|]. intros Ha.
         exact (SplitFacts.NoDup_app_disjoint _ _ i Hnd Ha Hin).
    * apply SplitFacts.Forall2_fst. eapply Forall2_impl; [|exact Hg].
      intros d p (rs & H1 & H2 & _). exists rs. split; assumption.
    * apply SplitFacts.Forall2_snd. eapply Forall2_impl; [|exact Hg].
      intros d p (rs & H1 & _ & H3). exists rs. split; assumption.
Qed.

Lemma split_data_partition_witness :
  let h : heap Z := [map SVal [10; 11; 12; 13; 14; 15; 16; 17]%Z;
                     map SVal [0; 1; 1; 0]%Z] in
  let X := mk_ndarray 0 0 [4; 2] in
  let y := mk_ndarray 1 0 [4; 1] in
  exists perm ga gb split_a split_b h',
    Utils.split_data (fun n => rev (seq 0 n)) [X; y] (1 # 4) true None h
    = (Returned (split_a, split_b), h') /\
    perm = [3; 2; 1; 0] /\ perm = ga ++ gb /\
    List.length ga + List.length gb = 4.
Proof.
intros h X y.
destruct (split_data_partition Z (fun n => rev (seq 0 n)) h [X; y] (1 # 4)
            true 4
            (Permutation_sym (Permutation_rev (seq 0 4)))
            ltac:(discriminate)
            ltac:(repeat constructor; eexists; split; reflexivity))
  as (perm & ga & gb & sa & sb & h' & Hrun & Hperm & Hcut & _ & Hlen & _).
exists perm, ga, gb, sa, sb, h'.
split; [exact Hrun|]. split; [exact Hperm|]. split; [exact Hcut | exact Hlen].
Defined.

(* ------------------------------------------------------------------ *)
(** ** Assembling an interval and a year *)

Module AssemblyFacts.
Import Supermag Effects.

Section Assembly.

Variable frame : Type.
Variable read_frame : string -> outcome frame.
Variable parse_stations : string -> option pyvalue.
Variable xr_merge : Dataset frame -> Dataset frame -> Dataset frame.
Variable net : nat -> endpoint -> params -> reply.
Variable py : python.

(** Every body the data service returns parses. *)
Hypothesis well_formed : forall k p text,
  net k GET_DATA p = Replies text -> exists df, read_frame text = Returned df.

(** The inventory service answers every request with a station list. *)
Hypothesis inventory_answers : forall k p,
  exists text station_list,
    net k GET_STATION_LIST p = Replies text /\
    parse_stations text = Some (PyList station_list).

Implicit Type w : world frame.

Lemma print_files l w : files (snd (print l w)) = files w.
Proof. reflexivity. Qed.

(** Whatever the network does, the per-station fetch returns: nothing
    when no request is answered, else the table of an answer. *)
Lemma getDataForStation_returns p w :
  exists df w',
    getDataForStation read_frame net p w = (Returned df, w') /\
    files w' = files w /\
    ((forall k, net k GET_DATA p = Fails) -> df = None) /\
    (forall d, df = Some d ->
       exists k text, net k GET_DATA p = Replies text /\
                      read_frame text = Returned d).
Proof.
unfold getDataForStation.
destruct (LoopFacts.loop_total frame net GET_DATA p MAX_TRIES 0 w eq_refl)
  as (t' & rq & w1 & H & _ & Hf & _ & Hr); [unfold MAX_TRIES; lia|].
rewrite H. destruct Hr as [[-> ->]|[Hlt (k & text & -> & Hk)]].
- cbn. eexists _, _. split; [reflexivity|]. split; [exact Hf|].
  split; [reflexivity | discriminate].
- destruct (Nat.eqb_spec t' MAX_TRIES); [lia|].
  destruct (well_formed k p text Hk) as [df Hdf]. rewrite Hdf.
  eexists _, _. split; [reflexivity|]. split; [exact Hf|]. split.
  + intros Hu. rewrite Hu in Hk. discriminate Hk.
  + intros d [= <-]. exists k, text. split; assumption.
Qed.

Lemma getAvailableStations_answers p w :
  exists text station_list w',
    net (calls w) GET_STATION_LIST p = Replies text /\
    parse_stations text = Some (PyList station_list) /\
    getAvailableStations parse_stations net py p w
    = (Returned (PyList station_list), w') /\
    files w' = files w.
Proof.
destruct (inventory_answers (calls w) p) as (text & sl & Hnet & Hparse).
exists text, sl, (called w). split; [exact Hnet|]. split; [exact Hparse|].
unfold getAvailableStations.
rewrite (LoopFacts.loop_reply frame net GET_STATION_LIST p 0 w text)
  by (unfold MAX_TRIES; lia || exact Hnet).
cbn. rewrite Hparse. split; reflexivity.
Qed.

Lemma ds_get_set_same (data : Dataset frame) station df :
  ds_get (ds_set data station df) station = Some df.
Proof.
induction data as [|[k v] data IH]; cbn.
- rewrite String.eqb_refl. reflexivity.
- destruct (String.eqb_spec k station) as [->|Hne]; cbn.
  + rewrite String.eqb_refl. reflexivity.
  + destruct (String.eqb_spec k station); [contradiction | exact IH].
Qed.

Lemma ds_get_set_other (data : Dataset frame) station station' df :
  station <> station' ->
  ds_get (ds_set data station df) station' = ds_get data station'.
Proof.
intros Hne. induction data as [|[k v] data IH]; cbn.
- destruct (String.eqb_spec station station'); [contradiction | reflexivity].
- destruct (String.eqb_spec k station) as [->|Hk]; cbn.
  + destruct (String.eqb_spec station station'); [contradiction | reflexivity].
  + destruct (String.eqb_spec k station'); [reflexivity | exact IH].
Qed.

(** Lines 113-123: the loop over the stations returns whatever the
    fetches do.  It adds a variable for each station it visits, a null
    one for a station that cannot be reached, and a table only from an
    answer for that station. *)
Lemma station_loop start_date hm (sl0 : list string) :
  forall (sl : list string) (data : Dataset frame) w,
  exists data' w',
    for_fold (fun station data =>
                print (Progress (index_of sl0 station + 1)
                                (List.length sl0) station) ;;;
                df <- getDataForStation read_frame net
                        (mk_params start_date hm (Some station)) ;;
                ret (ds_set data station df)) sl data w
    = (Returned data', w') /\
    files w' = files w /\
    (forall st, ds_get data' st <> None <-> In st sl \/ ds_get data st <> None) /\
    (forall st,
      (forall k, net k GET_DATA (mk_params start_date hm (Some st)) = Fails) ->
      In st sl \/ ds_get data st = Some None ->
      ds_get data' st = Some None) /\
    (forall st d, ds_get data' st = Some (Some d) ->
       ds_get data st = Some (Some d) \/
       exists k text,
         net k GET_DATA (mk_params start_date hm (Some st)) = Replies text /\
         read_frame text = Returned d).
Proof.
induction sl as [|a sl IH]; intros data w.
- exists data, w. split; [reflexivity|]. split; [reflexivity|].
  split; [|split].
  + intros st. cbn [In]. tauto.
  + intros st _ [[]|H]. exact H.
  + intros st d H. left. exact H.
- cbn [for_fold]. unfold bind at 1. unfold bind at 1.
  unfold print at 1. cbv beta iota.
  set (w0 := mk_world (calls w) (slept w) _ (files w)).
  destruct (getDataForStation_returns (mk_params start_date hm (Some a)) w0)
    as (df & w1 & Hget & Hf1 & Hnone & Hsome).
  unfold bind at 1. rewrite Hget. unfold ret at 1.
  destruct (IH (ds_set data a df) w1)
    as (data' & w' & Hloop & Hf & Hkeys & Hgap & Hfrom).
  exists data', w'. split; [exact Hloop|]. split; [|split; [|split]].
  + rewrite Hf, Hf1. reflexivity.
  + intros st. rewrite Hkeys. cbn [In].
    destruct (string_dec a st) as [->|Hne].
    * rewrite ds_get_set_same. split; [intros _; left; left; reflexivity|].
      intros _. right. discriminate.
    * rewrite ds_get_set_other by exact Hne. tauto.
  + intros st Hu Hst. apply Hgap; [exact Hu|].
    destruct (string_dec a st) as [->|Hne].
    * right. rewrite (Hnone Hu). apply ds_get_set_same.
    * destruct Hst as [[Heq|Hin]|Hprev]; [contradiction | left; exact Hin |].
      right. rewrite ds_get_set_other by exact Hne. exact Hprev.
  + intros st d Hd. destruct (Hfrom st d Hd) as [Hprev|Hnew]; [|right; exact Hnew].
    destruct (string_dec a st) as [->|Hne].
    * rewrite ds_get_set_same in Hprev. injection Hprev as Hdf.
      right. apply Hsome. exact Hdf.
    * rewrite ds_get_set_other in Hprev by exact Hne. left. exact Hprev.
Qed.

(** The assembly of one interval returns the dataset of the stations the
    inventory lists. *)
Lemma getDataForInterval_returns start_date hours minutes w :
  exists data w' text station_list,
    net (calls w) GET_STATION_LIST
        (mk_params start_date (hours, minutes) None) = Replies text /\
    parse_stations text = Some (PyList station_list) /\
    getDataForInterval read_frame parse_stations net py
                       start_date hours minutes w = (Returned data, w') /\
    files w' = files w /\
    interval_dataset read_frame net start_date (hours, minutes)
                     station_list data.
Proof.
unfold getDataForInterval. cbv zeta.
destruct (getAvailableStations_answers
            (mk_params start_date (hours, minutes) None) w)
  as (text & sl & w1 & Hnet & Hparse & Hget & Hf1).
unfold bind at 1. rewrite Hget. cbv beta iota.
unfold bind at 1. unfold print at 1. cbv beta iota.
set (w2 := mk_world (calls w1) (slept w1) _ (files w1)).
destruct (station_loop start_date (hours, minutes) sl sl [] w2)
  as (data & w' & Hloop & Hf & Hkeys & Hgap & Hfrom).
exists data, w', text, sl. split; [exact Hnet|]. split; [exact Hparse|].
split; [exact Hloop|]. split; [rewrite Hf; exact Hf1|].
split; [|split].
- intros st. rewrite Hkeys. cbn [ds_get]. split; [tauto|].
  intros [H|H]; [exact H | contradiction H; reflexivity].
- intros st Hin Hu. apply Hgap; [exact Hu | left; exact Hin].
- intros st d Hd. destruct (Hfrom st d Hd) as [Hprev|Hnew];
    [discriminate Hprev | exact Hnew].
Qed.

(** Lines 132-138: the loop over the intervals of a year returns the
    merge of the datasets of its intervals, in order. *)
Lemma interval_loop fn_start (nintervals : Z) (dates : list datetime) :
  forall (indices : list nat) (dataset : Dataset frame) w,
  Forall (fun i => i + 1 < List.length dates) indices ->
  exists parts w',
    for_fold (fun i dataset =>
                print (IntervalOf (i + 1) nintervals fn_start) ;;;
                d1 <- getitem dates (i + 1) ;;
                d0 <- getitem dates i ;;
                data <- getDataForInterval read_frame parse_stations net py
                          d0 ((d1 - d0) / 3600000000)%Z
                          (((d1 - d0) - 3600000000 * ((d1 - d0) / 3600000000))
                           / 60000000)%Z ;;
                ret (xr_merge dataset data)) indices dataset w
    = (Returned (fold_left xr_merge parts dataset), w') /\
    files w' = files w /\
    Forall2 (fun i data =>
               exists d0 hm k text station_list,
                 nth_error dates i = Some d0 /\
                 net k GET_STATION_LIST (mk_params d0 hm None) = Replies text /\
                 parse_stations text = Some (PyList station_list) /\
                 interval_dataset read_frame net d0 hm station_list data)
            indices parts.
Proof.
induction indices as [|i indices IH]; intros dataset w Hall.
- exists [], w. split; [reflexivity|]. split; [reflexivity | constructor].
- pose proof (Forall_inv Hall) as Hi. cbv beta in Hi.
  pose proof (Forall_inv_tail Hall) as Hall'.
  destruct (nth_error dates (i + 1)) as [d1|] eqn:E1;
    [|apply nth_error_None in E1; lia].
  destruct (nth_error dates i) as [d0|] eqn:E0;
    [|apply nth_error_None in E0; lia].
  cbn [for_fold]. unfold bind at 1. unfold bind at 1.
  unfold print at 1. cbv beta iota.
  unfold bind at 1. unfold getitem at 1. rewrite E1. unfold ret at 1.
  unfold bind at 1. unfold getitem at 1. rewrite E0. unfold ret at 1.
  set (w0 := mk_world (calls w) (slept w) _ (files w)).
  destruct (getDataForInterval_returns d0
              ((d1 - d0) / 3600000000)%Z
              (((d1 - d0) - 3600000000 * ((d1 - d0) / 3600000000)) / 60000000)%Z
              w0)
    as (data & w1 & text & sl & Hnet & Hparse & Hint & Hf1 & Hdata).
  unfold bind at 1. rewrite Hint. unfold ret at 1.
  destruct (IH (xr_merge dataset data) w1 Hall')
    as (parts & w' & Hloop & Hf & Hparts).
  exists (data :: parts), w'. split; [exact Hloop|].
  split; [rewrite Hf, Hf1; reflexivity|].
  constructor; [|exact Hparts].
  exists d0, (((d1 - d0) / 3600000000)%Z,
              (((d1 - d0) - 3600000000 * ((d1 - d0) / 3600000000)) / 60000000)%Z),
         (calls w0), text, sl.
  split; [exact E0|]. split; [exact Hnet|]. split; [exact Hparse | exact Hdata].
Qed.

Lemma downloadDataToFile_returns fn start_date end_date nintervals dates w :
  date_range py start_date end_date nintervals = Returned dates ->
  exists parts w',
    downloadDataToFile read_frame parse_stations xr_merge net py
                       fn start_date end_date nintervals w
    = (Returned tt, w') /\
    files w' = files w ++ [(fn, fold_left xr_merge parts [])] /\
    Forall2 (fun i data =>
               exists d0 hm k text station_list,
                 nth_error dates i = Some d0 /\
                 net k GET_STATION_LIST (mk_params d0 hm None) = Replies text /\
                 parse_stations text = Some (PyList station_list) /\
                 interval_dataset read_frame net d0 hm station_list data)
            (range nintervals) parts.
Proof.
intros Hdates. unfold downloadDataToFile. cbv zeta. rewrite Hdates.
destruct (interval_loop start_date nintervals dates (range nintervals) [] w)
  as (parts & w1 & Hloop & Hf & Hparts).
{ apply Forall_forall. intros i Hi. apply DateRangeFacts.in_range in Hi.
  rewrite (DateRangeFacts.date_range_length _ _ _ _ _ Hdates). lia. }
unfold bind at 1. rewrite Hloop.
exists parts. eexists. split; [reflexivity|].
split; [cbn; rewrite Hf; reflexivity | exact Hparts].
Qed.

End Assembly.
End AssemblyFacts.

(** C6: with an inventory that answers with a station list, data bodies
    that parse and a date range that is produced, the year is assembled
    and written whatever per-station requests fail.  The file holds the
    merge, in order, of one dataset per interval; the dataset of an
    interval has a variable for each station its inventory lists, and a
    station whose fetch yields no record is a null variable there. *)
Theorem year_completes_with_gaps (frame : Type)
  (read_frame : string -> outcome frame)
  (parse_stations : string -> option Supermag.pyvalue)
  (xr_merge : Supermag.Dataset frame -> Supermag.Dataset frame
              -> Supermag.Dataset frame)
  (net : nat -> Supermag.endpoint -> Supermag.params -> Supermag.reply)
  (py : Supermag.python)
  (well_formed : forall k p text,
      net k Supermag.GET_DATA p = Supermag.Replies text ->
      exists df, read_frame text = Returned df)
  (inventory_answers : forall k p,
      exists text station_list,
        net k Supermag.GET_STATION_LIST p = Supermag.Replies text /\
        parse_stations text = Some (Supermag.PyList station_list))
  (fn : string) (start_date end_date : Supermag.datetime) (nintervals : Z)
  (dates : list Supermag.datetime)
  (Hdates : Supermag.date_range py start_date end_date nintervals
            = Returned dates)
  (w : Supermag.world frame) :
  exists parts w',
    Supermag.downloadDataToFile read_frame parse_stations xr_merge net py
                                fn start_date end_date nintervals w
    = (Returned tt, w') /\
    Supermag.files w'
    = Supermag.files w ++ [(fn, fold_left xr_merge parts [])] /\
    List.length parts = Z.to_nat nintervals /\
    Forall2 (fun i data =>
               exists d0 hm k text station_list,
                 nth_error dates i = Some d0 /\
                 net k Supermag.GET_STATION_LIST (Supermag.mk_params d0 hm None)
                 = Supermag.Replies text /\
                 parse_stations text = Some (Supermag.PyList station_list) /\
                 (forall st, In st station_list
                             <-> Supermag.ds_get data st <> None) /\
                 (forall st, In st station_list ->
                    (forall k', net k' Supermag.GET_DATA
                                    (Supermag.mk_params d0 hm (Some st))
                                = Supermag.Fails) ->
                    Supermag.ds_get data st = Some None) /\
                 (forall st df, Supermag.ds_get data st = Some (Some df) ->
                    exists k' text',
                      net k' Supermag.GET_DATA
                          (Supermag.mk_params d0 hm (Some st))
                      = Supermag.Replies text' /\
                      read_frame text' = Returned df))
            (Supermag.range nintervals) parts.
Proof.
destruct (AssemblyFacts.downloadDataToFile_returns frame read_frame
            parse_stations xr_merge net py well_formed inventory_answers
            fn start_date end_date nintervals dates w Hdates)
  as (parts & w' & Hrun & Hfile & Hparts).
exists parts, w'. split; [exact Hrun|]. split; [exact Hfile|]. split.
- rewrite <- (Forall2_length Hparts). apply DateRangeFacts.range_length.
- exact Hparts.
Qed.

Lemma year_completes_with_gaps_witness :
  let net := fun (k : nat) (url : Supermag.endpoint) (p : Supermag.params) =>
    match url, Supermag.stations p with
    | Supermag.GET_STATION_LIST, _ => Supermag.Replies "AB"
    | Supermag.GET_DATA, Some "ABK"%string => Supermag.Fails
    | Supermag.GET_DATA, _ => Supermag.Replies "t,x"
    end in
  let t0 := Supermag.datetime_min in
  exists parts w',
    Supermag.downloadDataToFile
      (fun text => Returned (String.length text))
      (fun _ => Some (Supermag.PyList ["ABK"%string; "TRO"%string]))
      (fun a b => a ++ b) net Supermag.Python3
      "mag_data_2015"%string t0 (t0 + 7200000000)%Z 2%Z
      (Supermag.mk_world 0 0%Z [] [])
    = (Returned tt, w') /\
    Supermag.files w' = [("mag_data_2015"%string, fold_left (fun a b => a ++ b) parts [])] /\
    List.length parts = 2.
Proof.
intros net t0.
destruct (year_completes_with_gaps nat
            (fun text => Returned (String.length text))
            (fun _ => Some (Supermag.PyList ["ABK"%string; "TRO"%string]))
            (fun a b => a ++ b) net Supermag.Python3
            ltac:(intros k p text _; eexists; reflexivity)
            ltac:(intros k p; eexists _, _; split; reflexivity)
            "mag_data_2015"%string t0 (t0 + 7200000000)%Z 2%Z
            [t0; t0 + 3600000000; t0 + 7200000000]%Z
            ltac:(vm_compute; reflexivity)
            (Supermag.mk_world 0 0%Z [] []))
  as (parts & w' & Hrun & Hfile & Hlen & _).
exists parts, w'. split; [exact Hrun|]. split; [exact Hfile | exact Hlen].
Defined.

(* ------------------------------------------------------------------ *)
(** ** What the download never does: pacing and files *)

Module EffectFacts.
Import Supermag Effects.

Section Generic.

Variables (S : Type) (R : S -> S -> Prop).
Hypothesis R_refl : forall s, R s s.
Hypothesis R_trans : forall s1 s2 s3, R s1 s2 -> R s2 s3 -> R s1 s3.

Lemma steps_ret {X} (x : X) : steps R (@ret S X x).
Proof. intros s. apply R_refl. Qed.

Lemma steps_raise {X} e : steps R (@raise S X e).
Proof. intros s. apply R_refl. Qed.

Lemma steps_bind {X Y} (c : M S X) (k : X -> M S Y) :
  steps R c -> (forall x, steps R (k x)) -> steps R (bind c k).
Proof.
intros Hc Hk s. unfold bind. specialize (Hc s).
destruct (c s) as [[x|e] s1]; cbn [snd] in *; [|exact Hc].
eapply R_trans; [exact Hc | apply Hk].
Qed.

Lemma steps_for_fold {X B} (body : X -> B -> M S B) :
  (forall x acc, steps R (body x acc)) ->
  forall (l : list X) acc, steps R (for_fold body l acc).
Proof.
intros Hbody. induction l as [|x l IH]; intros acc; [apply steps_ret|].
cbn [for_fold]. apply steps_bind; [apply Hbody | exact IH].
Qed.

End Generic.

Section Download.

Variable frame : Type.
Variable read_frame : string -> outcome frame.
Variable parse_stations : string -> option pyvalue.
Variable xr_merge : Dataset frame -> Dataset frame -> Dataset frame.
Variable net : nat -> endpoint -> params -> reply.
Variable py : python.

Implicit Type w : world frame.

(** Paced, and no file written. *)
Let quiet w w' : Prop := paced w w' /\ same_files w w'.

Lemma quiet_refl w : quiet w w.
Proof. unfold quiet, paced, same_files, SLEEP_TIME. repeat split; lia || reflexivity. Qed.

Lemma quiet_trans w1 w2 w3 : quiet w1 w2 -> quiet w2 w3 -> quiet w1 w3.
Proof.
unfold quiet, paced, same_files, SLEEP_TIME.
intros [(H1 & H2 & H3) F1] [(H4 & H5 & H6) F2].
repeat split; try lia. congruence.
Qed.

Lemma quiet_print l : steps quiet (@print frame l).
Proof.
intros w. unfold quiet, paced, same_files, SLEEP_TIME, print. cbn [calls slept stdout files snd].
repeat split; lia || reflexivity.
Qed.

Lemma quiet_loop url p : forall n tries w,
  n = MAX_TRIES - tries ->
  quiet w (snd (request_loop net url p tries w)).
Proof.
induction n as [|n IH]; intros tries w Hn.
- rewrite LoopFacts.loop_exit by lia. apply quiet_refl.
- destruct (net (calls w) url p) as [|text] eqn:E.
  + rewrite LoopFacts.loop_fails by (assumption || lia).
    eapply quiet_trans; [|apply IH; lia].
    unfold quiet, paced, same_files, SLEEP_TIME, sleep, called. cbn [calls slept stdout files snd].
    repeat split; lia || reflexivity.
  + rewrite LoopFacts.loop_reply with (text := text) by (assumption || lia).
    unfold quiet, paced, same_files, SLEEP_TIME, called. cbn [calls slept stdout files snd].
    repeat split; lia || reflexivity.
Qed.

Lemma quiet_getDataForStation p : steps quiet (getDataForStation read_frame net p).
Proof.
intros w. unfold getDataForStation.
pose proof (quiet_loop GET_DATA p MAX_TRIES 0 w eq_refl) as Hl.
destruct (request_loop net GET_DATA p 0 w) as [[tries rq] w1]. cbn [snd] in Hl.
destruct (tries =? MAX_TRIES).
- eapply quiet_trans; [exact Hl|].
  apply (steps_bind _ _ quiet_trans); [apply quiet_print|].
  intros _. apply (steps_ret _ _ quiet_refl).
- destruct rq as [text|]; [|exact Hl]. destruct (read_frame text); exact Hl.
Qed.

Lemma quiet_getAvailableStations p :
  steps quiet (getAvailableStations parse_stations net py p).
Proof.
intros w. unfold getAvailableStations.
pose proof (quiet_loop GET_STATION_LIST p MAX_TRIES 0 w eq_refl) as Hl.
destruct (request_loop net GET_STATION_LIST p 0 w) as [[tries rq] w1].
cbn [snd] in Hl.
destruct (tries =? MAX_TRIES).
- eapply quiet_trans; [exact Hl|].
  apply (steps_bind _ _ quiet_trans); [apply quiet_print|]. intros _.
  destruct (e_bound py tries); [|apply (steps_raise _ _ quiet_refl)].
  apply (steps_bind _ _ quiet_trans); [apply quiet_print|].
  intros _. apply (steps_ret _ _ quiet_refl).
- destruct rq as [text|]; [|exact Hl].
  destruct (parse_stations text); [exact Hl|].
  eapply quiet_trans; [exact Hl|].
  apply (steps_bind _ _ quiet_trans); [apply quiet_print|]. intros _.
  apply (steps_bind _ _ quiet_trans); [apply quiet_print|].
  intros _. apply (steps_ret _ _ quiet_refl).
Qed.

Lemma quiet_getDataForInterval start_date hours minutes :
  steps quiet (getDataForInterval read_frame parse_stations net py
                                  start_date hours minutes).
Proof.
unfold getDataForInterval. cbv zeta.
apply (steps_bind _ _ quiet_trans); [apply quiet_getAvailableStations|].
assert (Hloop : forall sl0 sl : list string,
          steps quiet
            (print (StationsForInterval (List.length sl0) start_date) ;;;
             for_fold (fun station (data : Dataset frame) =>
               print (Progress (index_of sl0 station + 1)
                               (List.length sl0) station) ;;;
               df <- getDataForStation read_frame net
                       (mk_params start_date (hours, minutes) (Some station)) ;;
               ret (ds_set data station df)) sl [])).
{ intros sl0 sl.
  apply (steps_bind _ _ quiet_trans); [apply quiet_print|]. intros _.
  apply (steps_for_fold _ _ quiet_refl quiet_trans). intros station data.
  apply (steps_bind _ _ quiet_trans); [apply quiet_print|]. intros _.
  apply (steps_bind _ _ quiet_trans); [apply quiet_getDataForStation|].
  intros df. apply (steps_ret _ _ quiet_refl). }
intros [|sl|s| |keys].
- apply (steps_raise _ _ quiet_refl).
- apply Hloop.
- apply Hloop.
- apply (steps_raise _ _ quiet_refl).
- apply (steps_bind _ _ quiet_trans); [apply quiet_print|]. intros _.
  destruct keys; [apply (steps_ret _ _ quiet_refl)
                 | apply (steps_raise _ _ quiet_refl)].
Qed.

Lemma quiet_getitem {X} (l : list X) i : steps quiet (@getitem frame X l i).
Proof.
unfold getitem. destruct (nth_error l i);
  [apply (steps_ret _ _ quiet_refl) | apply (steps_raise _ _ quiet_refl)].
Qed.

Lemma quiet_year_loop fn_start nintervals (dates : list datetime) indices
      (dataset : Dataset frame) :
  steps quiet
    (for_fold (fun i dataset =>
                 print (IntervalOf (i + 1) nintervals fn_start) ;;;
                 d1 <- getitem dates (i + 1) ;;
                 d0 <- getitem dates i ;;
                 data <- getDataForInterval read_frame parse_stations net py
                           d0 ((d1 - d0) / 3600000000)%Z
                           (((d1 - d0) - 3600000000 * ((d1 - d0) / 3600000000))
                            / 60000000)%Z ;;
                 ret (xr_merge dataset data)) indices dataset).
Proof.
apply (steps_for_fold _ _ quiet_refl quiet_trans). intros i acc.
apply (steps_bind _ _ quiet_trans); [apply quiet_print|]. intros _.
apply (steps_bind _ _ quiet_trans); [apply quiet_getitem|]. intros d1.
apply (steps_bind _ _ quiet_trans); [apply quiet_getitem|]. intros d0.
apply (steps_bind _ _ quiet_trans); [apply quiet_getDataForInterval|].
intros data. apply (steps_ret _ _ quiet_refl).
Qed.

Lemma downloadDataToFile_outcome fn start_date end_date nintervals w o w' :
  downloadDataToFile read_frame parse_stations xr_merge net py
                     fn start_date end_date nintervals w = (o, w') ->
  paced w w' /\
  match o with
  | Returned _ => exists dataset, files w' = files w ++ [(fn, dataset)]
  | Raised _ => files w' = files w
  end.
Proof.
unfold downloadDataToFile. cbv zeta.
destruct (date_range py start_date end_date nintervals) as [dates|e].
- unfold bind at 1.
  pose proof (quiet_year_loop start_date nintervals dates (range nintervals)
                              [] w) as Hq.
  match goal with
  | |- context [for_fold ?body (range nintervals) [] w] =>
      change (quiet w (snd (for_fold body (range nintervals) [] w))) in Hq;
      destruct (for_fold body (range nintervals) [] w) as [[dataset|e] w1]
  end; cbn [snd] in Hq; unfold quiet, paced, same_files in Hq;
    destruct Hq as [(H1 & H2 & H3) Hf].
  + unfold bind, print, to_netcdf. intros [= <- <-].
    cbn [calls slept stdout files].
    split; [repeat split; assumption|].
    exists dataset. rewrite Hf. reflexivity.
  + intros [= <- <-]. split; [repeat split; assumption | exact Hf].
- unfold raise. intros [= <- <-]. split; [|reflexivity].
  unfold paced, SLEEP_TIME. repeat split; lia.
Qed.

(** X1: whatever the network and the parsers do, [downloadDataToFile]
    writes the year's file whole or not at all: when it returns, exactly
    one file named [fn] has been added; when it raises, no file has been
    written.  In both cases requests and sleep have only accumulated, with
    at most 5 seconds of sleep per request issued. *)
Theorem download_writes_whole_file_or_none fn start_date end_date nintervals w :
  let r := downloadDataToFile read_frame parse_stations xr_merge net py
                              fn start_date end_date nintervals w in
  paced w (snd r) /\
  match fst r with
  | Returned _ => exists dataset, files (snd r) = files w ++ [(fn, dataset)]
  | Raised _ => files (snd r) = files w
  end.
Proof.
intros r. destruct r as [o w'] eqn:E. cbn [fst snd].
exact (downloadDataToFile_outcome fn start_date end_date nintervals w o w' E).
Qed.

End Download.
End EffectFacts.

(* ------------------------------------------------------------------ *)
(** ** The fetchers after any number of failures *)

Module FetchFacts.
Import Supermag Effects.

Section Fetch.

Variable frame : Type.
Variable read_frame : string -> outcome frame.
Variable parse_stations : string -> option pyvalue.
Variable net : nat -> endpoint -> params -> reply.
Variable py : python.

Implicit Type w : world frame.

Lemma loop_replies_after url p k w text :
  k < MAX_TRIES ->
  (forall i, i < k -> net (calls w + i) url p = Fails) ->
  net (calls w + k) url p = Replies text ->
  request_loop net url p 0 w
  = ((k, Some text),
     mk_world (calls w + k + 1) (slept w + SLEEP_TIME * Z.of_nat k)
              (stdout w) (files w)).
Proof.
intros Hk Hf Hr.
rewrite (LoopFacts.loop_failures frame net url p k 0 w) by (lia || assumption).
rewrite LoopFacts.loop_reply with (text := text) by (cbn; lia || assumption).
unfold called, after_failures. cbn [calls slept stdout files Nat.add].
repeat f_equal. lia.
Qed.

(** X2: a data request that fails [k < 5] times and is then answered
    costs k+1 requests and 5k seconds of sleep, prints nothing, and
    gives what the parser makes of the body: the table, or the parser's
    exception, which is not caught. *)
Theorem getDataForStation_after_failures p k w text :
  k < MAX_TRIES ->
  (forall i, i < k -> net (calls w + i) GET_DATA p = Fails) ->
  net (calls w + k) GET_DATA p = Replies text ->
  getDataForStation read_frame net p w
  = (match read_frame text with
     | Returned df => Returned (Some df)
     | Raised e => Raised e
     end,
     mk_world (calls w + k + 1) (slept w + 5 * Z.of_nat k)
              (stdout w) (files w)).
Proof.
intros Hk Hf Hr. unfold getDataForStation.
rewrite (loop_replies_after GET_DATA p k w text Hk Hf Hr).
destruct (Nat.eqb_spec k MAX_TRIES) as [E|_]; [lia|].
destruct (read_frame text); reflexivity.
Qed.



End Fetch.
End FetchFacts.

Lemma getDataForStation_after_failures_witness :
  Supermag.getDataForStation
    (fun text : string => if String.eqb text "" then Raised ParserError
                          else Returned (String.length text))
    (fun k _ _ => if k <? 2 then Supermag.Fails else Supermag.Replies "")
    (Supermag.mk_params 0%Z (36%Z, 30%Z) (Some "ABK"%string))
    (Supermag.mk_world 0 0%Z [] [])
  = (Raised ParserError, Supermag.mk_world 3 10%Z [] []).
Proof.
refine (FetchFacts.getDataForStation_after_failures nat _ _ _ 2 _ ""%string _ _ _).
- unfold Supermag.MAX_TRIES. lia.
- intros i Hi. cbn [Supermag.calls Nat.add].
  destruct (Nat.ltb_spec i 2); [reflexivity | lia].
- reflexivity.
Defined.



(* ------------------------------------------------------------------ *)
(** ** date_range: spacing and rounding *)

Module SpacingFacts.
Import Supermag.
Local Open Scope Z_scope.




End SpacingFacts.


(* ------------------------------------------------------------------ *)
(** ** The interval dataset and the request budget *)

Module IntervalFacts.
Import Supermag Effects.

Section Interval.

Variable frame : Type.
Variable read_frame : string -> outcome frame.
Variable parse_stations : string -> option pyvalue.
Variable net : nat -> endpoint -> params -> reply.
Variable py : python.

Implicit Type w : world frame.
Implicit Type data : Dataset frame.

Lemma ds_set_keys_in data station df x :
  In x (ds_keys (ds_set data station df)) <-> x = station \/ In x (ds_keys data).
Proof.
unfold ds_keys. induction data as [|[k v] data IH]; cbn.
- intuition congruence.
- destruct (String.eqb_spec k station) as [->|Hne]; cbn.
  + intuition congruence.
  + rewrite IH. intuition congruence.
Qed.

Lemma ds_set_keys_nodup data station df :
  NoDup (ds_keys data) -> NoDup (ds_keys (ds_set data station df)).
Proof.
unfold ds_keys. induction data as [|[k v] data IH]; cbn; intros Hnd.
- constructor; [intros [] | constructor].
- inversion Hnd as [|? ? Hk Hnd']; subst.
  destruct (String.eqb_spec k station) as [->|Hne]; cbn.
  + constructor; assumption.
  + constructor; [|apply IH; exact Hnd'].
    intros Hin. apply (ds_set_keys_in data station df k) in Hin.
    destruct Hin as [->|Hin]; [congruence | exact (Hk Hin)].
Qed.

(** The loop of lines 113-123 adds the stations it visits as keys. *)
Lemma station_loop_keys start_date hours minutes (sl0 : list string) :
  forall (sl : list string) data w data' w',
  for_fold (fun station data =>
              print (Progress (index_of sl0 station + 1)
                              (List.length sl0) station) ;;;
              df <- getDataForStation read_frame net
                      (mk_params start_date (hours, minutes) (Some station)) ;;
              ret (ds_set data station df)) sl data w
  = (Returned data', w') ->
  (forall x, In x (ds_keys data') <-> In x sl \/ In x (ds_keys data)) /\
  (NoDup (ds_keys data) -> NoDup (ds_keys data')).
Proof.
induction sl as [|a sl IH]; intros data w data' w'.
- cbn [for_fold]. unfold ret. intros [= <- <-]. split; [|tauto].
  intros x. cbn. tauto.
- cbn [for_fold]. unfold bind at 1. unfold bind at 1.
  unfold print at 1. cbv beta iota. unfold bind at 1.
  destruct (getDataForStation read_frame net _ _) as [[df|e] w1];
    [|discriminate]. unfold ret at 1.
  intros Hrun. destruct (IH _ _ _ _ Hrun) as [Hin Hnd]. split.
  + intros x. rewrite Hin, ds_set_keys_in. cbn [In]. intuition congruence.
  + intros H. apply Hnd, ds_set_keys_nodup, H.
Qed.

(** X6: when the assembly of an interval returns, the dataset has one
    variable for each distinct station of the inventory (a station listed
    twice is fetched twice and stored once) and no other. *)
Theorem getDataForInterval_keys start_date hours minutes w station_list w1 data w' :
  getAvailableStations parse_stations net py
    (mk_params start_date (hours, minutes) None) w
  = (Returned (PyList station_list), w1) ->
  getDataForInterval read_frame parse_stations net py
                     start_date hours minutes w = (Returned data, w') ->
  (forall station, In station (ds_keys data) <-> In station station_list) /\
  NoDup (ds_keys data).
Proof.
intros Hinv. unfold getDataForInterval. cbv zeta. unfold bind at 1.
rewrite Hinv. cbv beta iota. unfold bind at 1. unfold print at 1.
cbv beta iota. intros Hrun.
destruct (station_loop_keys _ _ _ _ _ _ _ _ _ Hrun) as [Hin Hnd]. split.
- intros station. rewrite Hin. cbn. tauto.
- apply Hnd. constructor.
Qed.

Lemma getAvailableStations_calls p w :
  calls (snd (getAvailableStations parse_stations net py p w))
  <= calls w + MAX_TRIES.
Proof.
unfold getAvailableStations.
destruct (LoopFacts.loop_total frame net GET_STATION_LIST p MAX_TRIES 0 w eq_refl)
  as (t' & rq & w1 & H & _ & _ & Hc & Hr); [unfold MAX_TRIES; lia|].
rewrite H. destruct Hr as [[-> ->]|[Hlt (k & text & -> & _)]].
- rewrite Nat.eqb_refl. unfold bind, print.
  destruct (e_bound py MAX_TRIES); unfold ret, raise; cbn [calls snd];
    exact Hc.
- destruct (Nat.eqb_spec t' MAX_TRIES); [lia|].
  destruct (parse_stations text); cbn; exact Hc.
Qed.

Lemma station_loop_calls start_date hours minutes (sl0 : list string) :
  forall (sl : list string) data w,
  calls (snd (for_fold (fun station data =>
              print (Progress (index_of sl0 station + 1)
                              (List.length sl0) station) ;;;
              df <- getDataForStation read_frame net
                      (mk_params start_date (hours, minutes) (Some station)) ;;
              ret (ds_set data station df)) sl data w))
  <= calls w + MAX_TRIES * List.length sl.
Proof.
induction sl as [|a sl IH]; intros data w.
- cbn. lia.
- cbn [for_fold]. unfold bind at 1. unfold bind at 1.
  unfold print at 1. cbv beta iota. unfold bind at 1.
  match goal with
  | |- context [getDataForStation read_frame net ?p ?w0] =>
      pose proof (LoopFacts.getDataForStation_calls frame read_frame net p w0)
        as Hc;
      destruct (getDataForStation read_frame net p w0) as [[df|e] w1]
  end; cbn [snd calls] in Hc.
  + unfold ret at 1. specialize (IH (ds_set data a df) w1).
    cbn [List.length]. lia.
  + cbn [snd List.length]. lia.
Qed.

(** X7: the assembly of one interval issues at most 5 inventory requests
    and at most 5 data requests per listed station, and sleeps at most 5
    seconds per request, whatever the outcome. *)
Theorem getDataForInterval_budget start_date hours minutes w station_list w1 :
  getAvailableStations parse_stations net py
    (mk_params start_date (hours, minutes) None) w
  = (Returned (PyList station_list), w1) ->
  let w' := snd (getDataForInterval read_frame parse_stations net py
                                    start_date hours minutes w) in
  calls w' <= calls w + 5 + 5 * List.length station_list /\
  (slept w' <= slept w + 25 + 25 * Z.of_nat (List.length station_list))%Z.
Proof.
intros Hinv w'.
assert (Hc : calls w' <= calls w + 5 + 5 * List.length station_list).
{ subst w'. unfold getDataForInterval. cbv zeta. unfold bind at 1.
  pose proof (getAvailableStations_calls
                (mk_params start_date (hours, minutes) None) w) as H1.
  rewrite Hinv in *. cbn [snd] in H1. cbv beta iota.
  unfold bind at 1. unfold print at 1. cbv beta iota.
  match goal with
  | |- context [for_fold ?body station_list [] ?w0] =>
      pose proof (station_loop_calls start_date hours minutes station_list
                    station_list [] w0) as H2
  end.
  cbn [calls] in H2. unfold MAX_TRIES in *. lia. }
split; [exact Hc|].
pose proof (EffectFacts.quiet_getDataForInterval frame read_frame
              parse_stations net py start_date hours minutes w) as [Hp _].
fold w' in Hp. destruct Hp as (H1 & H2 & H3). unfold SLEEP_TIME in H3. lia.
Qed.

Variable xr_merge : Dataset frame -> Dataset frame -> Dataset frame.

(** X8: with zero intervals [downloadDataToFile] raises
    [ZeroDivisionError] before it prints, requests or writes anything;
    with a negative number it makes no request and writes a file holding
    an empty dataset. *)
Theorem downloadDataToFile_no_intervals fn start_date end_date nintervals w :
  (nintervals = 0%Z ->
   downloadDataToFile read_frame parse_stations xr_merge net py
                      fn start_date end_date nintervals w
   = (Raised ZeroDivisionError, w)) /\
  ((nintervals < 0)%Z ->
   downloadDataToFile read_frame parse_stations xr_merge net py
                      fn start_date end_date nintervals w
   = (Returned tt,
      mk_world (calls w) (slept w) (stdout w ++ [Saving fn])
               (files w ++ [(fn, [])]))).
Proof.
split.
- intros ->. reflexivity.
- intros Hneg. unfold downloadDataToFile. cbv zeta.
  rewrite DateRangeFacts.date_range_negative by lia.
  unfold range. replace (Z.to_nat nintervals) with 0 by lia.
  reflexivity.
Qed.

End Interval.
End IntervalFacts.

Lemma getDataForInterval_keys_witness :
  let net := fun (k : nat) (url : Supermag.endpoint) (p : Supermag.params) =>
    match url with
    | Supermag.GET_STATION_LIST => Supermag.Replies "inventory"
    | Supermag.GET_DATA => Supermag.Replies "t,x"
    end in
  exists data w',
    Supermag.getDataForInterval
      (fun text => Returned (String.length text))
      (fun _ => Some (Supermag.PyList ["ABK"%string; "TRO"%string; "ABK"%string]))
      net Supermag.Python3 0%Z 36%Z 30%Z (Supermag.mk_world 0 0%Z [] [])
    = (Returned data, w') /\
    Effects.ds_keys data = ["ABK"%string; "TRO"%string] /\
    NoDup (Effects.ds_keys data).
Proof.
intros net. eexists _, _. split; [vm_compute; reflexivity|].
split; [reflexivity|].
refine (proj2 (IntervalFacts.getDataForInterval_keys nat
                 (fun text => Returned (String.length text))
                 (fun _ => Some (Supermag.PyList ["ABK"%string; "TRO"%string; "ABK"%string]))
                 net Supermag.Python3 0%Z 36%Z 30%Z
                 (Supermag.mk_world 0 0%Z [] []) _ _ _ _ _ _)).
- vm_compute. reflexivity.
- vm_compute. reflexivity.
Defined.

Lemma getDataForInterval_budget_witness :
  let net := fun (k : nat) (url : Supermag.endpoint) (p : Supermag.params) =>
    match url with
    | Supermag.GET_STATION_LIST => Supermag.Replies "inventory"
    | Supermag.GET_DATA => Supermag.Fails
    end in
  Supermag.calls
    (snd (Supermag.getDataForInterval
            (fun text => Returned (String.length text))
            (fun _ => Some (Supermag.PyList ["ABK"%string; "TRO"%string]))
            net Supermag.Python3 0%Z 36%Z 30%Z
            (Supermag.mk_world 0 0%Z [] [])))
  <= 0 + 5 + 5 * 2.
Proof.
intros net.
refine (proj1 (IntervalFacts.getDataForInterval_budget nat
                 (fun text => Returned (String.length text))
                 (fun _ => Some (Supermag.PyList ["ABK"%string; "TRO"%string]))
                 net Supermag.Python3 0%Z 36%Z 30%Z
                 (Supermag.mk_world 0 0%Z [] [])
                 ["ABK"%string; "TRO"%string] _ _)).
vm_compute. reflexivity.
Defined.

Lemma downloadDataToFile_no_intervals_witness :
  Supermag.downloadDataToFile
    (fun text => Returned (String.length text))
    (fun _ => Some (Supermag.PyList ["ABK"%string]))
    (fun a b => a ++ b) (fun _ _ _ => Supermag.Fails) Supermag.Python3
    "mag_data_2015"%string 0%Z 7200000000%Z (-3)%Z
    (Supermag.mk_world 0 0%Z [] [])
  = (Returned tt,
     Supermag.mk_world 0 0%Z [Supermag.Saving "mag_data_2015"]
                       [("mag_data_2015"%string, [])]).
Proof.
refine (proj2 (IntervalFacts.downloadDataToFile_no_intervals nat
                 (fun text => Returned (String.length text))
                 (fun _ => Some (Supermag.PyList ["ABK"%string]))
                 (fun _ _ _ => Supermag.Fails) Supermag.Python3
                 (fun a b => a ++ b)
                 "mag_data_2015"%string 0%Z 7200000000%Z
                 (-3)%Z (Supermag.mk_world 0 0%Z [] [])) _).
reflexivity.
Defined.

(* ------------------------------------------------------------------ *)
(** ** The shape adapters on lists of arrays *)

Module FormatFacts.
Section Format.

Variable A : Type.
Implicit Type h : heap A.

Lemma rows_reshaped h x y n rest rest' :
  shape x = n :: rest -> shape y = n :: rest' ->
  prod_dims rest' = prod_dims rest ->
  ravel h y = ravel h x -> rows h y = rows h x.
Proof.
intros Hx Hy Hp Hr. unfold rows. rewrite Hx, Hy, Hr, Hp. reflexivity.
Qed.

(** The reshape of [linear_format_x] and its inverse. *)
Lemma reshape_linear h x a0 a1 a2 a3 :
  shape x = [a0; a1; a2; a3] ->
  exists y,
    np_reshape x [a0; a1 * a2 * a3] = Returned y /\
    shape y = [a0; a1 * a2 * a3] /\
    ravel h y = ravel h x /\
    np_reshape y [a0; a1; a2; a3] = Returned x.
Proof.
intros Hs.
assert (Hp : prod_dims [a0; a1 * a2 * a3] = prod_dims [a0; a1; a2; a3])
  by (cbn; ring).
exists (mk_ndarray (buf x) (off x) [a0; a1 * a2 * a3]).
unfold np_reshape, size. rewrite Hs, Hp, Nat.eqb_refl. cbn [shape buf off].
rewrite Hp, Nat.eqb_refl. repeat split.
- unfold ravel, size. cbn [shape buf off]. rewrite Hs, Hp. reflexivity.
- destruct x as [b o sh]. cbn in Hs. subst sh. reflexivity.
Qed.

(** X9: [linear_format_x] turns every 4-dimensional array of shape
    (a0,a1,a2,a3) into a view of shape (a0, a1*a2*a3) on the same
    elements: sample i of the result is sample i of the input flattened,
    and reshaping back gives the original array.  The store is left as it
    is. *)
Theorem linear_format_x_flattens_samples h (list_of_x : list ndarray) :
  Forall (fun x => List.length (shape x) = 4) list_of_x ->
  exists ys,
    Utils.linear_format_x list_of_x h = (Returned ys, h) /\
    Forall2 (fun x y =>
               exists a0 a1 a2 a3,
                 shape x = [a0; a1; a2; a3] /\
                 shape y = [a0; a1 * a2 * a3] /\
                 rows h y = rows h x /\
                 np_reshape y [a0; a1; a2; a3] = Returned x)
            list_of_x ys.
Proof.
induction 1 as [|x l Hx _ IH].
- exists []. split; [reflexivity | constructor].
- destruct IH as (ys & Hys & Hall).
  destruct (shape x) as [|a0 [|a1 [|a2 [|a3 [|? ?]]]]] eqn:Hs;
    try discriminate Hx.
  destruct (reshape_linear h x a0 a1 a2 a3 Hs) as (y & Hy & Hsy & Hr & Hinv).
  exists (y :: ys). split.
  + unfold Utils.linear_format_x in *. cbn [for_each]. unfold bind at 1.
    rewrite Hs. unfold lift at 1. rewrite Hy. unfold bind. rewrite Hys.
    reflexivity.
  + constructor; [|exact Hall].
    exists a0, a1, a2, a3.
    split; [exact Hs|]. split; [exact Hsy|]. split; [|exact Hinv].
    apply (rows_reshaped h x y a0 [a1; a2; a3] [a1 * a2 * a3] Hs Hsy);
      [cbn; ring | exact Hr].
Qed.

(** X10: [rnn_format_x] keeps the samples apart: for every 4-dimensional
    array, sample i of the result holds exactly the elements of sample i
    of the input, in the same order. *)
Theorem rnn_format_x_keeps_samples h (list_of_x : list ndarray) :
  Forall (fun x => List.length (shape x) = 4) list_of_x ->
  exists ys,
    Utils.rnn_format_x list_of_x h = (Returned ys, h) /\
    Forall2 (fun x y => rows h y = rows h x /\
                        hd_error (shape y) = hd_error (shape x))
            list_of_x ys.
Proof.
induction 1 as [|x l Hx _ IH].
- exists []. split; [reflexivity | constructor].
- destruct IH as (ys & Hys & Hall).
  destruct (shape x) as [|a0 [|a1 [|a2 [|a3 [|? ?]]]]] eqn:Hs;
    try discriminate Hx.
  destruct (ArrayFacts.reshape_rnn A h x a0 a1 a2 a3 Hs)
    as (y & Hy & Hsy & Hr & _).
  exists (y :: ys). split.
  + unfold Utils.rnn_format_x in *. cbn [for_each]. unfold bind at 1.
    rewrite Hs. unfold lift at 1. rewrite Hy. unfold bind. rewrite Hys.
    reflexivity.
  + constructor; [|exact Hall]. split.
    * apply (rows_reshaped h x y a0 [a1; a2; a3] [a2; a1 * a3] Hs Hsy);
        [cbn; ring | exact Hr].
    * rewrite Hsy, Hs. reflexivity.
Qed.

(** A list holding an array that is not 4-dimensional is refused. *)
Lemma for_each_refused {X Y} (body : X -> M (heap A) Y) (bad : X -> Prop) e :
  (forall x h, bad x -> body x h = (Raised e, h)) ->
  (forall x h, body x h = (Raised e, h) \/ exists y, body x h = (Returned y, h)) ->
  forall (l : list X) h, Exists bad l -> for_each body l h = (Raised e, h).
Proof.
intros Hbad Hany. induction l as [|x l IH]; intros h Hex.
- inversion Hex.
- cbn [for_each]. unfold bind at 1.
  destruct (Hany x h) as [Hr|[y Hr]]; rewrite Hr; [reflexivity|].
  inversion Hex as [? ? Hx|? ? Hl]; subst.
  + rewrite (Hbad x h Hx) in Hr. discriminate.
  + unfold bind. rewrite (IH h Hl). reflexivity.
Qed.

(** X11: one array that is not 4-dimensional anywhere in the list makes
    [rnn_format_x] and [linear_format_x] raise [ValueError]: no partial
    result is returned, and the store is left as it is. *)
Theorem format_x_refuses_other_ranks h (list_of_x : list ndarray) :
  Exists (fun x => List.length (shape x) <> 4) list_of_x ->
  Utils.rnn_format_x list_of_x h = (Raised ValueError, h) /\
  Utils.linear_format_x list_of_x h = (Raised ValueError, h).
Proof.
intros Hex. split.
- unfold Utils.rnn_format_x.
  apply (for_each_refused _ (fun x => List.length (shape x) <> 4)); [| |exact Hex].
  + intros x h0 Hx.
    destruct (shape x) as [|a0 [|a1 [|a2 [|a3 [|? ?]]]]]; try reflexivity.
    cbn in Hx. congruence.
  + intros x h0.
    destruct (shape x) as [|a0 [|a1 [|a2 [|a3 [|? ?]]]]] eqn:Hs;
      try (left; reflexivity).
    right. destruct (ArrayFacts.reshape_rnn A h0 x a0 a1 a2 a3 Hs)
      as (y & Hy & _). exists y. unfold lift. rewrite Hy. reflexivity.
- unfold Utils.linear_format_x.
  apply (for_each_refused _ (fun x => List.length (shape x) <> 4)); [| |exact Hex].
  + intros x h0 Hx.
    destruct (shape x) as [|a0 [|a1 [|a2 [|a3 [|? ?]]]]]; try reflexivity.
    cbn in Hx. congruence.
  + intros x h0.
    destruct (shape x) as [|a0 [|a1 [|a2 [|a3 [|? ?]]]]] eqn:Hs;
      try (left; reflexivity).
    right. destruct (reshape_linear h0 x a0 a1 a2 a3 Hs)
      as (y & Hy & _). exists y. unfold lift. rewrite Hy. reflexivity.
Qed.

End Format.
End FormatFacts.

Lemma linear_format_x_flattens_samples_witness :
  let h : heap nat := [map SVal (seq 0 12)] in
  let x := mk_ndarray 0 0 [2; 1; 3; 2] in
  exists ys,
    Utils.linear_format_x [x] h = (Returned ys, h) /\
    map shape ys = [[2; 6]].
Proof.
intros h x.
destruct (FormatFacts.linear_format_x_flattens_samples nat h [x]
            (Forall_cons _ (eq_refl : List.length (shape x) = 4) (Forall_nil _)))
  as (ys & Hys & Hall).
exists ys. split; [exact Hys|].
inversion Hall as [|? y ? ? (a0 & a1 & a2 & a3 & Hs & Hsy & _) Hnil]; subst.
inversion Hnil; subst. cbn [map]. rewrite Hsy.
cbn in Hs. injection Hs as <- <- <- <-. reflexivity.
Defined.

Lemma rnn_format_x_keeps_samples_witness :
  let h : heap nat := [map SVal (seq 0 12)] in
  let x := mk_ndarray 0 0 [2; 1; 3; 2] in
  exists ys,
    Utils.rnn_format_x [x] h = (Returned ys, h) /\
    map (rows h) ys = [rows h x].
Proof.
intros h x.
destruct (FormatFacts.rnn_format_x_keeps_samples nat h [x]
            (Forall_cons _ (eq_refl : List.length (shape x) = 4) (Forall_nil _)))
  as (ys & Hys & Hall).
exists ys. split; [exact Hys|].
inversion Hall as [|? y ? ? [Hr _] Hnil]; subst.
inversion Hnil; subst. cbn [map]. rewrite Hr. reflexivity.
Defined.

Lemma format_x_refuses_other_ranks_witness :
  let h : heap nat := [map SVal (seq 0 12)] in
  Utils.rnn_format_x [mk_ndarray 0 0 [1; 2; 3; 2]; mk_ndarray 0 0 [12]] h
  = (Raised ValueError, h).
Proof.
intros h.
refine (proj1 (FormatFacts.format_x_refuses_other_ranks nat h _ _)).
apply Exists_cons_tl, Exists_cons_hd. cbn. discriminate.
Defined.

(* ------------------------------------------------------------------ *)
(** ** split_data: arrays of other lengths, order and trimming *)

Module SplitMore.
Import SplitSpec.

Section General.

Variable A : Type.
Variable h : heap A.
Variable n : nat.
Variable perm : list nat.
Variable k : Z.
Hypothesis Hperm : Forall (fun j => j < n) perm.
Hypothesis Hlen : List.length perm = n.

Let idx : ndarray := mk_ndarray (List.length h) 0 [n].
Let h1 : heap A := h ++ [map int_scalar perm].
Let k' : nat := slice_bound n k.
Let ga : list nat := firstn k' perm.
Let gb : list nat := skipn k' perm.

Lemma parts_below m :
  n <= m -> Forall (fun j => j < m) ga /\ Forall (fun j => j < m) gb.
Proof.
intros Hm. apply Forall_app. unfold ga, gb. rewrite firstn_skipn.
eapply Forall_impl; [|exact Hperm]. intros j Hj. cbv beta in Hj. lia.
Qed.

(** Lines 27-28 for an array of at least [n] rows. *)
Lemma split_one_rows hs d m rest xs :
  extends h1 hs -> shape d = m :: rest -> n <= m -> ravel h d = Some xs ->
  exists a b hs',
    Utils.split_one idx k d hs = (Returned (a, b), hs') /\
    extends hs hs' /\
    forall hf, extends hs' hf ->
      rows hf a = Some (map (block (prod_dims rest) xs) ga) /\
      rows hf b = Some (map (block (prod_dims rest) xs) gb).
Proof.
intros Hext Hs Hm Hxs. destruct (parts_below m Hm) as [Hpa Hpb].
assert (Hh : extends h hs).
{ eapply ArrayFacts.extends_trans; [|exact Hext]. eexists. reflexivity. }
assert (Hsz : List.length xs = m * prod_dims rest).
{ rewrite (ArrayFacts.ravel_length A h d xs Hxs). unfold size. rewrite Hs.
  reflexivity. }
set (ba := flat_map (block (prod_dims rest) xs) ga).
set (bb := flat_map (block (prod_dims rest) xs) gb).
assert (Hext2 : extends h1 (hs ++ [ba])).
{ eapply ArrayFacts.extends_trans; [exact Hext|]. eexists. reflexivity. }
assert (Hh2 : extends h (hs ++ [ba])).
{ eapply ArrayFacts.extends_trans; [exact Hh|]. eexists. reflexivity. }
exists (mk_ndarray (List.length hs) 0 (List.length ga :: rest)),
       (mk_ndarray (List.length (hs ++ [ba])) 0 (List.length gb :: rest)),
       ((hs ++ [ba]) ++ [bb]).
split; [|split].
- unfold Utils.split_one, bind, lift, slice_to, slice_from, idx.
  cbn [shape buf off]. fold k'.
  rewrite (ArrayFacts.np_take_selection A hs d
             (mk_ndarray (List.length h) 0 [k']) m rest k' xs ga
             Hs (ArrayFacts.ravel_extends A h hs d xs Hh Hxs) eq_refl
             (SplitFacts.ravel_idx_prefix A h n perm k Hlen hs Hext) Hpa).
  cbv beta iota. fold ba.
  rewrite (ArrayFacts.np_take_selection A (hs ++ [ba]) d
             (mk_ndarray (List.length h) (0 + k' * prod_dims []) [n - k'])
             m rest (n - k') xs gb
             Hs (ArrayFacts.ravel_extends A h _ d xs Hh2 Hxs) eq_refl
             (SplitFacts.ravel_idx_suffix A h n perm k Hlen (hs ++ [ba]) Hext2)
             Hpb).
  cbv beta iota. reflexivity.
- rewrite <- app_assoc. eexists. reflexivity.
- intros hf Hf. split.
  + apply (ArrayFacts.rows_of_taken A hs hf xs m rest _ Hsz Hpa).
    eapply ArrayFacts.extends_trans; [|exact Hf]. eexists. reflexivity.
  + apply (ArrayFacts.rows_of_taken A (hs ++ [ba]) hf xs m rest _ Hsz Hpb).
    exact Hf.
Qed.

Lemma split_loop_rows : forall ds hs,
  extends h1 hs ->
  Forall (fun d => exists rs, rows h d = Some rs /\ n <= List.length rs) ds ->
  exists ab hs',
    for_each (Utils.split_one idx k) ds hs = (Returned ab, hs') /\
    extends hs hs' /\
    forall hf, extends hs' hf -> Forall2 (Utils.grouped h hf ga gb) ds ab.
Proof.
induction ds as [|d ds IH]; intros hs Hext Hall.
- exists [], hs. split; [reflexivity|]. split; [apply ArrayFacts.extends_refl|].
  intros hf _. constructor.
- destruct (Forall_inv Hall) as (rs & Hrs & Hn).
  pose proof (Forall_inv_tail Hall) as Hall'.
  destruct (SplitFacts.rows_inv A h d rs Hrs) as (m & rest & xs & Hs & Hxs & Hrs').
  assert (Hm : n <= m)
    by (rewrite Hrs', length_map, length_seq in Hn; exact Hn).
  destruct (split_one_rows hs d m rest xs Hext Hs Hm Hxs)
    as (a & b & hs1 & Hone & Hext1 & Hrows).
  destruct (IH hs1 (ArrayFacts.extends_trans A _ _ _ Hext Hext1) Hall')
    as (ab & hs2 & Hloop & Hext2 & Hrest).
  exists ((a, b) :: ab), hs2. split; [|split].
  + cbn [for_each]. unfold bind. rewrite Hone, Hloop. reflexivity.
  + eapply ArrayFacts.extends_trans; eassumption.
  + intros hf Hf. constructor; [|apply Hrest; exact Hf].
    destruct (Hrows hf (ArrayFacts.extends_trans A _ _ _ Hext2 Hf)) as [Ha Hb].
    destruct (parts_below m Hm) as [Hpa Hpb].
    exists rs. cbn [fst snd]. split; [exact Hrs|].
    rewrite Hrs', <- !(SplitFacts.select_rows A m) by assumption.
    split; assumption.
Qed.

End General.

Section Reduce.

Variable A : Type.
Variable rng : nat -> list nat.
Implicit Type h : heap A.

(** [split_data] up to its trimming step, for a list whose first array
    has [n] rows and whose other arrays have at least [n]. *)
Lemma split_data_reduces h d0 ds (split : Q) (random : bool) n :
  (random = true -> Permutation (rng n) (seq 0 n)) ->
  (exists rs, rows h d0 = Some rs /\ List.length rs = n) ->
  Forall (fun d => exists rs, rows h d = Some rs /\ n <= List.length rs)
         (d0 :: ds) ->
  let perm := if random then rng n else seq 0 n in
  let k' := slice_bound n (int_of ((1 - split) * inject_Z (Z.of_nat n))%Q) in
  exists ab h',
    (forall batch_size,
        Utils.split_data rng (d0 :: ds) split random batch_size h
        = Utils.trim batch_size (map fst ab) (map snd ab) h') /\
    extends h h' /\
    Forall2 (Utils.grouped h h' (firstn k' perm) (skipn k' perm)) (d0 :: ds) ab.
Proof.
intros Hrng (rs0 & Hrs0 & Hn0) Hrows perm k'.
destruct (SplitFacts.rows_inv A h d0 rs0 Hrs0) as (m & rest & xs & Hs & _ & Hrs0').
assert (Hm : m = n) by (rewrite Hrs0', length_map, length_seq in Hn0; exact Hn0).
rewrite Hm in Hs. clear Hm Hrs0' Hn0 Hrs0 rs0 xs m.
assert (Hp : Permutation perm (seq 0 n))
  by (unfold perm; destruct random; [exact (Hrng eq_refl) | reflexivity]).
pose proof (SplitFacts.perm_in_range n perm Hp) as Hr.
assert (Hl : List.length perm = n)
  by (rewrite (Permutation_length Hp); apply length_seq).
set (k := int_of ((1 - split) * inject_Z (Z.of_nat n))%Q) in *.
destruct (split_loop_rows A h n perm k Hr Hl (d0 :: ds)
            (h ++ [map int_scalar perm])
            (ArrayFacts.extends_refl A _) Hrows)
  as (ab & h' & Hloop & Hext & Hg).
specialize (Hg h' (ArrayFacts.extends_refl A _)).
exists ab, h'. split; [|split].
- intros batch_size. unfold Utils.split_data. rewrite Hs. fold k.
  unfold np_arange, alloc. unfold bind at 1. unfold bind at 1.
  unfold ret at 1. cbv beta iota. unfold bind at 1.
  assert (Hsh : (if random
                 then np_shuffle rng (mk_ndarray (List.length h) 0 [n])
                 else ret tt)
                  (@app (buffer A) h
                        (@cons (buffer A) (map int_scalar (seq 0 n)) nil))
                = (Returned tt, h ++ [map int_scalar perm])).
  { unfold perm. destruct random; [|reflexivity].
    apply SplitFacts.shuffle_fresh_arange. exact Hr. }
  rewrite Hsh. unfold bind. rewrite Hloop. reflexivity.
- eapply ArrayFacts.extends_trans; [|exact Hext]. eexists. reflexivity.
- exact Hg.
Qed.

Lemma block_firstn w (xs : list (scalar A)) t j :
  j < t -> block w (firstn (t * w) xs) j = block w xs j.
Proof.
intros Hj. unfold block. rewrite skipn_firstn_comm, firstn_firstn.
f_equal. nia.
Qed.

Lemma firstn_seq_0 t m : t <= m -> firstn t (seq 0 m) = seq 0 t.
Proof.
intros Ht. replace m with (t + (m - t)) by lia.
rewrite seq_app, firstn_app, length_seq, Nat.sub_diag. cbn [firstn].
rewrite app_nil_r. rewrite <- (length_seq t 0) at 1. apply firstn_all.
Qed.

(** [a[:k]] holds the first rows of [a]. *)
Lemma rows_slice_to (hf : heap A) a rs kk :
  rows hf a = Some rs ->
  exists a',
    slice_to a kk = Returned a' /\
    rows hf a' = Some (firstn (slice_bound (List.length rs) kk) rs).
Proof.
intros Hrs.
destruct (SplitFacts.rows_inv A hf a rs Hrs) as (m & rest & xs & Hs & Hxs & ->).
rewrite length_map, length_seq.
set (t := slice_bound m kk).
assert (Ht : t <= m) by (unfold t, slice_bound; destruct (Z.ltb_spec kk 0); lia).
exists (mk_ndarray (buf a) (off a) (t :: rest)). split.
- unfold slice_to. rewrite Hs. reflexivity.
- unfold rows. cbn [shape].
  assert (Hr : ravel hf (mk_ndarray (buf a) (off a) (t :: rest))
               = Some (firstn (t * prod_dims rest) xs)).
  { unfold ravel, size in *. cbn [buf off shape] in *. rewrite Hs in Hxs.
    cbn [prod_dims fold_right] in *. fold (prod_dims rest) in *.
    destruct (nth_error hf (buf a)) as [b|]; [|discriminate].
    destruct (Nat.leb_spec (off a + m * prod_dims rest) (List.length b));
      [|discriminate].
    injection Hxs as <-.
    destruct (Nat.leb_spec (off a + t * prod_dims rest) (List.length b));
      [|nia].
    rewrite firstn_firstn. do 2 f_equal. nia. }
  rewrite Hr, firstn_map, (firstn_seq_0 t m Ht). f_equal.
  apply map_ext_in. intros j Hj. apply in_seq in Hj.
  apply block_firstn. lia.
Qed.

(** Lines 39-40 over one of the two lists. *)
Lemma slice_all (hf : heap A) kk {X} (R : X -> list (list (scalar A))) :
  forall (l : list X) (arrs : list ndarray),
  Forall2 (fun x a => rows hf a = Some (R x)) l arrs ->
  exists arrs',
    for_each (fun a => lift (slice_to a kk)) arrs hf = (Returned arrs', hf) /\
    Forall2 (fun x a' =>
               rows hf a' = Some (firstn (slice_bound (List.length (R x)) kk)
                                         (R x))) l arrs'.
Proof.
induction 1 as [|x a l arrs Ha _ IH].
- exists []. split; [reflexivity | constructor].
- destruct IH as (arrs' & Hrun & Hall).
  destruct (rows_slice_to hf a (R x) kk Ha) as (a' & Hs & Hr).
  exists (a' :: arrs'). split.
  + cbn [for_each]. unfold bind at 1, lift at 1. rewrite Hs.
    unfold bind. rewrite Hrun. reflexivity.
  + constructor; assumption.
Qed.

Lemma slice_bound_kept (bs : Z) m :
  (0 < bs)%Z -> slice_bound m (- (Z.of_nat m mod bs)) = kept_rows bs m.
Proof.
intros Hbs. unfold slice_bound, kept_rows.
pose proof (Z.mod_pos_bound (Z.of_nat m) bs Hbs) as Hr.
assert (Hle : (Z.of_nat m mod bs <= Z.of_nat m)%Z)
  by (apply Z.mod_le; lia).
destruct (Z.eqb_spec (Z.of_nat m mod bs) 0) as [E|E].
- rewrite E. cbn. lia.
- destruct (Z.ltb_spec (- (Z.of_nat m mod bs)) 0); lia.
Qed.

Lemma kept_rows_multiple (bs : Z) m :
  (0 < bs)%Z ->
  kept_rows bs m <= m /\ (Z.of_nat (kept_rows bs m) mod bs = 0)%Z.
Proof.
intros Hbs. unfold kept_rows.
pose proof (Z.mod_pos_bound (Z.of_nat m) bs Hbs) as Hr.
assert (Hle : (Z.of_nat m mod bs <= Z.of_nat m)%Z)
  by (apply Z.mod_le; lia).
destruct (Z.eqb_spec (Z.of_nat m mod bs) 0) as [E|E].
- split; [lia | reflexivity].
- split; [lia|].
  replace (Z.of_nat (m - Z.to_nat (Z.of_nat m mod bs)))
    with (Z.of_nat m - Z.of_nat m mod bs)%Z by lia.
  rewrite Zminus_mod_idemp_r, Z.sub_diag. apply Z.mod_0_l. lia.
Qed.

Lemma pick_seq (rs : list (list (scalar A))) m :
  m <= List.length rs -> pick rs (seq 0 m) = firstn m rs.
Proof.
intros Hm. unfold pick. apply nth_ext with (d := []) (d' := []).
- rewrite length_map, length_seq, length_firstn. lia.
- rewrite length_map, length_seq. intros i Hi.
  rewrite (nth_indep _ [] ((fun j => nth j rs []) 0))
    by (rewrite length_map, length_seq; exact Hi).
  rewrite (map_nth (fun j => nth j rs [])), seq_nth by exact Hi.
  cbn [Nat.add]. rewrite nth_firstn.
  destruct (Nat.ltb_spec i m); [reflexivity | lia].
Qed.

Lemma grouped_first h h' ga gb (l : list ndarray) ab :
  Forall2 (Utils.grouped h h' ga gb) l ab ->
  Forall2 (fun d a => rows h' a
                      = Some (match rows h d with
                              | Some rs => pick rs ga
                              | None => []
                              end)) l (map fst ab).
Proof.
intros Hg. apply SplitFacts.Forall2_fst. eapply Forall2_impl; [|exact Hg].
intros d p0 (rs & H1 & H2 & _). rewrite H1. exact H2.
Qed.

Lemma grouped_second h h' ga gb (l : list ndarray) ab :
  Forall2 (Utils.grouped h h' ga gb) l ab ->
  Forall2 (fun d b => rows h' b
                      = Some (match rows h d with
                              | Some rs => pick rs gb
                              | None => []
                              end)) l (map snd ab).
Proof.
intros Hg. apply SplitFacts.Forall2_snd. eapply Forall2_impl; [|exact Hg].
intros d p0 (rs & H1 & _ & H3). rewrite H1. exact H3.
Qed.

Lemma Forall2_with_left {X Y} (P : X -> Prop) (R : X -> Y -> Prop) l l' :
  Forall P l -> Forall2 R l l' -> Forall2 (fun x y => P x /\ R x y) l l'.
Proof.
intros HP HR. induction HR as [|x y l l' Hxy _ IH]; constructor.
- split; [exact (Forall_inv HP) | exact Hxy].
- apply IH. exact (Forall_inv_tail HP).
Qed.

Lemma first_dim (hf : heap A) a rs :
  rows hf a = Some rs -> exists rest, shape a = List.length rs :: rest.
Proof.
intros Hrs.
destruct (SplitFacts.rows_inv A hf a rs Hrs) as (m & rest & xs & Hs & _ & ->).
exists rest. rewrite length_map, length_seq. exact Hs.
Qed.

(** X12: without shuffling and trimming, [split_data] cuts every array
    in place: the first output holds its first k rows and the second its
    rows k to n-1, in their order, where n is the row count of the first
    array of the list and k the same cut for all arrays.  Rows beyond n of
    a longer array are dropped silently. *)
Theorem split_data_keeps_order h d0 ds (split : Q) n :
  (exists rs, rows h d0 = Some rs /\ List.length rs = n) ->
  Forall (fun d => exists rs, rows h d = Some rs /\ n <= List.length rs)
         (d0 :: ds) ->
  exists k split_a split_b h',
    Utils.split_data rng (d0 :: ds) split false None h
    = (Returned (split_a, split_b), h') /\
    k <= n /\
    Forall2 (fun d a => exists rs, rows h d = Some rs /\
                          rows h' a = Some (firstn k rs))
            (d0 :: ds) split_a /\
    Forall2 (fun d b => exists rs, rows h d = Some rs /\
                          rows h' b = Some (skipn k (firstn n rs)))
            (d0 :: ds) split_b.
Proof.
intros H0 Hall.
destruct (split_data_reduces h d0 ds split false n
            ltac:(discriminate) H0 Hall) as (ab & h' & Hrun & _ & Hg).
cbv zeta in Hg. cbn iota in Hg.
set (k := slice_bound n (int_of ((1 - split) * inject_Z (Z.of_nat n))%Q)) in *.
assert (Hk : k <= n)
  by (unfold k, slice_bound; match goal with
      | |- context [(?z <? 0)%Z] => destruct (Z.ltb_spec z 0); lia end).
exists k, (map fst ab), (map snd ab), h'.
split; [rewrite Hrun; reflexivity|]. split; [exact Hk|].
pose proof (Forall2_with_left _ _ _ _ Hall Hg) as Hg'.
split.
- apply SplitFacts.Forall2_fst.
  eapply Forall2_impl; [|exact Hg'].
  intros d p0 [(rs' & H1' & Hn) (rs & H1 & H2 & _)].
  rewrite H1 in H1'. injection H1' as <-.
  exists rs. split; [exact H1|].
  rewrite H2. f_equal. fold (pick rs (firstn k (seq 0 n))).
  rewrite (firstn_seq_0 k n Hk). apply pick_seq. lia.
- apply SplitFacts.Forall2_snd.
  eapply Forall2_impl; [|exact Hg'].
  intros d p0 [(rs' & H1' & Hn) (rs & H1 & _ & H3)].
  rewrite H1 in H1'. injection H1' as <-.
  exists rs. split; [exact H1|].
  rewrite H3. f_equal. fold (pick rs (skipn k (seq 0 n))).
  unfold pick. rewrite <- skipn_map. fold (pick rs (seq 0 n)).
  rewrite (pick_seq rs n Hn). reflexivity.
Qed.

(** X13: with a positive [batch_size], [split_data] cuts the one index
    order into [ga ++ gb] and keeps, of the rows picked by [ga] (and
    likewise [gb]), those before the trailing remainder: a multiple of
    [batch_size] rows, the same rows for every array of the list, and no
    row at all when the group size is already a multiple. *)
Theorem split_data_trims_groups h d0 ds (split : Q) (random : bool) n
        (batch_size : Z) :
  (random = true -> Permutation (rng n) (seq 0 n)) ->
  (exists rs, rows h d0 = Some rs /\ List.length rs = n) ->
  Forall (fun d => exists rs, rows h d = Some rs /\ n <= List.length rs)
         (d0 :: ds) ->
  (0 < batch_size)%Z ->
  exists ga gb split_a split_b h',
    Utils.split_data rng (d0 :: ds) split random (Some batch_size) h
    = (Returned (split_a, split_b), h') /\
    ga ++ gb = (if random then rng n else seq 0 n) /\
    Forall2 (fun d a =>
               exists rs, rows h d = Some rs /\
                 rows h' a = Some (firstn (kept_rows batch_size (List.length ga))
                                          (pick rs ga)))
            (d0 :: ds) split_a /\
    Forall2 (fun d b =>
               exists rs, rows h d = Some rs /\
                 rows h' b = Some (firstn (kept_rows batch_size (List.length gb))
                                          (pick rs gb)))
            (d0 :: ds) split_b /\
    (Z.of_nat (kept_rows batch_size (List.length ga)) mod batch_size = 0)%Z /\
    (Z.of_nat (kept_rows batch_size (List.length gb)) mod batch_size = 0)%Z.
Proof.
intros Hrng H0 Hall Hbs.
destruct (split_data_reduces h d0 ds split random n Hrng H0 Hall)
  as (ab & h' & Hrun & _ & Hg).
cbv zeta in Hg.
set (perm := if random then rng n else seq 0 n) in *.
set (k := slice_bound n (int_of ((1 - split) * inject_Z (Z.of_nat n))%Q)) in *.
set (ga := firstn k perm) in *. set (gb := skipn k perm) in *.
pose proof (grouped_first h h' ga gb _ _ Hg) as Ha.
pose proof (grouped_second h h' ga gb _ _ Hg) as Hb.
pose proof (Forall2_with_left _ _ _ _ Hall Hg) as Hg'.
(* the first pair fixes the two remainders *)
destruct ab as [|[a0 b0] ab]; [inversion Hg|].
assert (Hga : exists rest, shape a0 = List.length ga :: rest).
{ inversion Hg as [|? ? ? ? (rs & _ & H2 & _) _]; subst.
  destruct (first_dim h' a0 _ H2) as [rest Hs].
  exists rest. rewrite Hs. unfold pick. rewrite length_map. reflexivity. }
assert (Hgb : exists rest, shape b0 = List.length gb :: rest).
{ inversion Hg as [|? ? ? ? (rs & _ & _ & H3) _]; subst.
  destruct (first_dim h' b0 _ H3) as [rest Hs].
  exists rest. rewrite Hs. unfold pick. rewrite length_map. reflexivity. }
destruct Hga as [resta Hsa]. destruct Hgb as [restb Hsb].
destruct (slice_all h' (- (Z.of_nat (List.length ga) mod batch_size)) _ _ _ Ha)
  as (sa & Hra & Hfa).
destruct (slice_all h' (- (Z.of_nat (List.length gb) mod batch_size)) _ _ _ Hb)
  as (sb & Hrb & Hfb).
exists ga, gb, sa, sb, h'.
split; [|split; [apply firstn_skipn|split; [|split]]].
- rewrite Hrun. unfold Utils.trim.
  destruct (Z.eqb_spec batch_size 0); [lia|].
  cbn [map fst snd]. rewrite Hsa, Hsb. cbv zeta.
  unfold bind at 1. cbn [map fst snd] in Hra, Hrb. rewrite Hra.
  unfold bind at 1. rewrite Hrb. reflexivity.
- pose proof (Forall2_with_left _ _ _ _ Hall Hfa) as Hfa'.
  eapply Forall2_impl; [|exact Hfa'].
  intros d a [(rs & H1 & _) H2]. exists rs. split; [exact H1|].
  rewrite H1 in H2. unfold pick in H2 at 1. rewrite length_map in H2.
  rewrite slice_bound_kept in H2 by exact Hbs. exact H2.
- pose proof (Forall2_with_left _ _ _ _ Hall Hfb) as Hfb'.
  eapply Forall2_impl; [|exact Hfb'].
  intros d b [(rs & H1 & _) H2]. exists rs. split; [exact H1|].
  rewrite H1 in H2. unfold pick in H2 at 1. rewrite length_map in H2.
  rewrite slice_bound_kept in H2 by exact Hbs. exact H2.
- split; apply kept_rows_multiple; exact Hbs.
Qed.

End Reduce.

Section Short.

Variable A : Type.
Variable rng : nat -> list nat.
Implicit Type h : heap A.

Lemma resolve_indices_out m (js : list nat) :
  Exists (fun j => m <= j) js ->
  resolve_indices m (map (@int_scalar A) js) = None.
Proof.
induction 1 as [j js Hj|j js _ IH]; cbn [map resolve_indices].
- unfold int_scalar at 1, resolve_index.
  destruct (Z.leb_spec 0 (Z.of_nat j)); [|lia].
  destruct (Z.ltb_spec (Z.of_nat j) (Z.of_nat m)); [lia|].
  cbn [andb].
  destruct (Z.leb_spec (- Z.of_nat m) (Z.of_nat j));
    destruct (Z.ltb_spec (Z.of_nat j) 0); try lia; reflexivity.
- rewrite IH. destruct (resolve_index m (int_scalar j)); reflexivity.
Qed.

Lemma below_or_out m (js : list nat) :
  Forall (fun j => j < m) js \/ Exists (fun j => m <= j) js.
Proof.
induction js as [|j js [IH|IH]].
- left. constructor.
- destruct (Nat.lt_ge_cases j m) as [Hj|Hj].
  + left. constructor; assumption.
  + right. apply Exists_cons_hd. exact Hj.
- right. apply Exists_cons_tl. exact IH.
Qed.

(** Whatever fails in lines 27-28 is an index error. *)
Lemma split_one_raises_IndexError idx k d h e hs' :
  Utils.split_one idx k d h = (Raised e, hs') -> e = IndexError.
Proof.
assert (Htake : forall a i (g : heap A) e1 g1,
          np_take a i g = (Raised e1, g1) -> e1 = IndexError).
{ intros a i g e1 g1. unfold np_take.
  destruct (shape a) as [|? ?]; [intros [= <- _]; reflexivity|].
  destruct (shape i) as [|? [|? ?]]; try (intros [= <- _]; reflexivity).
  destruct (ravel g a); [|intros [= <- _]; reflexivity].
  destruct (ravel g i) as [ss|]; [|intros [= <- _]; reflexivity].
  destruct (resolve_indices _ ss); [|intros [= <- _]; reflexivity].
  cbn. discriminate. }
unfold Utils.split_one, bind, lift, slice_to, slice_from.
destruct (shape idx) as [|m rest]; [intros [= <- _]; reflexivity|].
destruct (np_take d _ h) as [[a|e1] h1] eqn:E1;
  [|intros [= <- _]; exact (Htake _ _ _ _ _ E1)].
destruct (np_take d _ h1) as [[b|e2] h2] eqn:E2;
  [discriminate | intros [= <- _]; exact (Htake _ _ _ _ _ E2)].
Qed.

Lemma np_take_out (g : heap A) a i m rest t xs (js : list nat) :
  shape a = m :: rest -> ravel g a = Some xs ->
  shape i = [t] -> ravel g i = Some (map int_scalar js) ->
  Exists (fun j => m <= j) js ->
  np_take a i g = (Raised IndexError, g).
Proof.
intros Ha Hxs Hi Hjs Hout. unfold np_take.
rewrite Ha, Hi, Hxs, Hjs, (resolve_indices_out m js Hout). reflexivity.
Qed.

(** Lines 27-28 for an array of fewer rows than the index array has
    entries: one of the two selections is out of bounds. *)
Lemma split_one_short h n perm k hs d m rest xs :
  Permutation perm (seq 0 n) ->
  extends (h ++ [map int_scalar perm]) hs ->
  shape d = m :: rest -> m < n -> ravel h d = Some xs ->
  exists hs',
    Utils.split_one (mk_ndarray (List.length h) 0 [n]) k d hs
    = (Raised IndexError, hs').
Proof.
intros Hp Hext Hs Hm Hxs.
assert (Hl : List.length perm = n)
  by (rewrite (Permutation_length Hp); apply length_seq).
set (k' := slice_bound n k).
assert (Hout : Exists (fun j => m <= j) (firstn k' perm)
               \/ Exists (fun j => m <= j) (skipn k' perm)).
{ apply Exists_app. rewrite firstn_skipn. apply Exists_exists.
  exists m. split; [|lia].
  apply (Permutation_in _ (Permutation_sym Hp)), in_seq. lia. }
assert (Hh : extends h hs).
{ eapply ArrayFacts.extends_trans; [|exact Hext]. eexists. reflexivity. }
unfold Utils.split_one, bind, lift, slice_to, slice_from.
cbn [shape buf off]. fold k'.
destruct (below_or_out m (firstn k' perm)) as [Hin|Hout1].
- destruct Hout as [Hout|Hout].
  { exfalso. apply Exists_exists in Hout. destruct Hout as (j & Hj & Hge).
    rewrite Forall_forall in Hin. specialize (Hin j Hj). lia. }
  rewrite (ArrayFacts.np_take_selection A hs d
             (mk_ndarray (List.length h) 0 [k']) m rest k' xs (firstn k' perm)
             Hs (ArrayFacts.ravel_extends A h hs d xs Hh Hxs) eq_refl
             (SplitFacts.ravel_idx_prefix A h n perm k Hl hs Hext) Hin).
  cbv beta iota.
  set (ba := flat_map (block (prod_dims rest) xs) (firstn k' perm)).
  assert (Hext2 : extends (h ++ [map int_scalar perm]) (hs ++ [ba])).
  { eapply ArrayFacts.extends_trans; [exact Hext|]. eexists. reflexivity. }
  assert (Hh2 : extends h (hs ++ [ba])).
  { eapply ArrayFacts.extends_trans; [exact Hh|]. eexists. reflexivity. }
  rewrite (np_take_out (hs ++ [ba]) d
             (mk_ndarray (List.length h) (0 + k' * prod_dims []) [n - k'])
             m rest (n - k') xs (skipn k' perm)
             Hs (ArrayFacts.ravel_extends A h _ d xs Hh2 Hxs) eq_refl
             (SplitFacts.ravel_idx_suffix A h n perm k Hl (hs ++ [ba]) Hext2)
             Hout).
  eexists. reflexivity.
- rewrite (np_take_out hs d
             (mk_ndarray (List.length h) 0 [k']) m rest k' xs (firstn k' perm)
             Hs (ArrayFacts.ravel_extends A h hs d xs Hh Hxs) eq_refl
             (SplitFacts.ravel_idx_prefix A h n perm k Hl hs Hext) Hout1).
  eexists. reflexivity.
Qed.

Lemma split_loop_short h n perm k :
  Permutation perm (seq 0 n) ->
  forall ds hs,
  extends (h ++ [map int_scalar perm]) hs ->
  Exists (fun d => exists rs, rows h d = Some rs /\ List.length rs < n) ds ->
  fst (for_each (Utils.split_one (mk_ndarray (List.length h) 0 [n]) k) ds hs)
  = Raised IndexError.
Proof.
intros Hp. induction ds as [|d ds IH]; intros hs Hext Hex.
- inversion Hex.
- cbn [for_each]. unfold bind at 1.
  pose proof (ArrayFacts.keeps_split_one A (h ++ [map int_scalar perm])
                (mk_ndarray (List.length h) 0 [n]) k d hs Hext) as Hk.
  destruct (Utils.split_one _ k d hs) as [[p0|e] hs1] eqn:E; cbn [snd] in Hk.
  + inversion Hex as [? ? (rs & Hrs & Hn)|? ? Hl]; subst.
    * destruct (SplitFacts.rows_inv A h d rs Hrs)
        as (m & rest & xs & Hs & Hxs & Hrs').
      assert (Hm : m < n)
        by (rewrite Hrs', length_map, length_seq in Hn; exact Hn).
      destruct (split_one_short h n perm k hs d m rest xs Hp Hext Hs Hm Hxs)
        as [hs' Hr].
      rewrite Hr in E. discriminate.
    * unfold bind. specialize (IH hs1 Hk Hl).
      destruct (for_each _ ds hs1) as [[ab|e] hs2]; cbn [fst] in *;
        [discriminate | exact IH].
  + cbn [fst]. f_equal. exact (split_one_raises_IndexError _ _ _ _ _ _ E).
Qed.

(** X14: if some array of the list has fewer rows than the first one,
    [split_data] raises [IndexError], whatever the split fraction, the
    shuffle and the batch size. *)
Theorem split_data_short_array h d0 ds (split : Q) (random : bool)
        (batch_size : option Z) n :
  (random = true -> Permutation (rng n) (seq 0 n)) ->
  (exists rs, rows h d0 = Some rs /\ List.length rs = n) ->
  Exists (fun d => exists rs, rows h d = Some rs /\ List.length rs < n) ds ->
  fst (Utils.split_data rng (d0 :: ds) split random batch_size h)
  = Raised IndexError.
Proof.
intros Hrng (rs0 & Hrs0 & Hn0) Hex.
destruct (SplitFacts.rows_inv A h d0 rs0 Hrs0) as (m & rest & xs & Hs & _ & Hrs0').
assert (Hm : m = n) by (rewrite Hrs0', length_map, length_seq in Hn0; exact Hn0).
rewrite Hm in Hs. clear Hm Hrs0' Hn0 Hrs0 rs0 xs m.
set (perm := if random then rng n else seq 0 n).
assert (Hp : Permutation perm (seq 0 n))
  by (unfold perm; destruct random; [exact (Hrng eq_refl) | reflexivity]).
pose proof (SplitFacts.perm_in_range n perm Hp) as Hr.
set (k := int_of ((1 - split) * inject_Z (Z.of_nat n))%Q).
pose proof (split_loop_short h n perm k Hp (d0 :: ds)
              (h ++ [map int_scalar perm])
              (ArrayFacts.extends_refl A _)
              (Exists_cons_tl d0 Hex)) as Hloop.
unfold Utils.split_data. rewrite Hs. fold k.
unfold np_arange, alloc. unfold bind at 1. unfold bind at 1.
unfold ret at 1. cbv beta iota. unfold bind at 1.
assert (Hsh : (if random
               then np_shuffle rng (mk_ndarray (List.length h) 0 [n])
               else ret tt)
                (@app (buffer A) h
                      (@cons (buffer A) (map int_scalar (seq 0 n)) nil))
              = (Returned tt, h ++ [map int_scalar perm])).
{ unfold perm. destruct random; [|reflexivity].
  apply SplitFacts.shuffle_fresh_arange. exact Hr. }
rewrite Hsh. unfold bind.
destruct (for_each (Utils.split_one (mk_ndarray (List.length h) 0 [n]) k)
                   (d0 :: ds) (h ++ [map int_scalar perm]))
  as [[ab|e] h2]; cbn [fst] in *; [discriminate|].
injection Hloop as ->. reflexivity.
Qed.

End Short.
End SplitMore.

Lemma split_data_keeps_order_witness :
  let h : heap Z := [map SVal [10; 11; 12; 13; 14; 15; 16; 17]%Z;
                     map SVal [0; 1; 1; 0; 1]%Z] in
  let X := mk_ndarray 0 0 [4; 2] in
  let y := mk_ndarray 1 0 [5; 1] in
  exists k split_a split_b h',
    Utils.split_data (fun n => rev (seq 0 n)) [X; y] (1 # 4) false None h
    = (Returned (split_a, split_b), h') /\ k <= 4.
Proof.
intros h X y.
destruct (SplitMore.split_data_keeps_order Z (fun n => rev (seq 0 n)) h X [y]
            (1 # 4) 4
            ltac:(eexists; split; reflexivity)
            ltac:(repeat (apply Forall_cons;
                          [eexists; split; [reflexivity | cbn; lia]|]);
                  apply Forall_nil))
  as (k & sa & sb & h' & Hrun & Hk & _).
exists k, sa, sb, h'. split; [exact Hrun | exact Hk].
Defined.

Lemma split_data_trims_groups_witness :
  let h : heap Z := [map SVal [10; 11; 12; 13; 14; 15; 16; 17; 18; 19]%Z] in
  let X := mk_ndarray 0 0 [5; 2] in
  exists ga gb split_a split_b h',
    Utils.split_data (fun n => rev (seq 0 n)) [X] (1 # 5) true (Some 3%Z) h
    = (Returned (split_a, split_b), h') /\
    ga ++ gb = [4; 3; 2; 1; 0].
Proof.
intros h X.
destruct (SplitMore.split_data_trims_groups Z (fun n => rev (seq 0 n)) h X []
            (1 # 5) true 5 3%Z
            (fun _ => Permutation_sym (Permutation_rev (seq 0 5)))
            ltac:(eexists; split; reflexivity)
            ltac:(repeat (apply Forall_cons;
                          [eexists; split; [reflexivity | cbn; lia]|]);
                  apply Forall_nil)
            ltac:(reflexivity))
  as (ga & gb & sa & sb & h' & Hrun & Hcut & _).
exists ga, gb, sa, sb, h'. split; [exact Hrun | exact Hcut].
Defined.

Lemma split_data_short_array_witness :
  let h : heap Z := [map SVal [10; 11; 12; 13; 14; 15; 16; 17]%Z;
                     map SVal [0; 1; 1]%Z] in
  let X := mk_ndarray 0 0 [4; 2] in
  let y := mk_ndarray 1 0 [3; 1] in
  fst (Utils.split_data (fun n => seq 0 n) [X; y] (1 # 4) false None h)
  = Raised IndexError.
Proof.
intros h X y.
refine (SplitMore.split_data_short_array Z (fun n => seq 0 n) h X [y]
          (1 # 4) false None 4 _ _ _).
- discriminate.
- eexists. split; reflexivity.
- apply Exists_cons_hd. eexists. split; [reflexivity | cbn; lia].
Defined.

(* ------------------------------------------------------------------ *)
(** ** rnn_format_y: classes and one-hot rows *)

Module LabelFacts.
Import Labels.
Local Open Scope Z_scope.

Lemma insert_unique_In x l z :
  In z (insert_unique x l) <-> z = x \/ In z l.
Proof.
induction l as [|y l IH]; cbn [insert_unique].
- cbn. intuition congruence.
- destruct (Z.ltb_spec x y); [cbn; intuition congruence|].
  destruct (Z.eqb_spec x y) as [->|Hne]; cbn [In].
  + intuition congruence.
  + rewrite IH. intuition congruence.
Qed.

Lemma insert_unique_increasing x l :
  increasing l -> increasing (insert_unique x l).
Proof.
induction l as [|y l IH]; cbn [insert_unique increasing].
- intros _. split; [intros z []|exact I].
- intros [Hy Hl]. destruct (Z.ltb_spec x y) as [Hlt|Hge].
  + cbn [increasing]. split; [|split; assumption].
    intros z [<-|Hz]; [exact Hlt|]. specialize (Hy z Hz). lia.
  + destruct (Z.eqb_spec x y) as [->|Hne]; cbn [increasing].
    * split; assumption.
    * split; [|apply IH; exact Hl].
      intros z Hz. apply insert_unique_In in Hz.
      destruct Hz as [->|Hz]; [lia | apply Hy; exact Hz].
Qed.

Lemma np_unique_In y z : In z (np_unique y) <-> In z y.
Proof.
induction y as [|x y IH]; cbn [np_unique fold_right]; [tauto|].
fold (np_unique y). rewrite insert_unique_In, IH. cbn. intuition congruence.
Qed.

Lemma np_unique_increasing y : increasing (np_unique y).
Proof.
induction y as [|x y IH]; cbn [np_unique fold_right]; [exact I|].
apply insert_unique_increasing. exact IH.
Qed.

(** Two increasing lists with the same elements are the same list. *)
Lemma increasing_ext : forall l1 l2,
  increasing l1 -> increasing l2 ->
  (forall z, In z l1 <-> In z l2) -> l1 = l2.
Proof.
induction l1 as [|x l1 IH]; intros [|y l2] H1 H2 Hin.
- reflexivity.
- exfalso. apply (proj2 (Hin y)). left. reflexivity.
- exfalso. apply (proj1 (Hin x)). left. reflexivity.
- destruct H1 as [Hx H1]. destruct H2 as [Hy H2].
  assert (x = y).
  { destruct (proj1 (Hin x) (or_introl eq_refl)) as [E|Hxl2]; [congruence|].
    destruct (proj2 (Hin y) (or_introl eq_refl)) as [E|Hyl1]; [congruence|].
    specialize (Hx y Hyl1). specialize (Hy x Hxl2). lia. }
  subst y. f_equal. apply IH; [assumption | assumption |].
  intros z. split; intros Hz.
  + destruct (proj1 (Hin z) (or_intror Hz)) as [E|H]; [|exact H].
    subst z. specialize (Hx x Hz). lia.
  + destruct (proj2 (Hin z) (or_intror Hz)) as [E|H]; [|exact H].
    subst z. specialize (Hy x Hz). lia.
Qed.

Lemma class_index_In classes x :
  In x classes ->
  (class_index classes x < List.length classes)%nat /\
  nth_error classes (class_index classes x) = Some x.
Proof.
induction classes as [|c rest IH]; [intros []|].
intros Hin. cbn [class_index].
destruct (Z.eqb_spec c x) as [->|Hne].
- split; [cbn; lia | reflexivity].
- destruct Hin as [E|Hin]; [congruence|].
  destruct (IH Hin) as [Hlt Hnth]. split; [cbn; lia | exact Hnth].
Qed.

Lemma class_index_nth classes :
  increasing classes ->
  forall j x, nth_error classes j = Some x -> class_index classes x = j.
Proof.
induction classes as [|c rest IH]; intros Hinc j x Hj.
- destruct j; discriminate.
- destruct Hinc as [Hc Hrest]. cbn [class_index]. destruct j as [|j].
  + injection Hj as ->. rewrite Z.eqb_refl. reflexivity.
  + cbn in Hj. pose proof (nth_error_In _ _ Hj) as Hin.
    specialize (Hc x Hin).
    destruct (Z.eqb_spec c x); [lia|]. f_equal. apply IH; assumption.
Qed.

Lemma increasing_naturals m : increasing (map Z.of_nat (seq 0 m)).
Proof.
generalize 0%nat as s. induction m as [|m IH]; intros s; [exact I|].
cbn [seq map increasing]. split; [|apply IH].
intros y Hy. apply in_map_iff in Hy. destruct Hy as (j & <- & Hj).
apply in_seq in Hj. lia.
Qed.

(** The integer codes of a label array are 0 .. m-1, all of them. *)
Lemma codes_unique y :
  np_unique (map Z.of_nat (label_fit_transform y))
  = map Z.of_nat (seq 0 (List.length (np_unique y))).
Proof.
apply increasing_ext.
- apply np_unique_increasing.
- apply increasing_naturals.
- intros z. rewrite np_unique_In. unfold label_fit_transform.
  rewrite map_map, !in_map_iff. split.
  + intros (x & <- & Hx). exists (class_index (np_unique y) x).
    split; [reflexivity|]. apply in_seq.
    destruct (class_index_In (np_unique y) x) as [Hlt _];
      [apply np_unique_In; exact Hx | lia].
  + intros (j & <- & Hj). apply in_seq in Hj.
    destruct (nth_error (np_unique y) j) as [x|] eqn:E;
      [|apply nth_error_None in E; lia].
    exists x. split.
    * f_equal. apply class_index_nth; [apply np_unique_increasing | exact E].
    * apply np_unique_In. exact (nth_error_In _ _ E).
Qed.

Lemma class_index_naturals m c :
  (c < m)%nat -> class_index (map Z.of_nat (seq 0 m)) (Z.of_nat c) = c.
Proof.
intros Hc. apply class_index_nth; [apply increasing_naturals|].
rewrite nth_error_map, nth_error_seq.
destruct (Nat.ltb_spec c m); [reflexivity | lia].
Qed.

(** Lines 156-158 on one label array. *)
Lemma onehot_of_labels y :
  y <> [] ->
  onehot_fit_transform (label_fit_transform y)
  = Returned (map (fun x => one_hot (List.length (np_unique y))
                                    (class_index (np_unique y) x)) y).
Proof.
intros Hne. unfold onehot_fit_transform.
destruct (label_fit_transform y) as [|c codes] eqn:E.
- destruct y; [congruence | discriminate].
- rewrite <- E, codes_unique, length_map, length_seq.
  unfold label_fit_transform at 1. rewrite map_map. f_equal.
  apply map_ext_in. intros x Hx. f_equal.
  apply class_index_naturals.
  apply class_index_In, np_unique_In, Hx.
Qed.

Lemma one_hot_nth m j c :
  (c < m)%nat -> nth c (one_hot m j) 0 = if (c =? j)%nat then 1 else 0.
Proof.
intros Hc. unfold one_hot.
rewrite (nth_indep _ 0 ((fun c => if (c =? j)%nat then 1 else 0) 0%nat))
  by (rewrite length_map, length_seq; exact Hc).
rewrite (map_nth (fun c => if (c =? j)%nat then 1 else 0)), seq_nth by exact Hc.
reflexivity.
Qed.

(** X15: [rnn_format_y] encodes each non-empty label array on its own:
    the columns are the distinct labels of that array in increasing
    order, every label gets one row, and the row of a label has a one in
    the column of that label and zeros elsewhere. *)
Theorem rnn_format_y_one_hot (list_of_y : list (list Z)) :
  Forall (fun y => y <> []) list_of_y ->
  exists y_rnn,
    rnn_format_y list_of_y = Returned y_rnn /\
    Forall2 (fun y onehot =>
               increasing (np_unique y) /\
               (forall z, In z (np_unique y) <-> In z y) /\
               List.length onehot = List.length y /\
               forall i label, nth_error y i = Some label ->
                 exists row j,
                   nth_error onehot i = Some row /\
                   List.length row = List.length (np_unique y) /\
                   nth_error (np_unique y) j = Some label /\
                   forall c, (c < List.length (np_unique y))%nat ->
                     nth c row 0 = if (c =? j)%nat then 1 else 0)
            list_of_y y_rnn.
Proof.
induction 1 as [|y l Hy _ IH].
- exists []. split; [reflexivity | constructor].
- destruct IH as (y_rnn & Hrun & Hall).
  eexists. split.
  + cbn [rnn_format_y]. cbv zeta. rewrite (onehot_of_labels y Hy), Hrun.
    reflexivity.
  + constructor; [|exact Hall].
    split; [apply np_unique_increasing|].
    split; [apply np_unique_In|].
    split; [apply length_map|].
    intros i label Hi.
    exists (one_hot (List.length (np_unique y)) (class_index (np_unique y) label)),
           (class_index (np_unique y) label).
    split; [rewrite nth_error_map, Hi; reflexivity|].
    split; [unfold one_hot; rewrite length_map, length_seq; reflexivity|].
    split.
    * apply class_index_In, np_unique_In. exact (nth_error_In _ _ Hi).
    * intros c Hc. apply one_hot_nth. exact Hc.
Qed.

(** X16: an empty label array anywhere in the list makes [rnn_format_y]
    raise [ValueError]; no partial list is returned. *)
Theorem rnn_format_y_refuses_empty (list_of_y : list (list Z)) :
  Exists (fun y => y = []) list_of_y ->
  rnn_format_y list_of_y = Raised ValueError.
Proof.
induction list_of_y as [|y l IH]; intros Hex; [inversion Hex|].
cbn [rnn_format_y]. cbv zeta. destruct y as [|x y].
- reflexivity.
- rewrite (onehot_of_labels (x :: y)) by discriminate.
  inversion Hex as [? ? Hy|? ? Hl]; subst; [discriminate|].
  rewrite (IH Hl). reflexivity.
Qed.

Lemma insert_unique_map f x l :
  (forall a b, a < b -> f a < f b) ->
  insert_unique (f x) (map f l) = map f (insert_unique x l).
Proof.
intros Hf.
assert (Hinj : forall a b, f a = f b -> a = b).
{ intros a b E. destruct (Z.lt_total a b) as [H|[H|H]]; [|exact H|];
    apply Hf in H; lia. }
induction l as [|y l IH]; [reflexivity|].
cbn [map insert_unique].
destruct (Z.ltb_spec x y) as [Hlt|Hge].
- apply Hf in Hlt. destruct (Z.ltb_spec (f x) (f y)); [reflexivity | lia].
- destruct (Z.ltb_spec (f x) (f y)) as [Hlt'|_].
  + destruct (Z.eq_dec x y) as [->|Hne]; [lia|].
    assert (y < x) by lia. apply Hf in H. lia.
  + destruct (Z.eqb_spec x y) as [->|Hne].
    * rewrite Z.eqb_refl. reflexivity.
    * destruct (Z.eqb_spec (f x) (f y)) as [E|_];
        [apply Hinj in E; contradiction|].
      cbn [map]. rewrite IH. reflexivity.
Qed.

Lemma label_fit_transform_map f y :
  (forall a b, a < b -> f a < f b) ->
  label_fit_transform (map f y) = label_fit_transform y.
Proof.
intros Hf.
assert (Hinj : forall a b, f a = f b -> a = b).
{ intros a b E. destruct (Z.lt_total a b) as [H|[H|H]]; [|exact H|];
    apply Hf in H; lia. }
assert (Hu : np_unique (map f y) = map f (np_unique y)).
{ induction y as [|x y IH]; [reflexivity|].
  cbn [map np_unique fold_right]. fold (np_unique (map f y)).
  fold (np_unique y). rewrite IH. apply insert_unique_map. exact Hf. }
unfold label_fit_transform. rewrite Hu, map_map. apply map_ext.
clear Hu. intros x. induction (np_unique y) as [|c rest IH]; [reflexivity|].
cbn [map class_index].
destruct (Z.eqb_spec c x) as [->|Hne].
- rewrite Z.eqb_refl. reflexivity.
- destruct (Z.eqb_spec (f c) (f x)) as [E|_];
    [apply Hinj in E; contradiction|].
  rewrite IH. reflexivity.
Qed.

(** X17: the encoding keeps only the order of the labels of each array:
    two lists whose arrays differ by strictly increasing relabelings,
    possibly a different one for each array, get the same encoding. *)
Theorem rnn_format_y_forgets_labels (l l' : list (list Z)) :
  Forall2 (fun y y' => exists f, (forall a b, a < b -> f a < f b) /\
                                 y' = map f y) l l' ->
  rnn_format_y l' = rnn_format_y l.
Proof.
induction 1 as [|y y' l l' (f & Hf & ->) _ IH]; [reflexivity|].
cbn [rnn_format_y]. cbv zeta.
rewrite (label_fit_transform_map f y Hf), IH. reflexivity.
Qed.

End LabelFacts.

Lemma rnn_format_y_one_hot_witness :
  exists y_rnn,
    Labels.rnn_format_y [[1; 0; 1; 1]%Z; [5; 3; 9; 3]%Z] = Returned y_rnn /\
    List.length y_rnn = 2.
Proof.
destruct (LabelFacts.rnn_format_y_one_hot [[1; 0; 1; 1]%Z; [5; 3; 9; 3]%Z]
            ltac:(repeat (apply Forall_cons; [discriminate|]); apply Forall_nil))
  as (y_rnn & Hrun & Hall).
exists y_rnn. split; [exact Hrun|].
apply Forall2_length in Hall. symmetry. exact Hall.
Defined.

Lemma rnn_format_y_refuses_empty_witness :
  Labels.rnn_format_y [[1; 0; 1; 1]%Z; []] = Raised ValueError.
Proof.
apply LabelFacts.rnn_format_y_refuses_empty.
apply Exists_cons_tl, Exists_cons_hd. reflexivity.
Defined.

Lemma rnn_format_y_forgets_labels_witness :
  Labels.rnn_format_y [[1; 1; 1]%Z; [2; 7]%Z]
  = Labels.rnn_format_y [[0; 0; 0]%Z; [0; 1]%Z].
Proof.
apply LabelFacts.rnn_format_y_forgets_labels.
apply Forall2_cons.
- exists (fun z => z + 1)%Z. split; [intros a b H; lia | reflexivity].
- apply Forall2_cons; [|apply Forall2_nil].
  exists (fun z => 5 * z + 2)%Z. split; [intros a b H; lia | reflexivity].
Defined.

(* ------------------------------------------------------------------ *)
(** ** batch_cam *)

Module CamFacts.
Import Cam.

Section Batches.

Variable sample : Type.
Variable weight : Type.
Variable cmap : Type.
Variable resized_cam : list sample -> list weight -> Z -> list cmap.
Variable junk : nat -> cmap.

Lemma slice_bound_nat n a : slice_bound n (Z.of_nat a) = Nat.min a n.
Proof.
unfold slice_bound. destruct (Z.ltb_spec (Z.of_nat a) 0); [lia|].
rewrite Nat2Z.id. reflexivity.
Qed.

Lemma slice_batch {X} (d : list X) a c :
  slice d (Z.of_nat a) (Z.of_nat a + Z.of_nat c) = firstn c (skipn a d).
Proof.
unfold slice. cbv zeta. rewrite <- Nat2Z.inj_add, !slice_bound_nat.
destruct (Nat.le_gt_cases (List.length d) a) as [Hle|Hgt].
- rewrite (skipn_all2 d Hle).
  rewrite (skipn_all2 d) by lia. rewrite !firstn_nil. reflexivity.
- rewrite (Nat.min_l a) by lia.
  destruct (Nat.le_gt_cases (a + c) (List.length d)) as [Hc|Hc].
  + rewrite Nat.min_l by lia. f_equal. lia.
  + rewrite Nat.min_r by lia.
    rewrite !firstn_all2; [reflexivity | |]; rewrite length_skipn; lia.
Qed.

(** The result of batch [q], for the samples of [X] in batches of [b]. *)
Let result (X : list sample) (sw : list weight) (b q : nat) : list cmap :=
  resized_cam (batch_of (List.length X) b q X) (batch_of (List.length X) b q sw)
              (Z.of_nat (Nat.min b (List.length X - q * b))).

(** The body of the loop of [batch_cam]. *)
Let body (X : list sample) (sw : list weight) (batch_size : Z) (i : nat)
  : M (list cmap) unit :=
  let n := Z.of_nat (List.length X) in
  let i := Z.of_nat i in
  let cbs := Z.min batch_size (n - i * batch_size) in
  let x := slice X (i * batch_size) (i * batch_size + cbs) in
  let s := slice sw (i * batch_size) (i * batch_size + cbs) in
  set_slice (i * batch_size) (i * batch_size + cbs) (resized_cam x s cbs).

Lemma body_writes_batch (X : list sample) (sw : list weight) (b m : nat) cams :
  (forall x s cbs, List.length (resized_cam x s cbs) = Z.to_nat cbs) ->
  (m * b < List.length X)%nat ->
  List.length cams = List.length X ->
  body X sw (Z.of_nat b) m cams
  = (Returned tt,
     firstn (m * b) cams ++ result X sw b m
     ++ skipn (m * b + Nat.min b (List.length X - m * b)) cams).
Proof.
intros Hlen Hm Hc. unfold body. cbv zeta.
set (c := Nat.min b (List.length X - m * b)).
assert (Hcbs : Z.min (Z.of_nat b)
                 (Z.of_nat (List.length X) - Z.of_nat m * Z.of_nat b)
               = Z.of_nat c) by (unfold c; lia).
assert (Hlo : (Z.of_nat m * Z.of_nat b)%Z = Z.of_nat (m * b)) by lia.
rewrite Hcbs, Hlo, !slice_batch.
fold (batch_of (List.length X) b m X) (batch_of (List.length X) b m sw).
fold c. change (resized_cam _ _ (Z.of_nat c)) with (result X sw b m).
unfold set_slice. cbv zeta.
rewrite <- Nat2Z.inj_add, !slice_bound_nat, Hc.
rewrite (Nat.min_l (m * b)) by lia.
rewrite (Nat.min_l (m * b + c)) by (unfold c; lia).
replace (m * b + c - m * b)%nat with c by lia.
replace (List.length (result X sw b m)) with c
  by (unfold result; rewrite Hlen, Nat2Z.id; reflexivity).
rewrite Nat.eqb_refl, Nat.max_r by lia. reflexivity.
Qed.

Lemma batch_loop (X : list sample) (sw : list weight) (b : nat) :
  (0 < b)%nat ->
  (forall x s cbs, List.length (resized_cam x s cbs) = Z.to_nat cbs) ->
  forall len m cams,
    (forall i, (i < m + len)%nat -> (i * b < List.length X)%nat) ->
    List.length cams = List.length X ->
    (forall j, (j < List.length X)%nat ->
       nth_error cams j = if (j <? m * b)%nat
                          then nth_error (result X sw b (j / b)) (j mod b)
                          else Some (junk j)) ->
    exists us cams',
      for_each (body X sw (Z.of_nat b)) (seq m len) cams = (Returned us, cams') /\
      List.length cams' = List.length X /\
      forall j, (j < List.length X)%nat ->
        nth_error cams' j = if (j <? (m + len) * b)%nat
                            then nth_error (result X sw b (j / b)) (j mod b)
                            else Some (junk j).
Proof.
intros Hb Hlen. induction len as [|len IH]; intros m cams Hin Hc Hrows.
- exists [], cams. split; [reflexivity|]. split; [exact Hc|].
  rewrite Nat.add_0_r. exact Hrows.
- assert (Hm : (m * b < List.length X)%nat) by (apply Hin; lia).
  set (c := Nat.min b (List.length X - m * b)).
  assert (Hr : List.length (result X sw b m) = c)
    by (unfold result; rewrite Hlen, Nat2Z.id; reflexivity).
  destruct (IH (S m)
              (firstn (m * b) cams ++ result X sw b m ++ skipn (m * b + c) cams))
    as (us & cams' & Hrun & Hc' & Hrows').
  + intros i Hi. apply Hin. lia.
  + rewrite !length_app, length_firstn, length_skipn, Hr, Hc. unfold c. lia.
  + intros j Hj.
    destruct (Nat.ltb_spec j (S m * b)) as [Hlt|Hge].
    * destruct (Nat.lt_ge_cases j (m * b)) as [Hold|Hnew].
      -- rewrite nth_error_app1 by (rewrite length_firstn; lia).
         rewrite nth_error_firstn.
         destruct (Nat.ltb_spec j (m * b)) as [_|]; [|lia].
         rewrite (Hrows j Hj).
         destruct (Nat.ltb_spec j (m * b)) as [_|]; [reflexivity | lia].
      -- rewrite nth_error_app2 by (rewrite length_firstn; lia).
         rewrite length_firstn, Nat.min_l by lia.
         rewrite nth_error_app1 by (rewrite Hr; unfold c; lia).
         assert (Hq : (j / b = m)%nat)
           by (symmetry; apply (Nat.div_unique j b m (j - m * b)); lia).
         assert (Hmod : (j mod b = j - m * b)%nat)
           by (symmetry; apply (Nat.mod_unique j b m (j - m * b)); lia).
         rewrite Hq, Hmod. reflexivity.
    * rewrite nth_error_app2 by (rewrite length_firstn; lia).
      rewrite length_firstn, Nat.min_l by lia.
      rewrite nth_error_app2 by (rewrite Hr; unfold c; lia).
      rewrite Hr, nth_error_skipn.
      replace (m * b + c + (j - m * b - c))%nat with j by (unfold c; lia).
      rewrite (Hrows j Hj).
      destruct (Nat.ltb_spec j (m * b)) as [|_]; [lia | reflexivity].
  + exists (tt :: us), cams'. split; [|split].
    * cbn [seq for_each]. unfold bind at 1.
      rewrite (body_writes_batch X sw b m cams Hlen Hm Hc). fold c.
      unfold bind at 1. rewrite Hrun. reflexivity.
    * exact Hc'.
    * intros j Hj. rewrite (Hrows' j Hj).
      replace (S m + len)%nat with (m + S len)%nat by lia. reflexivity.
Qed.

Lemma junk_rows n j :
  (j < n)%nat -> nth_error (map junk (seq 0 n)) j = Some (junk j).
Proof.
intros Hj. rewrite nth_error_map, nth_error_seq.
destruct (Nat.ltb_spec j n); [reflexivity | lia].
Qed.

Lemma batch_cam_runs py (X : list sample) (sw : list weight) (b K : nat) :
  (0 < b)%nat ->
  (forall x s cbs, List.length (resized_cam x s cbs) = Z.to_nat cbs) ->
  n_batches py (Z.of_nat (List.length X)) (Z.of_nat b) = Returned (Z.of_nat K) ->
  (forall i, (i < K)%nat -> (i * b < List.length X)%nat) ->
  exists cams,
    batch_cam resized_cam junk py X sw (Z.of_nat b) = Returned cams /\
    List.length cams = List.length X /\
    forall j, (j < List.length X)%nat ->
      nth_error cams j = if (j <? K * b)%nat
                         then nth_error (result X sw b (j / b)) (j mod b)
                         else Some (junk j).
Proof.
intros Hb Hlen HK Hin.
destruct (batch_loop X sw b Hb Hlen K 0 (map junk (seq 0 (List.length X))))
  as (us & cams & Hrun & Hc & Hrows).
- exact Hin.
- rewrite length_map, length_seq. reflexivity.
- intros j Hj. rewrite (junk_rows _ _ Hj). reflexivity.
- exists cams. split; [|split; [exact Hc | exact Hrows]].
  unfold batch_cam. cbv zeta. rewrite HK. unfold Supermag.range.
  rewrite Nat2Z.id.
  change (for_each _ (seq 0 K) _)
    with (for_each (body X sw (Z.of_nat b)) (seq 0 K)
                   (map junk (seq 0 (List.length X)))).
  rewrite Hrun. reflexivity.
Qed.

(** X19: with Python 3 and a positive batch size, [batch_cam] computes
    every sample exactly once, in consecutive batches of [batch_size]
    samples (the last one shorter when the size does not divide the
    number of samples): row [j] of the result is row [j mod batch_size]
    of what the network gives on batch [j / batch_size], and nothing of
    what [np.empty] left remains. *)
Theorem batch_cam_covers_every_sample (X : list sample) (sw : list weight)
        (batch_size : Z) :
  (0 < batch_size)%Z ->
  (forall x s cbs, List.length (resized_cam x s cbs) = Z.to_nat cbs) ->
  exists cams,
    batch_cam resized_cam junk Supermag.Python3 X sw batch_size = Returned cams /\
    List.length cams = List.length X /\
    forall j, (j < List.length X)%nat ->
      let n := List.length X in
      let b := Z.to_nat batch_size in
      let q := (j / b)%nat in
      nth_error cams j
      = nth_error (resized_cam (batch_of n b q X) (batch_of n b q sw)
                               (Z.of_nat (Nat.min b (n - q * b))))
                  (j mod b).
Proof.
intros Hbs Hlen.
set (b := Z.to_nat batch_size). set (n := List.length X).
assert (Hb : (0 < b)%nat) by (unfold b; lia).
assert (Hbz : batch_size = Z.of_nat b) by (unfold b; lia).
set (K := Z.to_nat (- (- Z.of_nat n / Z.of_nat b))).
pose proof (Z.div_mod (- Z.of_nat n) (Z.of_nat b) ltac:(lia)) as Hdm.
pose proof (Z.mod_pos_bound (- Z.of_nat n) (Z.of_nat b) ltac:(lia)) as Hmb.
assert (HK : (- (- Z.of_nat n / Z.of_nat b))%Z = Z.of_nat K) by (unfold K; nia).
assert (Hup : (n <= K * b)%nat) by nia.
assert (Hlow : forall i, (i < K)%nat -> (i * b < n)%nat) by (intros i Hi; nia).
destruct (batch_cam_runs Supermag.Python3 X sw b K Hb Hlen) as (cams & Hrun & Hc & Hrows).
- unfold n_batches. destruct (Z.eqb_spec (Z.of_nat b) 0); [lia|].
  fold n. rewrite HK. reflexivity.
- exact Hlow.
- exists cams. rewrite Hbz. split; [exact Hrun|]. split; [exact Hc|].
  intros j Hj. cbv zeta. rewrite (Hrows j Hj).
  destruct (Nat.ltb_spec j (K * b)) as [_|Hge]; [reflexivity|].
  fold n in Hj. lia.
Qed.

(** X20: with Python 2 the quotient [X.shape[0] / batch_size] is the
    floor quotient, so the last, shorter batch is never computed: the
    rows after the last full batch are returned as [np.empty] left
    them. *)
Theorem batch_cam_python2_skips_last_batch (X : list sample) (sw : list weight)
        (batch_size : Z) :
  (0 < batch_size)%Z ->
  (forall x s cbs, List.length (resized_cam x s cbs) = Z.to_nat cbs) ->
  exists cams,
    batch_cam resized_cam junk Supermag.Python2 X sw batch_size = Returned cams /\
    List.length cams = List.length X /\
    forall j, (j < List.length X)%nat ->
      (List.length X / Z.to_nat batch_size * Z.to_nat batch_size <= j)%nat ->
      nth_error cams j = Some (junk j).
Proof.
intros Hbs Hlen.
set (b := Z.to_nat batch_size). set (n := List.length X).
assert (Hb : (0 < b)%nat) by (unfold b; lia).
assert (Hbz : batch_size = Z.of_nat b) by (unfold b; lia).
pose proof (Nat.div_mod_eq n b) as Hdm.
pose proof (Nat.mod_upper_bound n b ltac:(lia)) as Hmb.
destruct (batch_cam_runs Supermag.Python2 X sw b (n / b) Hb Hlen)
  as (cams & Hrun & Hc & Hrows).
- unfold n_batches. destruct (Z.eqb_spec (Z.of_nat b) 0); [lia|].
  fold n. rewrite Nat2Z.inj_div. reflexivity.
- intros i Hi. fold n. nia.
- exists cams. rewrite Hbz. split; [exact Hrun|]. split; [exact Hc|].
  intros j Hj Hge. rewrite (Hrows j Hj).
  destruct (Nat.ltb_spec j (n / b * b)) as [Hlt|_]; [lia | reflexivity].
Qed.

(** X21: a batch size of zero makes [batch_cam] raise
    [ZeroDivisionError]; with a negative one the loop does not run, and
    the array is returned as [np.empty] left it, whatever the network
    is. *)
Theorem batch_cam_nonpositive_batch py (X : list sample) (sw : list weight)
        (batch_size : Z) :
  (batch_size <= 0)%Z ->
  batch_cam resized_cam junk py X sw batch_size
  = if (batch_size =? 0)%Z then Raised ZeroDivisionError
    else Returned (map junk (seq 0 (List.length X))).
Proof.
intros Hbs. unfold batch_cam, n_batches. cbv zeta.
destruct (Z.eqb_spec batch_size 0) as [|Hne]; [reflexivity|].
set (n := Z.of_nat (List.length X)).
assert (Hk : Supermag.range
               match py with
               | Supermag.Python2 => (n / batch_size)%Z
               | Supermag.Python3 => (- (- n / batch_size))%Z
               end = []).
{ unfold Supermag.range.
  assert (Hn : (0 <= n)%Z) by (unfold n; lia).
  destruct py.
  - pose proof (Z.div_mod n batch_size Hne).
    pose proof (Z.mod_neg_bound n batch_size ltac:(lia)).
    assert (Hq : (n / batch_size <= 0)%Z) by nia.
    replace (Z.to_nat (n / batch_size)) with 0%nat by lia. reflexivity.
  - pose proof (Z.div_mod (- n) batch_size Hne).
    pose proof (Z.mod_neg_bound (- n) batch_size ltac:(lia)).
    assert (Hq : (- (- n / batch_size) <= 0)%Z) by nia.
    replace (Z.to_nat (- (- n / batch_size))) with 0%nat by lia.
    reflexivity. }
rewrite Hk. reflexivity.
Qed.

End Batches.
End CamFacts.

Lemma batch_cam_covers_every_sample_witness :
  exists cams,
    Cam.batch_cam (fun (x s : list nat) cbs =>
                     firstn (Z.to_nat cbs) (map S x ++ repeat 0%nat (Z.to_nat cbs)))
                  (fun _ => 0%nat) Supermag.Python3
                  [10; 20; 30; 40; 50]%nat [1; 1; 1; 1; 1]%nat 2
    = Returned cams /\
    List.length cams = 5%nat.
Proof.
destruct (CamFacts.batch_cam_covers_every_sample nat nat nat
            (fun (x s : list nat) cbs =>
               firstn (Z.to_nat cbs) (map S x ++ repeat 0%nat (Z.to_nat cbs)))
            (fun _ => 0%nat) [10; 20; 30; 40; 50]%nat [1; 1; 1; 1; 1]%nat 2%Z
            ltac:(lia)
            ltac:(intros x s cbs; cbv beta;
                  rewrite length_firstn, length_app, repeat_length; lia))
  as (cams & Hrun & Hc & _).
exists cams. split; [exact Hrun | exact Hc].
Defined.

Lemma batch_cam_python2_skips_last_batch_witness :
  exists cams,
    Cam.batch_cam (fun (x s : list nat) cbs =>
                     firstn (Z.to_nat cbs) (map S x ++ repeat 0%nat (Z.to_nat cbs)))
                  (fun j => (1000 + j)%nat) Supermag.Python2
                  [10; 20; 30; 40; 50]%nat [1; 1; 1; 1; 1]%nat 2
    = Returned cams /\
    nth_error cams 4 = Some 1004%nat.
Proof.
destruct (CamFacts.batch_cam_python2_skips_last_batch nat nat nat
            (fun (x s : list nat) cbs =>
               firstn (Z.to_nat cbs) (map S x ++ repeat 0%nat (Z.to_nat cbs)))
            (fun j => (1000 + j)%nat)
            [10; 20; 30; 40; 50]%nat [1; 1; 1; 1; 1]%nat 2%Z
            ltac:(lia)
            ltac:(intros x s cbs; cbv beta;
                  rewrite length_firstn, length_app, repeat_length; lia))
  as (cams & Hrun & _ & Hrows).
exists cams. split; [exact Hrun|].
apply (Hrows 4%nat); vm_compute; lia.
Defined.

Lemma batch_cam_nonpositive_batch_witness :
  Cam.batch_cam (fun (x s : list nat) (cbs : Z) => x) (fun j => j)
                Supermag.Python3 [10; 20; 30]%nat [1; 1; 1]%nat (-2)
  = Returned [0; 1; 2]%nat.
Proof.
apply (CamFacts.batch_cam_nonpositive_batch nat nat nat
         (fun (x s : list nat) (cbs : Z) => x) (fun j => j)
         Supermag.Python3 [10; 20; 30]%nat [1; 1; 1]%nat (-2)%Z).
lia.
Defined.

(* ------------------------------------------------------------------ *)
(** ** downloadData *)

Module YearFacts.
Import Supermag Effects Years.

Section Years.

Variable frame : Type.
Variable read_frame : string -> outcome frame.
Variable parse_stations : string -> option pyvalue.
Variable xr_merge : Dataset frame -> Dataset frame -> Dataset frame.
Variable net : nat -> endpoint -> params -> reply.
Variable py : python.
Variable chdir : string -> outcome unit.

Implicit Type w : world frame.

Lemma year_loop_files (yrs : list Z) :
  forall w o w',
    for_fold (fun yr (_ : unit) =>
      match new_year yr, new_year (yr + 1) with
      | Returned start_date, Returned end_date =>
          downloadDataToFile read_frame parse_stations xr_merge net py
                             (fn_of_year yr) start_date end_date N_INTERVALS
      | Raised e, _ => raise e
      | _, Raised e => raise e
      end) yrs tt w = (o, w') ->
    exists new,
      files w' = files w ++ new /\
      match o with
      | Returned _ => map fst new = map fn_of_year yrs
      | Raised _ => exists k, (k < List.length yrs)%nat /\
                              map fst new = firstn k (map fn_of_year yrs)
      end.
Proof.
induction yrs as [|yr yrs IH]; intros w o w' Hrun.
- cbn [for_fold] in Hrun. unfold ret in Hrun. injection Hrun as <- <-.
  exists []. rewrite app_nil_r. split; reflexivity.
- cbn [for_fold] in Hrun. unfold bind at 1 in Hrun.
  assert (Hstop : forall e, (Raised e, w) = (o, w') ->
            exists new,
              files w' = files w ++ new /\
              match o with
              | Returned _ => map fst new = map fn_of_year (yr :: yrs)
              | Raised _ => exists k, (k < List.length (yr :: yrs))%nat /\
                              map fst new = firstn k (map fn_of_year (yr :: yrs))
              end).
  { intros e [= <- <-]. exists []. rewrite app_nil_r. split; [reflexivity|].
    exists 0%nat. split; [cbn; lia | reflexivity]. }
  destruct (new_year yr) as [start_date|e];
    [destruct (new_year (yr + 1)) as [end_date|e]|];
    [| exact (Hstop e Hrun) | exact (Hstop e Hrun)].
  destruct (downloadDataToFile read_frame parse_stations xr_merge net py
              (fn_of_year yr) start_date end_date N_INTERVALS w)
    as [o1 w1] eqn:Hyear.
  destruct (EffectFacts.downloadDataToFile_outcome _ _ _ _ _ _ _ _ _ _ _ _ _ Hyear)
    as [_ Hfiles].
  destruct o1 as [[]|e].
  + destruct Hfiles as [dataset Hfiles].
    destruct (IH w1 o w' Hrun) as (new & Hnew & Ho).
    exists ((fn_of_year yr, dataset) :: new). split.
    * rewrite Hnew, Hfiles, <- app_assoc. reflexivity.
    * destruct o as [u|e].
      -- cbn [map fst]. rewrite Ho. reflexivity.
      -- destruct Ho as (k & Hk & Ho). exists (S k). split; [cbn; lia|].
         cbn [map fst firstn]. rewrite Ho. reflexivity.
  + injection Hrun as <- <-. exists []. rewrite app_nil_r.
    split; [exact Hfiles|]. exists 0%nat. split; [cbn; lia | reflexivity].
Qed.

Lemma downloadData_outcome w o w' :
  downloadData read_frame parse_stations xr_merge net py chdir w = (o, w') ->
  exists new,
    files w' = files w ++ new /\
    match o with
    | Returned _ => map fst new = map fn_of_year (range2 START_YEAR END_YEAR)
    | Raised _ =>
        exists k, (k < 4)%nat /\
          map fst new = firstn k (map fn_of_year (range2 START_YEAR END_YEAR))
    end.
Proof.
unfold downloadData. unfold bind at 1.
destruct (chdir DOWNLOAD_DIR) as [[]|e].
- intros Hrun. apply year_loop_files in Hrun. exact Hrun.
- intros [= <- <-]. exists []. rewrite app_nil_r. split; [reflexivity|].
  exists 0%nat. split; [lia | reflexivity].
Qed.

(** X22: whatever the network and the parsers do, [downloadData] writes
    the files of the years 2015 to 2018 in this order, each one whole,
    and stops at the first year that fails: when it returns, the four
    files have been added; when it raises, the files added are those of
    the years before the failing one, and no later year is tried. *)
Theorem downloadData_files w :
  let r := downloadData read_frame parse_stations xr_merge net py chdir w in
  let names := ["mag_data_2015"; "mag_data_2016"; "mag_data_2017";
                "mag_data_2018"]%string in
  exists new,
    files (snd r) = files w ++ new /\
    match fst r with
    | Returned _ => map fst new = names
    | Raised _ => exists k, (k < 4)%nat /\ map fst new = firstn k names
    end.
Proof.
cbv zeta.
destruct (downloadData read_frame parse_stations xr_merge net py chdir w)
  as [o w'] eqn:Hrun.
exact (downloadData_outcome w o w' Hrun).
Qed.

End Years.
End YearFacts.
